(** * OpenClaw Guardian, health fetcher: classification, sticky aggregation
      and restart merging of [layer2-audit/health_fetcher.py]

    The development embeds the functions of the health fetcher that decide
    the status matrix, the event timeline and the restart timeline, and
    proves the properties its specification states about them.

    Modelling conventions.
    - A Python [str] is the list of its code points ([pystr]); literals are
      written as UTF-8 text and decoded by [py].
    - [str.isspace], [\d], [\w], [int] on digits and the IGNORECASE flag
      are Python's tables (CPython 3.11, Unicode 14.0).  [str.lower] maps
      the ASCII capitals only: the module lower-cases a text only to look
      for ASCII words without a k in it or to match it against digits and
      the letters h, m and s, and the only characters outside ASCII whose
      lower case holds an ASCII character are the dotted capital I, which
      becomes i followed by a combining dot, and the Kelvin sign, which
      becomes k; neither changes the outcome of these tests.
    - An instant ([datetime], always UTC-aware in these functions) is its
      number of microseconds since the epoch and a [timedelta] a number of
      microseconds, both unbounded integers; [total_seconds()] compared with
      an integer number of seconds is the exact comparison of microseconds.
      Python raises where a [timedelta] or an instant leaves its range
      ([TIMEDELTA_MAX], [DATETIME_MAX]) and where [int] reads more than
      [INT_MAX_STR_DIGITS] digits; a statement about every duration text
      carries these bounds as hypotheses.
    - A log line is its text together with the instant [_parse_ts_utc]
      finds in it, and the timezone [tz] is the rendering function
      [_fmt_local(., tz)]: calendar and timezone arithmetic stay with
      Python's [datetime] and [zoneinfo].
    - A [dict] keyed by model id is a [gmap]; the final rendering of the
      matrix as a sorted list of rows is not part of the model. *)

From Stdlib Require Import ZArith NArith Ascii String Lia.
From stdpp Require Import gmap list sorting.

Local Open Scope Z_scope.

(** ** Python strings *)

Abbreviation pystr := (list N).

Fixpoint bytes_of (s : string) : list N :=
  match s with
  | EmptyString => []
  | String a s' => N_of_ascii a :: bytes_of s'
  end.

(** UTF-8 decoding of well-formed text (1 to 4 byte sequences). *)
Fixpoint utf8 (bs : list N) : pystr :=
  match bs with
  | [] => []
  | b0 :: t0 =>
    if (b0 <? 128)%N then b0 :: utf8 t0 else
    match t0 with
    | [] => []
    | b1 :: t1 =>
      if (b0 <? 224)%N then ((b0 - 192) * 64 + (b1 - 128))%N :: utf8 t1 else
      match t1 with
      | [] => []
      | b2 :: t2 =>
        if (b0 <? 240)%N
        then ((b0 - 224) * 4096 + (b1 - 128) * 64 + (b2 - 128))%N :: utf8 t2
        else
          match t2 with
          | [] => []
          | b3 :: t3 =>
            ((b0 - 240) * 262144 + (b1 - 128) * 4096
             + (b2 - 128) * 64 + (b3 - 128))%N :: utf8 t3
          end
      end
    end
  end.

Definition py (s : string) : pystr := utf8 (bytes_of s).

(** The double quote, which a literal cannot hold. *)
Definition dq : pystr := [34%N].

(** [str.isspace]: Unicode White_Space plus the four separators 1C..1F. *)
Definition isspace (c : N) : bool :=
  ((9 <=? c) && (c <=? 13) || (28 <=? c) && (c <=? 32)
   || (c =? 133) || (c =? 160) || (c =? 5760)
   || (8192 <=? c) && (c <=? 8202)
   || (c =? 8232) || (c =? 8233) || (c =? 8239) || (c =? 8287)
   || (c =? 12288))%N.

(** The decimal digits, Unicode category Nd (Unicode 14.0, the table of
    CPython 3.11): runs of ten code points, the digits 0 to 9 in order. *)
Definition DECIMAL_RANGES : list (N * N) :=
  [ (48, 57); (1632, 1641); (1776, 1785); (1984, 1993); (2406, 2415);
    (2534, 2543); (2662, 2671); (2790, 2799); (2918, 2927); (3046, 3055);
    (3174, 3183); (3302, 3311); (3430, 3439); (3558, 3567); (3664, 3673);
    (3792, 3801); (3872, 3881); (4160, 4169); (4240, 4249); (6112, 6121);
    (6160, 6169); (6470, 6479); (6608, 6617); (6784, 6793); (6800, 6809);
    (6992, 7001); (7088, 7097); (7232, 7241); (7248, 7257); (42528, 42537);
    (43216, 43225); (43264, 43273); (43472, 43481); (43504, 43513);
    (43600, 43609); (44016, 44025); (65296, 65305); (66720, 66729);
    (68912, 68921); (69734, 69743); (69872, 69881); (69942, 69951);
    (70096, 70105); (70384, 70393); (70736, 70745); (70864, 70873);
    (71248, 71257); (71360, 71369); (71472, 71481); (71904, 71913);
    (72016, 72025); (72784, 72793); (73040, 73049); (73120, 73129);
    (92768, 92777); (92864, 92873); (93008, 93017); (120782, 120831);
    (123200, 123209); (123632, 123641); (125264, 125273); (130032, 130041) ]%N.

(** The word characters: the alphanumeric code points of the same table
    and the underscore. *)
Definition WORD_RANGES : list (N * N) :=
  [ (48, 57); (65, 90); (95, 95); (97, 122); (170, 170); (178, 179);
    (181, 181); (185, 186); (188, 190); (192, 214); (216, 246); (248, 705);
    (710, 721); (736, 740); (748, 748); (750, 750); (880, 884); (886, 887);
    (890, 893); (895, 895); (902, 902); (904, 906); (908, 908); (910, 929);
    (931, 1013); (1015, 1153); (1162, 1327); (1329, 1366); (1369, 1369);
    (1376, 1416); (1488, 1514); (1519, 1522); (1568, 1610); (1632, 1641);
    (1646, 1647); (1649, 1747); (1749, 1749); (1765, 1766); (1774, 1788);
    (1791, 1791); (1808, 1808); (1810, 1839); (1869, 1957); (1969, 1969);
    (1984, 2026); (2036, 2037); (2042, 2042); (2048, 2069); (2074, 2074);
    (2084, 2084); (2088, 2088); (2112, 2136); (2144, 2154); (2160, 2183);
    (2185, 2190); (2208, 2249); (2308, 2361); (2365, 2365); (2384, 2384);
    (2392, 2401); (2406, 2415); (2417, 2432); (2437, 2444); (2447, 2448);
    (2451, 2472); (2474, 2480); (2482, 2482); (2486, 2489); (2493, 2493);
    (2510, 2510); (2524, 2525); (2527, 2529); (2534, 2545); (2548, 2553);
    (2556, 2556); (2565, 2570); (2575, 2576); (2579, 2600); (2602, 2608);
    (2610, 2611); (2613, 2614); (2616, 2617); (2649, 2652); (2654, 2654);
    (2662, 2671); (2674, 2676); (2693, 2701); (2703, 2705); (2707, 2728);
    (2730, 2736); (2738, 2739); (2741, 2745); (2749, 2749); (2768, 2768);
    (2784, 2785); (2790, 2799); (2809, 2809); (2821, 2828); (2831, 2832);
    (2835, 2856); (2858, 2864); (2866, 2867); (2869, 2873); (2877, 2877);
    (2908, 2909); (2911, 2913); (2918, 2927); (2929, 2935); (2947, 2947);
    (2949, 2954); (2958, 2960); (2962, 2965); (2969, 2970); (2972, 2972);
    (2974, 2975); (2979, 2980); (2984, 2986); (2990, 3001); (3024, 3024);
    (3046, 3058); (3077, 3084); (3086, 3088); (3090, 3112); (3114, 3129);
    (3133, 3133); (3160, 3162); (3165, 3165); (3168, 3169); (3174, 3183);
    (3192, 3198); (3200, 3200); (3205, 3212); (3214, 3216); (3218, 3240);
    (3242, 3251); (3253, 3257); (3261, 3261); (3293, 3294); (3296, 3297);
    (3302, 3311); (3313, 3314); (3332, 3340); (3342, 3344); (3346, 3386);
    (3389, 3389); (3406, 3406); (3412, 3414); (3416, 3425); (3430, 3448);
    (3450, 3455); (3461, 3478); (3482, 3505); (3507, 3515); (3517, 3517);
    (3520, 3526); (3558, 3567); (3585, 3632); (3634, 3635); (3648, 3654);
    (3664, 3673); (3713, 3714); (3716, 3716); (3718, 3722); (3724, 3747);
    (3749, 3749); (3751, 3760); (3762, 3763); (3773, 3773); (3776, 3780);
    (3782, 3782); (3792, 3801); (3804, 3807); (3840, 3840); (3872, 3891);
    (3904, 3911); (3913, 3948); (3976, 3980); (4096, 4138); (4159, 4169);
    (4176, 4181); (4186, 4189); (4193, 4193); (4197, 4198); (4206, 4208);
    (4213, 4225); (4238, 4238); (4240, 4249); (4256, 4293); (4295, 4295);
    (4301, 4301); (4304, 4346); (4348, 4680); (4682, 4685); (4688, 4694);
    (4696, 4696); (4698, 4701); (4704, 4744); (4746, 4749); (4752, 4784);
    (4786, 4789); (4792, 4798); (4800, 4800); (4802, 4805); (4808, 4822);
    (4824, 4880); (4882, 4885); (4888, 4954); (4969, 4988); (4992, 5007);
    (5024, 5109); (5112, 5117); (5121, 5740); (5743, 5759); (5761, 5786);
    (5792, 5866); (5870, 5880); (5888, 5905); (5919, 5937); (5952, 5969);
    (5984, 5996); (5998, 6000); (6016, 6067); (6103, 6103); (6108, 6108);
    (6112, 6121); (6128, 6137); (6160, 6169); (6176, 6264); (6272, 6276);
    (6279, 6312); (6314, 6314); (6320, 6389); (6400, 6430); (6470, 6509);
    (6512, 6516); (6528, 6571); (6576, 6601); (6608, 6618); (6656, 6678);
    (6688, 6740); (6784, 6793); (6800, 6809); (6823, 6823); (6917, 6963);
    (6981, 6988); (6992, 7001); (7043, 7072); (7086, 7141); (7168, 7203);
    (7232, 7241); (7245, 7293); (7296, 7304); (7312, 7354); (7357, 7359);
    (7401, 7404); (7406, 7411); (7413, 7414); (7418, 7418); (7424, 7615);
    (7680, 7957); (7960, 7965); (7968, 8005); (8008, 8013); (8016, 8023);
    (8025, 8025); (8027, 8027); (8029, 8029); (8031, 8061); (8064, 8116);
    (8118, 8124); (8126, 8126); (8130, 8132); (8134, 8140); (8144, 8147);
    (8150, 8155); (8160, 8172); (8178, 8180); (8182, 8188); (8304, 8305);
    (8308, 8313); (8319, 8329); (8336, 8348); (8450, 8450); (8455, 8455);
    (8458, 8467); (8469, 8469); (8473, 8477); (8484, 8484); (8486, 8486);
    (8488, 8488); (8490, 8493); (8495, 8505); (8508, 8511); (8517, 8521);
    (8526, 8526); (8528, 8585); (9312, 9371); (9450, 9471); (10102, 10131);
    (11264, 11492); (11499, 11502); (11506, 11507); (11517, 11517);
    (11520, 11557); (11559, 11559); (11565, 11565); (11568, 11623);
    (11631, 11631); (11648, 11670); (11680, 11686); (11688, 11694);
    (11696, 11702); (11704, 11710); (11712, 11718); (11720, 11726);
    (11728, 11734); (11736, 11742); (11823, 11823); (12293, 12295);
    (12321, 12329); (12337, 12341); (12344, 12348); (12353, 12438);
    (12445, 12447); (12449, 12538); (12540, 12543); (12549, 12591);
    (12593, 12686); (12690, 12693); (12704, 12735); (12784, 12799);
    (12832, 12841); (12872, 12879); (12881, 12895); (12928, 12937);
    (12977, 12991); (13312, 19903); (19968, 42124); (42192, 42237);
    (42240, 42508); (42512, 42539); (42560, 42606); (42623, 42653);
    (42656, 42735); (42775, 42783); (42786, 42888); (42891, 42954);
    (42960, 42961); (42963, 42963); (42965, 42969); (42994, 43009);
    (43011, 43013); (43015, 43018); (43020, 43042); (43056, 43061);
    (43072, 43123); (43138, 43187); (43216, 43225); (43250, 43255);
    (43259, 43259); (43261, 43262); (43264, 43301); (43312, 43334);
    (43360, 43388); (43396, 43442); (43471, 43481); (43488, 43492);
    (43494, 43518); (43520, 43560); (43584, 43586); (43588, 43595);
    (43600, 43609); (43616, 43638); (43642, 43642); (43646, 43695);
    (43697, 43697); (43701, 43702); (43705, 43709); (43712, 43712);
    (43714, 43714); (43739, 43741); (43744, 43754); (43762, 43764);
    (43777, 43782); (43785, 43790); (43793, 43798); (43808, 43814);
    (43816, 43822); (43824, 43866); (43868, 43881); (43888, 44002);
    (44016, 44025); (44032, 55203); (55216, 55238); (55243, 55291);
    (63744, 64109); (64112, 64217); (64256, 64262); (64275, 64279);
    (64285, 64285); (64287, 64296); (64298, 64310); (64312, 64316);
    (64318, 64318); (64320, 64321); (64323, 64324); (64326, 64433);
    (64467, 64829); (64848, 64911); (64914, 64967); (65008, 65019);
    (65136, 65140); (65142, 65276); (65296, 65305); (65313, 65338);
    (65345, 65370); (65382, 65470); (65474, 65479); (65482, 65487);
    (65490, 65495); (65498, 65500); (65536, 65547); (65549, 65574);
    (65576, 65594); (65596, 65597); (65599, 65613); (65616, 65629);
    (65664, 65786); (65799, 65843); (65856, 65912); (65930, 65931);
    (66176, 66204); (66208, 66256); (66273, 66299); (66304, 66339);
    (66349, 66378); (66384, 66421); (66432, 66461); (66464, 66499);
    (66504, 66511); (66513, 66517); (66560, 66717); (66720, 66729);
    (66736, 66771); (66776, 66811); (66816, 66855); (66864, 66915);
    (66928, 66938); (66940, 66954); (66956, 66962); (66964, 66965);
    (66967, 66977); (66979, 66993); (66995, 67001); (67003, 67004);
    (67072, 67382); (67392, 67413); (67424, 67431); (67456, 67461);
    (67463, 67504); (67506, 67514); (67584, 67589); (67592, 67592);
    (67594, 67637); (67639, 67640); (67644, 67644); (67647, 67669);
    (67672, 67702); (67705, 67742); (67751, 67759); (67808, 67826);
    (67828, 67829); (67835, 67867); (67872, 67897); (67968, 68023);
    (68028, 68047); (68050, 68096); (68112, 68115); (68117, 68119);
    (68121, 68149); (68160, 68168); (68192, 68222); (68224, 68255);
    (68288, 68295); (68297, 68324); (68331, 68335); (68352, 68405);
    (68416, 68437); (68440, 68466); (68472, 68497); (68521, 68527);
    (68608, 68680); (68736, 68786); (68800, 68850); (68858, 68899);
    (68912, 68921); (69216, 69246); (69248, 69289); (69296, 69297);
    (69376, 69415); (69424, 69445); (69457, 69460); (69488, 69505);
    (69552, 69579); (69600, 69622); (69635, 69687); (69714, 69743);
    (69745, 69746); (69749, 69749); (69763, 69807); (69840, 69864);
    (69872, 69881); (69891, 69926); (69942, 69951); (69956, 69956);
    (69959, 69959); (69968, 70002); (70006, 70006); (70019, 70066);
    (70081, 70084); (70096, 70106); (70108, 70108); (70113, 70132);
    (70144, 70161); (70163, 70187); (70272, 70278); (70280, 70280);
    (70282, 70285); (70287, 70301); (70303, 70312); (70320, 70366);
    (70384, 70393); (70405, 70412); (70415, 70416); (70419, 70440);
    (70442, 70448); (70450, 70451); (70453, 70457); (70461, 70461);
    (70480, 70480); (70493, 70497); (70656, 70708); (70727, 70730);
    (70736, 70745); (70751, 70753); (70784, 70831); (70852, 70853);
    (70855, 70855); (70864, 70873); (71040, 71086); (71128, 71131);
    (71168, 71215); (71236, 71236); (71248, 71257); (71296, 71338);
    (71352, 71352); (71360, 71369); (71424, 71450); (71472, 71483);
    (71488, 71494); (71680, 71723); (71840, 71922); (71935, 71942);
    (71945, 71945); (71948, 71955); (71957, 71958); (71960, 71983);
    (71999, 71999); (72001, 72001); (72016, 72025); (72096, 72103);
    (72106, 72144); (72161, 72161); (72163, 72163); (72192, 72192);
    (72203, 72242); (72250, 72250); (72272, 72272); (72284, 72329);
    (72349, 72349); (72368, 72440); (72704, 72712); (72714, 72750);
    (72768, 72768); (72784, 72812); (72818, 72847); (72960, 72966);
    (72968, 72969); (72971, 73008); (73030, 73030); (73040, 73049);
    (73056, 73061); (73063, 73064); (73066, 73097); (73112, 73112);
    (73120, 73129); (73440, 73458); (73648, 73648); (73664, 73684);
    (73728, 74649); (74752, 74862); (74880, 75075); (77712, 77808);
    (77824, 78894); (82944, 83526); (92160, 92728); (92736, 92766);
    (92768, 92777); (92784, 92862); (92864, 92873); (92880, 92909);
    (92928, 92975); (92992, 92995); (93008, 93017); (93019, 93025);
    (93027, 93047); (93053, 93071); (93760, 93846); (93952, 94026);
    (94032, 94032); (94099, 94111); (94176, 94177); (94179, 94179);
    (94208, 100343); (100352, 101589); (101632, 101640); (110576, 110579);
    (110581, 110587); (110589, 110590); (110592, 110882); (110928, 110930);
    (110948, 110951); (110960, 111355); (113664, 113770); (113776, 113788);
    (113792, 113800); (113808, 113817); (119520, 119539); (119648, 119672);
    (119808, 119892); (119894, 119964); (119966, 119967); (119970, 119970);
    (119973, 119974); (119977, 119980); (119982, 119993); (119995, 119995);
    (119997, 120003); (120005, 120069); (120071, 120074); (120077, 120084);
    (120086, 120092); (120094, 120121); (120123, 120126); (120128, 120132);
    (120134, 120134); (120138, 120144); (120146, 120485); (120488, 120512);
    (120514, 120538); (120540, 120570); (120572, 120596); (120598, 120628);
    (120630, 120654); (120656, 120686); (120688, 120712); (120714, 120744);
    (120746, 120770); (120772, 120779); (120782, 120831); (122624, 122654);
    (123136, 123180); (123191, 123197); (123200, 123209); (123214, 123214);
    (123536, 123565); (123584, 123627); (123632, 123641); (124896, 124902);
    (124904, 124907); (124909, 124910); (124912, 124926); (124928, 125124);
    (125127, 125135); (125184, 125251); (125259, 125259); (125264, 125273);
    (126065, 126123); (126125, 126127); (126129, 126132); (126209, 126253);
    (126255, 126269); (126464, 126467); (126469, 126495); (126497, 126498);
    (126500, 126500); (126503, 126503); (126505, 126514); (126516, 126519);
    (126521, 126521); (126523, 126523); (126530, 126530); (126535, 126535);
    (126537, 126537); (126539, 126539); (126541, 126543); (126545, 126546);
    (126548, 126548); (126551, 126551); (126553, 126553); (126555, 126555);
    (126557, 126557); (126559, 126559); (126561, 126562); (126564, 126564);
    (126567, 126570); (126572, 126578); (126580, 126583); (126585, 126588);
    (126590, 126590); (126592, 126601); (126603, 126619); (126625, 126627);
    (126629, 126633); (126635, 126651); (127232, 127244); (130032, 130041);
    (131072, 173791); (173824, 177976); (177984, 178205); (178208, 183969);
    (183984, 191456); (194560, 195101); (196608, 201546) ]%N.

(** The range of a sorted table that holds a code point. *)
Fixpoint range_of (c : N) (rs : list (N * N)) : option (N * N) :=
  match rs with
  | [] => None
  | (lo, hi) :: rs' =>
    if (c <=? hi)%N then (if (lo <=? c)%N then Some (lo, hi) else None)
    else range_of c rs'
  end.

Definition in_ranges (c : N) (rs : list (N * N)) : bool :=
  match range_of c rs with Some _ => true | None => false end.

(** The class [\d] of [re], which is [str.isdecimal]. *)
Definition isdigit (c : N) : bool := in_ranges c DECIMAL_RANGES.

(** The value [int] gives a decimal digit. *)
Definition digit_value (c : N) : Z :=
  match range_of c DECIMAL_RANGES with
  | Some (lo, _) => Z.of_N ((c - lo) mod 10)
  | None => 0
  end.

(** The class [\w] of [re]. *)
Definition isword (c : N) : bool := in_ranges c WORD_RANGES.

Definition lower_char (c : N) : N :=
  if ((65 <=? c) && (c <=? 90))%N then (c + 32)%N else c.

Definition lower (s : pystr) : pystr := map lower_char s.

Fixpoint lstrip (s : pystr) : pystr :=
  match s with
  | c :: s' => if isspace c then lstrip s' else s
  | [] => []
  end.

Definition rstrip (s : pystr) : pystr := reverse (lstrip (reverse s)).

Definition strip (s : pystr) : pystr := rstrip (lstrip s).

(** [s.startswith(p)] *)
Fixpoint startswith (p s : pystr) : bool :=
  match p, s with
  | [], _ => true
  | a :: p', b :: s' => (a =? b)%N && startswith p' s'
  | _ :: _, [] => false
  end.

(** [sub in s] *)
Fixpoint contains (sub s : pystr) : bool :=
  startswith sub s ||
  match s with
  | [] => false
  | _ :: s' => contains sub s'
  end.

(** [s.split(sep, 1)] for a one-character separator that occurs in [s]:
    the text before the first separator and the text after it. *)
Fixpoint split_once (sep : N) (s : pystr) : pystr * pystr :=
  match s with
  | [] => ([], [])
  | c :: s' =>
    if (c =? sep)%N then ([], s')
    else let '(a, b) := split_once sep s' in (c :: a, b)
  end.

(** [s.split(sep)] for a one-character separator. *)
Fixpoint split_on (sep : N) (s : pystr) : list pystr :=
  match s with
  | [] => [[]]
  | c :: s' =>
    if (c =? sep)%N then [] :: split_on sep s'
    else match split_on sep s' with
         | seg :: segs => (c :: seg) :: segs
         | [] => [[c]]
         end
  end.

(** ** Severity *)

Definition RED : pystr := Eval vm_compute in py "🔴".
Definition YELLOW : pystr := Eval vm_compute in py "🟡".
Definition GREEN : pystr := Eval vm_compute in py "🟢".

(** [a.lstrip()[:1]] *)
Definition glyph (a : pystr) : pystr := take 1 (lstrip a).

(** [order.get(e, 0)] for [order = {"🔴": 3, "🟡": 2, "🟢": 1}] *)
Definition order (e : pystr) : Z :=
  if decide (e = RED) then 3
  else if decide (e = YELLOW) then 2
  else if decide (e = GREEN) then 1
  else 0.

Definition _worse_status (a b : pystr) : pystr :=
  if order (glyph a) >=? order (glyph b) then a else b.

(** The severity of a status string. *)
Definition rank (a : pystr) : Z := order (glyph a).

(** ** Regular expressions

    The patterns of the module are matched by a backtracking matcher in
    continuation-passing style, with the priorities of Python's [re]:
    alternatives left to right, repetition greedy, search leftmost. *)

Inductive regex :=
| Eps
| Chr (f : N -> bool)
| Seq (r1 r2 : regex)
| Alt (r1 r2 : regex)
| Star (r : regex)
| Grp (g : string) (r : regex)
| Bnd
| Eos.

(** A position of the matcher: the character before it (for [\b]), the
    text after it, and the groups matched so far, most recent first. *)
Record mstate := MState {
  prev : option N;
  rest : pystr;
  caps : list (string * pystr)
}.

Definition wordy (c : option N) : bool :=
  match c with Some x => isword x | None => false end.

(** Greedy repetition of a pattern with matcher [body]: one more turn
    first, which has to consume input, then the continuation. *)
Fixpoint star_loop (body : (mstate -> option mstate) -> mstate -> option mstate)
    (k : mstate -> option mstate) (n : nat) (s : mstate) : option mstate :=
  match n with
  | O => k s
  | S n' =>
    match body (fun s' =>
            if (length (rest s') <? length (rest s))%nat
            then star_loop body k n' s' else None) s with
    | Some m => Some m
    | None => k s
    end
  end.

Fixpoint mtch (r : regex) (k : mstate -> option mstate) (s : mstate)
  : option mstate :=
  match r with
  | Eps => k s
  | Chr f =>
    match rest s with
    | c :: t => if f c then k (MState (Some c) t (caps s)) else None
    | [] => None
    end
  | Seq r1 r2 => mtch r1 (mtch r2 k) s
  | Alt r1 r2 =>
    match mtch r1 k s with
    | Some m => Some m
    | None => mtch r2 k s
    end
  | Star r1 => star_loop (mtch r1) k (length (rest s)) s
  | Grp g r1 =>
    mtch r1 (fun s' =>
      k (MState (prev s') (rest s')
           ((g, take (length (rest s) - length (rest s')) (rest s))
              :: caps s'))) s
  | Bnd =>
    if xorb (wordy (prev s)) (wordy (head (rest s))) then k s else None
  | Eos =>
    match rest s with
    | [] => k s
    | [c] => if (c =? 10)%N then k s else None
    | _ => None
    end
  end.

(** [re.search]: the match at the leftmost position that has one. *)
Fixpoint search_from (r : regex) (p : option N) (s : pystr) : option mstate :=
  match mtch r Some (MState p s []) with
  | Some m => Some m
  | None =>
    match s with
    | [] => None
    | c :: s' => search_from r (Some c) s'
    end
  end.

Definition search (r : regex) (text : pystr) : option mstate :=
  search_from r None text.

Definition at_end (s : mstate) : option mstate :=
  match rest s with [] => Some s | _ => None end.

(** [re.fullmatch] *)
Definition fullmatch (r : regex) (text : pystr) : option mstate :=
  mtch r at_end (MState None text []).

(** [m.group(g)]: [None] when the group took no part in the match. *)
Fixpoint assoc (g : string) (l : list (string * pystr)) : option pystr :=
  match l with
  | [] => None
  | (g', v) :: l' => if String.eqb g g' then Some v else assoc g l'
  end.

Definition group (g : string) (m : mstate) : option pystr := assoc g (caps m).

(** Pattern syntax. *)
Definition cat (rs : list regex) : regex := foldr Seq Eps rs.
Definition alt (rs : list regex) : regex :=
  match rs with
  | [] => Eps
  | r :: rs' => fold_left Alt rs' r
  end.
Definition plus (r : regex) : regex := Seq r (Star r).
Definition opt (r : regex) : regex := Alt r Eps.
Definition chr (c : N) : regex := Chr (N.eqb c).
(** A pattern character under IGNORECASE: it matches the characters of
    its lower case and, for i, s and k, the four further letters [re]
    pairs with them (dotted I, dotless i, long s and the Kelvin sign). *)
Definition same_letter (c x : N) : bool :=
  ((lower_char x =? lower_char c)
   || (lower_char c =? 105) && ((x =? 304) || (x =? 305))
   || (lower_char c =? 115) && (x =? 383)
   || (lower_char c =? 107) && (x =? 8490))%N.

Definition chr_i (c : N) : regex := Chr (same_letter c).
Definition lit (s : string) : regex := cat (map chr (py s)).
Definition lit_i (s : string) : regex := cat (map chr_i (py s)).
Definition digit : regex := Chr isdigit.
Definition space : regex := Chr isspace.
Definition any : regex := Chr (fun c => negb (c =? 10)%N).
(** [[\w-]], [[\w.\-]] and [[\w\-./]] *)
Definition word_dash : regex := Chr (fun c => isword c || (c =? 45)%N).
Definition word_dot_dash : regex :=
  Chr (fun c => isword c || (c =? 46)%N || (c =? 45)%N).
Definition model_char : regex :=
  Chr (fun c => isword c || (c =? 45)%N || (c =? 46)%N || (c =? 47)%N).
Definition not_chr (c : N) : regex := Chr (fun x => negb (x =? c)%N).

(** [(?:\d+h)?(?:\d+m)?(?:\d+s)?], case-insensitive *)
Definition hms_i : regex :=
  cat [opt (cat [plus digit; chr_i 104]);
       opt (cat [plus digit; chr_i 109]);
       opt (cat [plus digit; chr_i 115])].

Definition PROVIDER_MODEL_RE : regex :=
  cat [Bnd; lit "provider="; Grp "provider" (plus word_dash); Bnd;
       Star any; Bnd; lit "model="; Grp "model" (plus word_dot_dash); Bnd].
Definition UNKNOWN_MODEL_RE : regex :=
  cat [lit "Unknown model:"; Star space; Grp "model" (plus model_char)].
Definition MODEL_QUOTED_RE : regex :=
  cat [lit "Model"; plus space; chr 34; Grp "model" (plus model_char); chr 34].
Definition NO_API_KEY_RE : regex :=
  cat [lit "No API key found for provider"; plus space; chr 34;
       Grp "provider" (plus word_dash); chr 34].
Definition MODEL_NOT_ALLOWED_RE : regex :=
  cat [lit "Model"; plus space; chr 34; Grp "model" (plus model_char); chr 34;
       plus space; lit "is not allowed"].
Definition RESET_AFTER_RE : regex :=
  cat [lit_i "reset after "; Grp "after" hms_i].
Definition COOLDOWN_PROVIDER_RE : regex :=
  cat [Bnd; lit_i "Provider"; plus space; Grp "provider" (plus word_dash);
       plus space; lit_i "is"; plus space; lit_i "in"; plus space;
       lit_i "cooldown"; Bnd].
Definition CAPACITY_EXHAUSTED_RE : regex :=
  lit_i "exhausted your capacity on this model".
Definition CONTEXT_LIMIT_RE : regex :=
  Grp "1" (alt [lit_i "context length";
                cat [lit_i "max"; opt (lit_i "imum"); lit_i " tokens"];
                lit_i "token limit"; lit_i "too many tokens"]).
Definition ALL_MODELS_FAILED_BODY_RE : regex :=
  cat [lit_i "all models failed"; Star space; chr 40; plus digit; chr 41;
       Star space; chr 58; Star space; Grp "body" (Star any); Eos].
Definition QUOTA_RESET_RE : regex :=
  cat [lit_i "quota will reset after "; Grp "after" hms_i].
Definition LANE_AGENT_RE : regex :=
  cat [Bnd; lit_i "lane=session:agent:"; Grp "agent" (plus (not_chr 58));
       chr 58].
Definition AGENT_DIR_RE : regex :=
  cat [lit_i "/.openclaw/agents/"; Grp "agent" (plus (not_chr 47)); chr 47].
(** [(?:(?P<h>\d+)h)?(?:(?P<m>\d+)m)?(?:(?P<s>\d+)s)?] *)
Definition HMS_RE : regex :=
  cat [opt (cat [Grp "h" (plus digit); chr 104]);
       opt (cat [Grp "m" (plus digit); chr 109]);
       opt (cat [Grp "s" (plus digit); chr 115])].

(** ** Durations and instants *)

(** [dt.timedelta(hours=h, minutes=m, seconds=s)], in microseconds *)
Definition timedelta (hours minutes seconds : Z) : Z :=
  (hours * 3600 + minutes * 60 + seconds) * 1000000.

(** [int(d)] for a string of digits *)
Definition int_of (d : pystr) : Z :=
  fold_left (fun acc c => acc * 10 + digit_value c) d 0.

(** [int(m.group(g) or 0)] *)
Definition group_int (g : string) (m : mstate) : Z :=
  match group g m with
  | Some (c :: d) => int_of (c :: d)
  | _ => 0
  end.

(** [m.group(g)] for a group that takes part in every match *)
Definition group_str (g : string) (m : mstate) : pystr :=
  default [] (group g m).

Definition _parse_hms_duration (s : pystr) : option Z :=
  let raw := lower (strip s) in
  match raw with
  | [] => None
  | _ :: _ =>
    match fullmatch HMS_RE raw with
    | None => None
    | Some m =>
      let h := group_int "h" m in
      let mm := group_int "m" m in
      let ss := group_int "s" m in
      if (h =? 0) && (mm =? 0) && (ss =? 0) then None
      else Some (timedelta h mm ss)
    end
  end.

Definition _reset_after_from_text (text : pystr) : option (Z * pystr) :=
  let m :=
    match search RESET_AFTER_RE text with
    | Some m => Some m
    | None => search QUOTA_RESET_RE text
    end in
  match m with
  | None => None
  | Some m =>
    let raw := strip (group_str "after" m) in
    match _parse_hms_duration raw with
    | None => None
    | Some td => if td =? 0 then None else Some (td, raw)
    end
  end.

(** [ts + d if ts else None] *)
Definition after (ts : option Z) (d : Z) : option Z :=
  match ts with
  | Some t => Some (t + d)
  | None => None
  end.

Definition TIMEDELTA_MAX : Z := 86399999999999999999.
Definition INT_MAX_STR_DIGITS : nat := 4300.


(** ** Model catalog and status matrix *)

Record ModelRef := {
  model_id : pystr;
  provider : pystr;
  model : pystr
}.

Record Row := {
  Provider : pystr;
  Model : pystr;
  Status : pystr;
  Diagnosis : pystr
}.

(** A log line: its text and the instant [_parse_ts_utc] returns for it. *)
Record Line := {
  text : pystr;
  ts_utc : option Z
}.

(** The keyword arguments of one [apply_incident] call. *)
Record Incident := {
  kind : pystr;
  base_status : pystr;
  diagnosis : pystr;
  sticky_until : option Z;
  event : option pystr
}.

(** The mutable state of one pass of [parse_llm_status]. *)
Record pass := {
  matrix : gmap pystr Row;
  events : list pystr;
  last_seen : gmap pystr (Z * pystr)
}.

Definition HEALTHY : pystr := py "🟢 健康".
Definition GENERIC : pystr := py "状态稳定，就绪中。".
Definition GENERIC_PREFIX : pystr := py "状态稳定".

Definition slash : N := 47%N.

(** The provider and model of a row added for [mid]:
    [mid.split("/", 1)] when [mid] has a slash, else [("unknown", mid)]. *)
Definition provider_model_of (mid : pystr) : pystr * pystr :=
  if contains [slash] mid then split_once slash mid
  else (py "unknown", mid).

Definition new_row (mid status diag : pystr) : Row :=
  let '(p, mm) := provider_model_of mid in
  {| Provider := p; Model := mm; Status := status; Diagnosis := diag |}.

(** [events.append(e)] under [if event:] *)
Definition add_event (event : option pystr) (evs : list pystr) : list pystr :=
  match event with
  | Some (c :: e) => evs ++ [c :: e]
  | _ => evs
  end.

Definition nonempty (s : pystr) : bool :=
  match s with [] => false | _ :: _ => true end.

(** Truth value of an optional string. *)
Definition truthy (o : option pystr) : bool :=
  match o with Some s => nonempty s | None => false end.

Definition is_green (status : pystr) : bool :=
  bool_decide (glyph status = GREEN).

Definition minutes (n : Z) : Z := timedelta 0 n 0.
Definition hours (n : Z) : Z := timedelta n 0 0.

Section ParseLlmStatus.

(** The parameters of [parse_llm_status]; [fmt_local] stands for [tz]. *)
Variable models : list ModelRef.
Variable fmt_local : Z -> pystr.
Variable now_utc : Z.
Variable cooldown_sticky_minutes : Z.
Variable rate_limit_sticky_minutes : Z.

(** The closure [apply]. *)
Definition apply (mid status diag : pystr) (ev : option pystr) (st : pass)
  : pass :=
  let row := default (new_row mid HEALTHY GENERIC) (matrix st !! mid) in
  let status' := _worse_status (Status row) status in
  let diag' :=
    if nonempty diag
       && (startswith GENERIC_PREFIX (Diagnosis row) || negb (is_green status'))
    then diag else Diagnosis row in
  {| matrix :=
       <[mid := {| Provider := Provider row; Model := Model row;
                   Status := status'; Diagnosis := diag' |}]> (matrix st);
     events := add_event ev (events st);
     last_seen := last_seen st |}.

(** The closure [record_last], for a line with timestamp [ts]. *)
Definition record_last (ts : option Z) (mid knd : pystr) (st : pass) : pass :=
  match ts with
  | None => st
  | Some t =>
    let newer :=
      match last_seen st !! mid with
      | Some (t0, _) => t0 <? t
      | None => true
      end in
    if newer
    then {| matrix := matrix st; events := events st;
            last_seen := <[mid := (t, knd)]> (last_seen st) |}
    else st
  end.

(** [ts and sticky_until and now_utc < sticky_until] *)
Definition is_active (ts su : option Z) : bool :=
  match ts, su with
  | Some _, Some u => now_utc <? u
  | _, _ => false
  end.

Definition breadcrumb (ts_local knd : pystr) : pystr :=
  py "最近一次异常: [" ++ ts_local ++ py "] " ++ knd
  ++ py "（窗口外/可能已恢复，需验证）".

(** The branch of [apply_incident] for an incident that is not active. *)
Definition apply_stale (ts_local mid : pystr) (inc : Incident) (st : pass)
  : pass :=
  let st1 :=
    match matrix st !! mid with
    | None => apply mid HEALTHY GENERIC None st
    | Some _ => st
    end in
  let mx :=
    match matrix st1 !! mid with
    | Some row =>
      if is_green (Status row)
      then <[mid := {| Provider := Provider row; Model := Model row;
                       Status := Status row;
                       Diagnosis := breadcrumb ts_local (kind inc) |}]>
             (matrix st1)
      else matrix st1
    | None => matrix st1
    end in
  {| matrix := mx; events := add_event (event inc) (events st1);
     last_seen := last_seen st1 |}.

(** The closure [apply_incident], for a line with timestamp [ts] and local
    time label [ts_local]. *)
Definition apply_incident (ts : option Z) (ts_local mid : pystr)
    (inc : Incident) (st : pass) : pass :=
  let st' :=
    if is_active ts (sticky_until inc)
    then apply mid (base_status inc) (diagnosis inc) (event inc) st
    else apply_stale ts_local mid inc st in
  record_last ts mid (kind inc) st'.

(** Truth value of an optional [timedelta]: a zero duration is false. *)
Definition td_truthy (o : option Z) : bool :=
  match o with Some d => negb (d =? 0) | None => false end.

Definition found (o : option mstate) : bool :=
  match o with Some _ => true | None => false end.

Definition bracket (ts_local : pystr) : pystr := py "[" ++ ts_local ++ py "] ".

(** [recovery]: the reset hint shown in diagnosis and event. *)
Definition recovery_of (reset_info : option (Z * pystr)) : pystr :=
  match reset_info with
  | Some (td, raw) =>
    if td_truthy (Some td) && nonempty raw
    then py "预计 " ++ raw ++ py " 后重置" else []
  | None => []
  end.

(** The rate-limit branch: the incident built for a message [msg] about
    model [mid]. *)
Definition rate_limit_incident (ts : option Z) (ts_local mid msg : pystr)
  : Incident :=
  let reset_info := _reset_after_from_text msg in
  let reset_td := fst <$> reset_info in
  let recovery := recovery_of reset_info in
  let '(su, status, diag) :=
    match reset_td with
    | Some td =>
      if td_truthy reset_td && (td <=? hours 1)
      then (after ts td, py "🟡 429 限流",
            strip (py "429 限流（短期/RPM 可能）。" ++ recovery))
      else if td_truthy reset_td
      then (after ts td, py "🔴 429 配额/容量限制",
            strip (py "429 配额/容量限制（需等待重置）。" ++ recovery))
      else (after ts (minutes rate_limit_sticky_minutes), py "🟡 429 限流",
            py "429 限流（可能是 RPM/并发）。")
    | None =>
      (after ts (minutes rate_limit_sticky_minutes), py "🟡 429 限流",
       py "429 限流（可能是 RPM/并发）。")
    end in
  {| kind := py "429/rate_limit"; base_status := status; diagnosis := diag;
     sticky_until := su;
     event := Some (strip (bracket ts_local ++ mid ++ py ": 429/rate_limit "
                           ++ recovery)) |}.

Definition is_cooldown (msg : pystr) : bool :=
  contains (py "cooldown") (lower msg) || found (search COOLDOWN_PROVIDER_RE msg).

Definition is_rate_limit (msg : pystr) : bool :=
  contains (py "429") (lower msg) || contains (py "rate_limit") (lower msg)
  || found (search CAPACITY_EXHAUSTED_RE msg).

Definition is_timeout (msg : pystr) : bool :=
  contains (py "timeout") (lower msg) || contains (py "etimedout") (lower msg).

Definition is_context_limit (msg : pystr) : bool :=
  found (search CONTEXT_LIMIT_RE msg).

(** The [if]/[elif] chain that classifies a message about model [mid].  The
    source has it twice, for a segment of an aggregate failure and for a
    line; the copies differ in the cooldown diagnosis only. *)
Definition classify (cooldown_diag : pystr) (ts : option Z)
    (ts_local mid msg : pystr) : option Incident :=
  if is_cooldown msg then
    Some {| kind := py "cooldown"; base_status := py "🟡 瞬时限流";
            diagnosis := cooldown_diag;
            sticky_until := after ts (minutes cooldown_sticky_minutes);
            event := Some (bracket ts_local ++ mid ++ py ": cooldown") |}
  else if is_rate_limit msg then
    Some (rate_limit_incident ts ts_local mid msg)
  else if is_timeout msg then
    Some {| kind := py "timeout"; base_status := py "🟡 连接超时";
            diagnosis := py "timeout / ETIMEDOUT（窗口内曾出现）。";
            sticky_until := after ts (minutes 30);
            event := Some (bracket ts_local ++ mid ++ py ": timeout") |}
  else if is_context_limit msg then
    Some {| kind := py "token/context limit";
            base_status := py "🟡 Token/上下文上限";
            diagnosis := py "Token/上下文上限触发（窗口内曾出现）。";
            sticky_until := after ts (hours 6);
            event := Some (bracket ts_local ++ mid
                           ++ py ": token/context limit") |}
  else None.

Definition SEGMENT_COOLDOWN : pystr :=
  py "Provider cooldown / 瞬时限流（窗口内曾出现）。".
Definition LINE_COOLDOWN : pystr := py "Cooldown / 瞬时限流（窗口内曾出现）。".

Definition colon : N := 58%N.
Definition bar : N := 124%N.

(** One segment of the body of an "all models failed" line. *)
Definition process_segment (ts : option Z) (ts_local : pystr) (st : pass)
    (raw_seg : pystr) : pass :=
  let seg := strip raw_seg in
  if negb (contains [colon] seg) then st else
  let '(mid0, msg0) := split_once colon seg in
  let mid := strip mid0 in
  let msg := strip msg0 in
  if negb (contains [slash] mid) && negb (bool_decide (is_Some (matrix st !! mid)))
  then st else
  match classify SEGMENT_COOLDOWN ts ts_local mid msg with
  | Some inc => apply_incident ts ts_local mid inc st
  | None => st
  end.

Definition _normalize_model_id (p m : pystr) : pystr := p ++ [slash] ++ m.

Definition _extract_provider_model (line : pystr)
  : option pystr * option pystr * option pystr :=
  match search PROVIDER_MODEL_RE line with
  | Some m =>
    let p := group_str "provider" m in
    let mo := group_str "model" m in
    (Some p, Some mo, Some (_normalize_model_id p mo))
  | None =>
    match search MODEL_QUOTED_RE line with
    | Some mq =>
      let mid := group_str "model" mq in
      if contains [slash] mid
      then let '(p, mm) := split_once slash mid in (Some p, Some mm, Some mid)
      else (None, Some mid, Some mid)
    | None => (None, None, None)
    end
  end.

Definition _find_model_refs_in_line (line : pystr) (ms : list ModelRef)
  : list ModelRef :=
  filter (fun m => contains (model_id m) line = true) ms.

(** [{(m.provider, m.model): m for m in models}]: a later entry replaces an
    earlier one with the same key. *)
Definition by_provider_model : gmap (pystr * pystr) ModelRef :=
  fold_left (fun d m => <[(provider m, model m) := m]> d) models ∅.

(** [ma and ma.group("agent").strip().lower() != "main"] *)
Definition other_agent (r : regex) (line : pystr) : bool :=
  match search r line with
  | Some m => negb (bool_decide (lower (strip (group_str "agent" m)) = py "main"))
  | None => false
  end.

Definition push (e : pystr) (st : pass) : pass :=
  {| matrix := matrix st; events := events st ++ [e];
     last_seen := last_seen st |}.

(** [UNKNOWN_MODEL_RE.search(line) or MODEL_NOT_ALLOWED_RE.search(line)] *)
Definition unknown_model (line : pystr) : option mstate :=
  match search UNKNOWN_MODEL_RE line with
  | Some m => Some m
  | None => search MODEL_NOT_ALLOWED_RE line
  end.

(** The rows of the models a line is attributed to: a model that is not
    in the matrix yet gets a healthy row, then the line is classified. *)
Definition process_model (ts : option Z) (ts_local line : pystr) (st : pass)
    (mid : pystr) : pass :=
  let st1 :=
    match matrix st !! mid with
    | Some _ => st
    | None =>
      {| matrix := <[mid := new_row mid HEALTHY GENERIC]> (matrix st);
         events := events st; last_seen := last_seen st |}
    end in
  match classify LINE_COOLDOWN ts ts_local mid line with
  | Some inc => apply_incident ts ts_local mid inc st1
  | None => st1
  end.

(** A line without a model: a breadcrumb in the timeline at most. *)
Definition process_unattributed (ts_local line : pystr) (st : pass) : pass :=
  if is_rate_limit line then
    push (strip (bracket ts_local ++ py "rate_limit(unknown model) "
                 ++ recovery_of (_reset_after_from_text line))) st
  else if is_context_limit line then
    push (bracket ts_local ++ py "token/context limit (unknown model)") st
  else st.

(** "Unknown model: X" and 'Model "X" is not allowed'. *)
Definition process_unknown_model (ts_local mid : pystr) (st : pass) : pass :=
  let st1 := push (bracket ts_local ++ py "model=" ++ mid
                   ++ py ": Unknown/Not allowed") st in
  match matrix st1 !! mid with
  | None =>
    {| matrix := <[mid := new_row mid (py "🔴 模型无效")
                            (py "Unknown model / not allowed")]> (matrix st1);
       events := events st1; last_seen := last_seen st1 |}
  | Some _ =>
    apply mid (py "🔴 模型无效") (py "Unknown model / not allowed") None st1
  end.

(** "No API key found for provider": every configured model of the
    provider is marked, through [apply] directly. *)
Definition process_no_api_key (ts_local p : pystr) (st : pass) : pass :=
  fold_left (fun s m =>
      if bool_decide (provider m = p)
      then apply (model_id m) (py "🔴 配置缺失")
             (py "未配置 API key（provider 认证失败）。") None s
      else s)
    models
    (push (bracket ts_local ++ py "provider=" ++ p ++ py ": No API key") st).

(** "Provider X is in cooldown" on a line without a model. *)
Definition process_provider_cooldown (ts : option Z) (ts_local p : pystr)
    (st : pass) : pass :=
  fold_left (fun s m =>
      if bool_decide (provider m = p)
      then apply_incident ts ts_local (model_id m)
             {| kind := py "provider cooldown";
                base_status := py "🟡 瞬时限流";
                diagnosis :=
                  py "Provider cooldown（该 provider 下所有 profile 不可用）。";
                sticky_until := after ts (minutes cooldown_sticky_minutes);
                event := None |} s
      else s)
    models
    (push (bracket ts_local ++ py "provider=" ++ p ++ py ": cooldown") st).

(** The model id a line names, resolved against the catalog when the line
    has provider and model fields: [model_id] after lines 404-409. *)
Definition line_model_id (line : pystr) : option pystr :=
  let '(prov, mdl, model_id0) := _extract_provider_model line in
  let resolved :=
    if truthy prov && truthy mdl
    then by_provider_model !! (default [] prov, default [] mdl)
    else None in
  match resolved with
  | Some r => Some (model_id r)
  | None => model_id0
  end.

Definition is_nil {A} (l : list A) : bool :=
  match l with [] => true | _ :: _ => false end.

(** The body of the loop of [parse_llm_status] for one line. *)
Definition process_line (st : pass) (l : Line) : pass :=
  let line := text l in
  if other_agent LANE_AGENT_RE line then st else
  if other_agent AGENT_DIR_RE line then st else
  let ts := ts_utc l in
  let ts_local :=
    match ts with Some t => fmt_local t | None => py "??:??" end in
  match search ALL_MODELS_FAILED_BODY_RE line with
  | Some m_failed =>
    fold_left (process_segment ts ts_local)
      (split_on bar (group_str "body" m_failed)) st
  | None =>
    let mid_opt := line_model_id line in
    let matched_models :=
      if truthy mid_opt then [] else _find_model_refs_in_line line models in
    match search NO_API_KEY_RE line with
    | Some nk => process_no_api_key ts_local (group_str "provider" nk) st
    | None =>
      match (if negb (truthy mid_opt) && is_nil matched_models
             then search COOLDOWN_PROVIDER_RE line else None) with
      | Some cp =>
        process_provider_cooldown ts ts_local (group_str "provider" cp) st
      | None =>
        match unknown_model line with
        | Some um => process_unknown_model ts_local (group_str "model" um) st
        | None =>
          let model_ids :=
            match mid_opt with
            | Some (c :: m) => [c :: m]
            | _ => map model_id matched_models
            end in
          if is_nil model_ids then process_unattributed ts_local line st
          else fold_left (process_model ts ts_local line) model_ids st
        end
      end
    end
  end.

(** The matrix before the first line: a healthy row per configured model. *)
Definition initial_matrix : gmap pystr Row :=
  fold_left (fun mx m =>
      <[model_id m := {| Provider := provider m; Model := model m;
                         Status := HEALTHY; Diagnosis := GENERIC |}]> mx)
    models ∅.

Definition initial : pass :=
  {| matrix := initial_matrix; events := []; last_seen := ∅ |}.

Definition run (lines : list Line) : pass := fold_left process_line lines initial.

End ParseLlmStatus.

(** The de-duplication loop at the end of [parse_llm_status]:
    [seen_ev] is a set, [uniq_events] a list. *)
Definition dedup_step (acc : gset pystr * list pystr) (e : pystr)
  : gset pystr * list pystr :=
  let '(seen_ev, uniq_events) := acc in
  if bool_decide (e ∈ seen_ev) then acc
  else ({[e]} ∪ seen_ev, uniq_events ++ [e]).

Definition uniq_events (evs : list pystr) : list pystr :=
  snd (fold_left dedup_step evs (∅, [])).

(** [l[-n:]] for [n > 0] *)
Definition last_n {A} (n : nat) (l : list A) : list A :=
  drop (length l - n) l.

(** The event timeline [parse_llm_status] returns. *)
Definition timeline (evs : list pystr) : list pystr :=
  last_n 30 (uniq_events evs).

(** [parse_llm_status]: the status matrix, whose rows the source returns
    sorted by provider and model, and the event timeline. *)
Definition parse_llm_status (lines : list Line) (models : list ModelRef)
    (fmt_local : Z -> pystr) (now_utc : Z)
    (cooldown_sticky_minutes rate_limit_sticky_minutes : Z)
  : gmap pystr Row * list pystr :=
  let st := run models fmt_local now_utc cooldown_sticky_minutes
              rate_limit_sticky_minutes lines in
  (matrix st, timeline (events st)).

(** The defaults of the two keyword parameters of [parse_llm_status]. *)
Definition cooldown_sticky_minutes_default : Z := 240.
Definition rate_limit_sticky_minutes_default : Z := 30.

(** ** Restart timeline *)

(** A record of the watchdog audit trail: its [type] field when that is a
    string, and the instant [fromisoformat] reads from its [timestamp]
    field (taken as UTC when it has no offset), [None] when it raises. *)
Record WatchdogEvent := {
  wd_type : option pystr;
  wd_timestamp : option Z
}.

Record RestartRecord := {
  timestamp : pystr;
  reason : pystr
}.

Definition SIGUSR1 : pystr := py "用户配置变更 (SIGUSR1)".
Definition SIGTERM : pystr := py "系统/服务重启 (SIGTERM)".
Definition CRASH : pystr := py "异常退出/崩溃".
Definition WATCHDOG : pystr := py "Watchdog 自愈触发".

Definition seconds (n : Z) : Z := timedelta 0 0 n.

(** [abs((a - b).total_seconds()) <= n] *)
Definition within (n a b : Z) : bool := Z.abs (a - b) <=? seconds n.

Definition wd_restart_time (e : WatchdogEvent) : option Z :=
  if bool_decide (wd_type e = Some (py "gateway_restart"))
  then wd_timestamp e else None.

(** The restart signal of a line, when it has one and a timestamp. *)
Definition candidate (l : Line) : option (Z * pystr) :=
  let low := lower (text l) in
  if contains (py "received sigusr1; restarting") low
  then (fun t => (t, SIGUSR1)) <$> ts_utc l
  else if contains (py "received sigterm; shutting down") low
  then (fun t => (t, SIGTERM)) <$> ts_utc l
  else if contains (py "uncaught exception") low
          || contains (py "max reconnect attempts") low
  then (fun t => (t, CRASH)) <$> ts_utc l
  else None.

(** [restarts.sort(key=lambda x: x[0], reverse=True)]: descending by time,
    candidates of equal time in their original order. *)
Fixpoint insert_desc (x : Z * pystr) (l : list (Z * pystr))
  : list (Z * pystr) :=
  match l with
  | [] => [x]
  | y :: l' => if fst y <=? fst x then x :: l else y :: insert_desc x l'
  end.

Definition sort_desc (l : list (Z * pystr)) : list (Z * pystr) :=
  foldr insert_desc [] l.

(** One turn of the merging loop. *)
Definition merge_step (merged : list (Z * pystr)) (c : Z * pystr)
  : list (Z * pystr) :=
  match last merged with
  | Some kept =>
    if within 90 (fst kept) (fst c)
    then if contains (py "异常") (snd c)
         then <[pred (length merged) := (fst kept, snd c)]> merged
         else merged
    else merged ++ [c]
  | None => merged ++ [c]
  end.

Definition merge (restarts : list (Z * pystr)) : list (Z * pystr) :=
  fold_left merge_step (sort_desc restarts) [].

(** The reason of a merged record after the watchdog pass. *)
Definition attribute (wd_restart_times : list Z) (c : Z * pystr) : pystr :=
  if existsb (fun wts => within 120 wts (fst c)) wd_restart_times
  then WATCHDOG else snd c.

Definition analyze_restarts (lines : list Line)
    (watchdog_events : list WatchdogEvent) (fmt_local : Z -> pystr)
  : list RestartRecord :=
  let wd_restart_times := omap wd_restart_time watchdog_events in
  let merged := merge (omap candidate lines) in
  map (fun c => {| timestamp := fmt_local (fst c);
                   reason := attribute wd_restart_times c |}) merged.

(** ** Configuration, log files and the audit trail *)

(** A value [json.loads] returns.  A float is kept as far as these
    functions can tell floats apart: by whether it is zero. *)
#[warnings="-register-all"]
Inductive json :=
| JNull
| JBool (b : bool)
| JInt (n : Z)
| JFloat (nonzero : bool)
| JStr (s : pystr)
| JList (l : list json)
| JDict (d : list (pystr * json)).

(** [d[k]] for a dict given by its items, whose keys are distinct. *)
Fixpoint dict_get (k : pystr) (d : list (pystr * json)) : option json :=
  match d with
  | [] => None
  | (k', v) :: d' => if bool_decide (k' = k) then Some v else dict_get k d'
  end.

(** [v.get(k, dflt)]; [None] stands for the AttributeError of a value
    that is no dict. *)
Definition py_get (v : json) (k : pystr) (dflt : json) : option json :=
  match v with
  | JDict d => Some (default dflt (dict_get k d))
  | _ => None
  end.

(** Truth value of a JSON value. *)
Definition json_truthy (v : json) : bool :=
  match v with
  | JNull => false
  | JBool b => b
  | JInt n => negb (n =? 0)
  | JFloat nonzero => nonzero
  | JStr s => nonempty s
  | JList l => negb (is_nil l)
  | JDict d => negb (is_nil d)
  end.

(** [v or dflt] *)
Definition json_or (v dflt : json) : json :=
  if json_truthy v then v else dflt.

(** The items a [for] loop over [v] sees: the elements of a list, the keys
    of a dict, the characters of a string; [None] stands for the TypeError
    of a value that cannot be iterated. *)
Definition iterate (v : json) : option (list json) :=
  match v with
  | JList l => Some l
  | JDict d => Some (map (fun kv => JStr (fst kv)) d)
  | JStr s => Some (map (fun c => JStr [c]) s)
  | _ => None
  end.

(** [x.strip()] when [isinstance(x, str) and x.strip()] *)
Definition model_name (v : json) : option pystr :=
  match v with
  | JStr s => if nonempty (strip s) then Some (strip s) else None
  | _ => None
  end.

(** [a.get("model")] of an agent entry that is a dict *)
Definition agent_model (a : json) : option json :=
  match a with
  | JDict d => Some (default JNull (dict_get (py "model") d))
  | _ => None
  end.

(** The [ModelRef] of a configured id: its provider is the text before the
    first slash, or "unknown". *)
Definition model_ref (mid : pystr) : ModelRef :=
  let '(p, m) := provider_model_of mid in
  {| model_id := mid; provider := p; model := m |}.

(** The names [get_configured_models] collects, in its order: the primary
    model, the fallbacks, the keys of the allowlist, the agent overrides. *)
Definition configured_names (primary fallbacks models_map : json)
    (agents_list : list json) : list pystr :=
  omap model_name [primary]
  ++ match fallbacks with JList l => omap model_name l | _ => [] end
  ++ match models_map with
     | JDict d => omap model_name (map (fun kv => JStr (fst kv)) d)
     | _ => []
     end
  ++ omap model_name (omap agent_model agents_list).

(** [get_configured_models]; [None] stands for an exception.  The names
    are de-duplicated by the loop that keeps first occurrences. *)
Definition get_configured_models (config : json) : option (list ModelRef) :=
  agents ← py_get config (py "agents") (JDict []);
  defaults ← py_get agents (py "defaults") (JDict []);
  model_raw ← py_get defaults (py "model") (JDict []);
  let model_conf := json_or model_raw (JDict []) in
  primary ← py_get model_conf (py "primary") JNull;
  fallbacks ← py_get model_conf (py "fallbacks") (JList []);
  models_map ← py_get defaults (py "models") (JDict []);
  agents_raw ← py_get agents (py "list") (JList []);
  agents_list ← iterate (json_or agents_raw (JList []));
  Some (map model_ref
          (uniq_events
             (configured_names primary fallbacks models_map agents_list))).

(** [s.rstrip("\n")] *)
Fixpoint lstrip_nl (s : pystr) : pystr :=
  match s with
  | c :: s' => if (c =? 10)%N then lstrip_nl s' else s
  | [] => []
  end.

Definition rstrip_nl (s : pystr) : pystr := reverse (lstrip_nl (reverse s)).

(** [get_recent_lines]: [file] is the lines of the file at [path], [None]
    when the path does not exist or reading it fails.  The instant of a
    line is not changed by taking trailing newlines off it, since no
    timestamp holds a newline. *)
Definition recent_line (since_utc : Z) (l : Line) : option Line :=
  match ts_utc l with
  | None => None
  | Some t =>
    if t >=? since_utc
    then Some {| text := rstrip_nl (text l); ts_utc := Some t |}
    else None
  end.

Definition get_recent_lines (file : option (list Line)) (since_utc : Z)
  : list Line :=
  match file with
  | None => []
  | Some lines => omap (recent_line since_utc) lines
  end.

(** A line of the watchdog audit file, as [_read_watchdog_events] sees it:
    text that [json.loads] refuses, a JSON value that is no object, or an
    object, with the instant [fromisoformat] reads from its stripped
    [timestamp] ([None] when that is missing, blank or not a timestamp;
    taken as UTC when it has no offset). *)
Inductive AuditLine :=
| NotJson
| NotObject
| AuditObject (e : WatchdogEvent) (read_ts : option Z).

(** The loop of [_read_watchdog_events]; [None] stands for the exception
    [d.get] raises on a value that is no object. *)
Fixpoint read_audit (since_utc : Z) (lines : list AuditLine)
    (out : list WatchdogEvent) : option (list WatchdogEvent) :=
  match lines with
  | [] => Some out
  | NotJson :: lines' => read_audit since_utc lines' out
  | NotObject :: _ => None
  | AuditObject e read_ts :: lines' =>
    match read_ts with
    | None => read_audit since_utc lines' out
    | Some ts =>
      if ts >=? since_utc
      then read_audit since_utc lines' (out ++ [e])
      else read_audit since_utc lines' out
    end
  end.

(** [_read_watchdog_events]: [file] is [None] when the audit file does not
    exist or cannot be read; an exception in the loop gives [[]]. *)
Definition _read_watchdog_events (file : option (list AuditLine))
    (since_utc : Z) : list WatchdogEvent :=
  match file with
  | None => []
  | Some lines => default [] (read_audit since_utc lines [])
  end.

(** ** A concrete timezone: UTC

    [_fmt_local(ts, timezone.utc)], the ["%H:%M"] of the instant. *)
Definition two_digits (n : Z) : pystr :=
  [Z.to_N (48 + n / 10); Z.to_N (48 + n mod 10)].

Definition fmt_utc (t : Z) : pystr :=
  let m := (t / 60000000) mod 1440 in
  two_digits (m / 60) ++ [colon] ++ two_digits (m mod 60).

(** ** Example data

    A catalog of three models, and log lines as the gateway writes them;
    [T0] is 2026-02-07T02:28:57Z. *)

Definition T0 : Z := 1770431337000000.

Definition catalog : list ModelRef :=
  [ {| model_id := py "acme/gpt-x"; provider := py "acme"; model := py "gpt-x" |};
    {| model_id := py "acme/gpt-y"; provider := py "acme"; model := py "gpt-y" |};
    {| model_id := py "other/m1"; provider := py "other"; model := py "m1" |} ].

Definition line_quota : Line :=
  {| text := py "2026-02-07T02:28:57Z [gateway] provider=acme model=gpt-x error 429 Too Many Requests, reset after 3h";
     ts_utc := Some T0 |}.

Definition line_rpm : Line :=
  {| text := py "2026-02-07T02:28:57Z [gateway] provider=acme model=gpt-x error 429 Too Many Requests, reset after 45m";
     ts_utc := Some T0 |}.

Definition line_cooldown : Line :=
  {| text := py "2026-02-07T02:28:57Z [gateway] provider=acme model=gpt-x is in cooldown";
     ts_utc := Some T0 |}.

Definition line_timeout : Line :=
  {| text := py "2026-02-07T02:29:57Z [gateway] provider=acme model=gpt-x request timeout";
     ts_utc := Some (T0 + seconds 60) |}.

Definition line_no_key : Line :=
  {| text := py "2026-02-07T02:28:57Z [gateway] No API key found for provider "
             ++ dq ++ py "acme" ++ dq;
     ts_utc := Some T0 |}.

(** A restart line as the file holds it, with its newline, the same line
    as [get_recent_lines] returns it, and a line without a timestamp. *)
Definition line_restart_nl : Line :=
  {| text := py "2026-02-07T02:28:57Z [gateway] received SIGUSR1; restarting"
             ++ [10%N];
     ts_utc := Some T0 |}.

Definition line_restart : Line :=
  {| text := py "2026-02-07T02:28:57Z [gateway] received SIGUSR1; restarting";
     ts_utc := Some T0 |}.

Definition line_undated : Line :=
  {| text := py "    at process.processTicksAndRejections" ++ [10%N];
     ts_utc := None |}.

(** A configuration that lists the catalog above: a primary model, two
    fallbacks of which one repeats the primary with blanks around it, an
    allowlist and two agent entries. *)
Definition config_example : json :=
  JDict [(py "agents", JDict [
    (py "defaults", JDict [
      (py "model", JDict [
        (py "primary", JStr (py "acme/gpt-x"));
        (py "fallbacks", JList [JStr (py "acme/gpt-y");
                                 JStr (py " acme/gpt-x ")])]);
      (py "models", JDict [(py "other/m1", JDict [])])]);
    (py "list", JList [JDict [(py "id", JStr (py "main"));
                              (py "model", JStr (py "acme/gpt-y"))];
                       JStr (py "stray")])])].

(** The same defaults with the model given as a plain string. *)
Definition config_model_string : json :=
  JDict [(py "agents", JDict [
    (py "defaults", JDict [(py "model", JStr (py "acme/gpt-x"))])])].

(** A line that names a model the gateway does not know, and a line that
    reports a provider in cooldown without naming a model. *)
Definition line_unknown : Line :=
  {| text := py "2026-02-07T02:28:57Z [gateway] Unknown model: acme/gpt-z";
     ts_utc := Some T0 |}.

Definition line_not_allowed : Line :=
  {| text := py "2026-02-07T02:28:57Z [gateway] Model " ++ dq
             ++ py "acme/gpt-z" ++ dq
             ++ py " is not allowed. Provider acme is in cooldown";
     ts_utc := Some T0 |}.



Definition line_failed_no_key : Line :=
  {| text := py "2026-02-07T02:28:57Z [gateway] Embedded agent failed before reply: All models failed (1): acme/gpt-x: No API key found for provider "
             ++ dq ++ py "acme" ++ dq;
     ts_utc := Some T0 |}.

(** One pass over [lines] with the catalog above, in UTC, with the default
    sticky windows of 240 and 30 minutes. *)
Definition example_run (now : Z) (lines : list Line) : pass :=
  run catalog fmt_utc now cooldown_sticky_minutes_default
    rate_limit_sticky_minutes_default lines.

Definition gpt_x : pystr := py "acme/gpt-x".

(** ** Specification-side notions *)

(** Every row of [m1] is a row of [m2] of at least its severity. *)
Definition matrix_le (m1 m2 : gmap pystr Row) : Prop :=
  forall mid row, m1 !! mid = Some row ->
    exists row', m2 !! mid = Some row' /\ rank (Status row) <= rank (Status row').

(** The candidates each merged record stands for.  [group_from kept members l]
    reads the sorted candidates [l] with [kept] the candidate kept last and
    [members] the candidates dropped into it so far: a candidate within 90
    seconds of [kept] joins the group, another one closes it and is kept. *)
Fixpoint group_from (kept : Z * pystr) (members l : list (Z * pystr))
  : list (list (Z * pystr)) :=
  match l with
  | [] => [kept :: members]
  | c :: l' =>
    if within 90 (fst kept) (fst c)
    then group_from kept (members ++ [c]) l'
    else (kept :: members) :: group_from c [] l'
  end.

Definition groups (sorted : list (Z * pystr)) : list (list (Z * pystr)) :=
  match sorted with
  | [] => []
  | c :: l => group_from c [] l
  end.

(** The reason a group ends with: that of the kept candidate, unless a
    dropped candidate brought a crash reason, the last of which stays. *)
Definition group_reason (r : pystr) (members : list (Z * pystr)) : pystr :=
  fold_left (fun r c => if contains (py "异常") (snd c) then snd c else r)
    members r.

Definition record_of_group (g : list (Z * pystr)) : Z * pystr :=
  match g with
  | kept :: members => (fst kept, group_reason (snd kept) members)
  | [] => (0, [])
  end.

(** Newest first. *)
Definition newer_first (a b : Z * pystr) : Prop := fst b <= fst a.

(** A group: the kept candidate, then candidates at most 90 seconds older. *)
Definition good_group (g : list (Z * pystr)) : Prop :=
  match g with
  | kept :: members =>
    Forall (fun c => 0 <= fst kept - fst c <= seconds 90) members
  | [] => False
  end.

Definition restart_lines : list Line :=
  [ {| text := py "2026-02-07T02:26:57Z [gateway] received SIGUSR1; restarting";
       ts_utc := Some (T0 - seconds 120) |};
    {| text := py "2026-02-07T02:27:57Z [gateway] received SIGTERM; shutting down";
       ts_utc := Some (T0 - seconds 60) |};
    {| text := py "2026-02-07T02:28:57Z [gateway] received SIGUSR1; restarting";
       ts_utc := Some T0 |} ].

(** The duration grammar [(\d+h)?(\d+m)?(\d+s)?] with case-insensitive
    unit letters, in the spec's words: the text, lower-cased, is an optional
    number followed by [h], an optional number followed by [m] and an
    optional number followed by [s], in this order, with at least one of
    the three present. *)
Definition unit_text (d : option pystr) (u : N) : pystr :=
  match d with
  | Some ds => ds ++ [u]
  | None => []
  end.

Definition number (d : option pystr) : Prop :=
  match d with
  | Some ds => ds <> [] /\ forallb isdigit ds = true
  | None => True
  end.

Definition hms_grammar (h m sec : option pystr) (s : pystr) : Prop :=
  lower s = unit_text h 104 ++ unit_text m 109 ++ unit_text sec 115
  /\ number h /\ number m /\ number sec
  /\ (is_Some h \/ is_Some m \/ is_Some sec).

Definition amount (d : option pystr) : Z :=
  match d with
  | Some ds => int_of ds
  | None => 0
  end.

(** The duration a text of the grammar denotes. *)
Definition hms_value (h m sec : option pystr) : Z :=
  timedelta (amount h) (amount m) (amount sec).

(** The longest prefix of digits of a text, and the text after it. *)
Fixpoint span_digits (s : pystr) : pystr * pystr :=
  match s with
  | c :: s' =>
    if isdigit c then let '(a, b) := span_digits s' in (c :: a, b)
    else ([], s)
  | [] => ([], [])
  end.

(** A number followed by the unit letter [u] at the start of a text. *)
Definition scan_unit (u : N) (s : pystr) : option (pystr * pystr) :=
  match span_digits s with
  | (d :: run, c :: t) => if (u =? c)%N then Some (d :: run, t) else None
  | _ => None
  end.

(** The matcher's position after an optional unit group. *)
Definition step_unit (g : string) (u : N) (s : mstate) : mstate :=
  match scan_unit u (rest s) with
  | Some (ds, t) => MState (Some u) t ((g, ds) :: caps s)
  | None => s
  end.

(** The groups a match of [HMS_RE] holds for the numbers [h], [m], [sec]. *)
Definition opt_cons (g : string) (d : option pystr)
    (cs : list (string * pystr)) : list (string * pystr) :=
  match d with
  | Some ds => (g, ds) :: cs
  | None => cs
  end.

Definition caps_of (h m sec : option pystr) : list (string * pystr) :=
  opt_cons "s" sec (opt_cons "m" m (opt_cons "h" h [])).

(** A row that carries the missing-credential mark. *)
Definition no_key_row (row : Row) : Prop :=
  rank (Status row) = 3
  /\ Diagnosis row = py "未配置 API key（provider 认证失败）。".

Definition no_key_marked (s : pass) (mid : pystr) : Prop :=
  exists row, matrix s !! mid = Some row /\ no_key_row row.

(** A crash, a shutdown half a minute later, and the watchdog trail of
    that restart. *)
Definition crash_lines : list Line :=
  [ {| text := py "2026-02-07T02:28:57Z [gateway] Uncaught exception: boom";
       ts_utc := Some T0 |};
    {| text := py "2026-02-07T02:29:27Z [gateway] received SIGTERM; shutting down";
       ts_utc := Some (T0 + seconds 30) |} ].

Definition watchdog_trail : list WatchdogEvent :=
  [ {| wd_type := Some (py "health_check"); wd_timestamp := Some T0 |};
    {| wd_type := Some (py "gateway_restart");
       wd_timestamp := Some (T0 + seconds 100) |} ].

(** A line of the audit file that [_read_watchdog_events] keeps. *)
Definition recent_event (since_utc : Z) (l : AuditLine)
  : option WatchdogEvent :=
  match l with
  | AuditObject e (Some ts) => if ts >=? since_utc then Some e else None
  | _ => None
  end.

(** A line stamped at or after an instant. *)
Definition at_or_after (since_utc : Z) (l : Line) : bool :=
  match ts_utc l with Some t => since_utc <=? t | None => false end.

(** Two records more than 90 seconds apart, the newer one first. *)
Definition spaced (a b : Z * pystr) : Prop := seconds 90 < fst a - fst b.

(** Records made of the candidates read so far: every record has the
    instant of a candidate and the reason of a candidate, there are no
    more records than candidates, and at least one record once there is a
    candidate. *)
Definition from_candidates (seen merged : list (Z * pystr)) : Prop :=
  Forall (fun r => fst r ∈ fst <$> seen /\ snd r ∈ snd <$> seen) merged
  /\ (length merged <= length seen)%nat
  /\ (seen <> [] -> merged <> []).

(** A status and a diagnosis of a degraded model: yellow or red, with a
    text that is not the generic one. *)
Definition specific (status diag : pystr) : Prop :=
  2 <= rank status /\ nonempty diag = true
  /\ startswith GENERIC_PREFIX diag = false.

(** The elementary updates of a pass: a mark through [apply], a first row
    for a model (healthy, or degraded at once), a breadcrumb on a green
    row, an event, and a note of the last incident of a model. *)
Inductive update : pass -> pass -> Prop :=
| update_mark mid status diag st :
    specific status diag ->
    update st (apply mid status diag None st)
| update_seed mid st :
    matrix st !! mid = None ->
    update st {| matrix := <[mid := new_row mid HEALTHY GENERIC]> (matrix st);
                 events := events st; last_seen := last_seen st |}
| update_first mid status diag st :
    matrix st !! mid = None -> specific status diag ->
    update st {| matrix := <[mid := new_row mid status diag]> (matrix st);
                 events := events st; last_seen := last_seen st |}
| update_breadcrumb mid row ts_local knd st :
    matrix st !! mid = Some row -> is_green (Status row) = true ->
    update st {| matrix :=
                   <[mid := {| Provider := Provider row; Model := Model row;
                               Status := Status row;
                               Diagnosis := breadcrumb ts_local knd |}]>
                     (matrix st);
                 events := events st; last_seen := last_seen st |}
| update_event e st : update st (push e st)
| update_last mid t knd st :
    update st {| matrix := matrix st; events := events st;
                 last_seen := <[mid := (t, knd)]> (last_seen st) |}.

(** What a pass keeps of an earlier state: every row, with its provider and
    model columns, and the events so far, as the beginning of its events. *)
Definition extends (st st' : pass) : Prop :=
  (forall mid row, matrix st !! mid = Some row ->
     exists row', matrix st' !! mid = Some row'
                  /\ Provider row' = Provider row /\ Model row' = Model row)
  /\ events st `prefix_of` events st'.

(** A well-formed row: its status starts with one of the three glyphs, its
    provider and model columns are those its id splits into, and it shows
    the generic diagnosis only while it is green. *)
Definition row_ok (mid : pystr) (row : Row) : Prop :=
  1 <= rank (Status row) <= 3
  /\ (Provider row, Model row) = provider_model_of mid
  /\ (startswith GENERIC_PREFIX (Diagnosis row) = true ->
      is_green (Status row) = true).

Definition matrix_ok (mx : gmap pystr Row) : Prop :=
  forall mid row, mx !! mid = Some row -> row_ok mid row.

(** A text whose first character is no blank and differs from the first
    character of the generic diagnosis. *)
Definition distinct_head (lit : pystr) : bool :=
  match lit with
  | c :: _ => negb (isspace c) && negb (c =? 29366)%N
  | [] => false
  end.


(** * Properties *)

(** ** Severity combination *)

Lemma order_range e : 0 <= order e <= 3.
Proof. unfold order. repeat case_decide; lia. Qed.

Lemma rank_range a : 0 <= rank a <= 3.
Proof. apply order_range. Qed.

Lemma worse_cases a b :
  (rank b <= rank a /\ _worse_status a b = a)
  \/ (rank a < rank b /\ _worse_status a b = b).
Proof.
  unfold _worse_status, rank.
  destruct (order (glyph a) >=? order (glyph b)) eqn:E.
  - left. split; [apply Z.geb_le in E; lia | reflexivity].
  - right. split; [|reflexivity].
    destruct (Z.geb_spec (order (glyph a)) (order (glyph b))); [discriminate | lia].
Qed.

Lemma rank_worse a b : rank (_worse_status a b) = Z.max (rank a) (rank b).
Proof. destruct (worse_cases a b) as [[H ->] | [H ->]]; lia. Qed.

Lemma worse_idem a : _worse_status a a = a.
Proof. destruct (worse_cases a a) as [[_ H] | [_ H]]; exact H. Qed.

Lemma worse_assoc a b c :
  _worse_status (_worse_status a b) c = _worse_status a (_worse_status b c).
Proof.
  destruct (worse_cases a b) as [[Hab Eab] | [Hab Eab]];
    destruct (worse_cases b c) as [[Hbc Ebc] | [Hbc Ebc]];
    rewrite Eab, Ebc;
    destruct (worse_cases a b) as [[Hab' Eab'] | [Hab' Eab']];
    destruct (worse_cases b c) as [[Hbc' Ebc'] | [Hbc' Ebc']];
    destruct (worse_cases a c) as [[Hac Eac] | [Hac Eac]];
    try lia; congruence.
Qed.

Lemma worse_tie a b :
  _worse_status a b = if rank a =? rank b then a else _worse_status b a.
Proof.
  destruct (Z.eqb_spec (rank a) (rank b)) as [E | E].
  - destruct (worse_cases a b) as [[_ H] | [H _]]; [exact H | lia].
  - destruct (worse_cases a b) as [[H1 ->] | [H1 ->]];
      destruct (worse_cases b a) as [[H2 ->] | [H2 ->]]; try reflexivity; lia.
Qed.

Lemma is_green_rank s : is_green s = true <-> rank s = 1.
Proof.
  unfold is_green, rank, order. rewrite bool_decide_eq_true.
  split.
  - intros ->. reflexivity.
  - repeat case_decide; try lia. auto.
Qed.

Lemma is_green_false_rank s : is_green s = false <-> rank s <> 1.
Proof.
  rewrite <- is_green_rank. destruct (is_green s); split; congruence.
Qed.

(** C6, as stated, fails: two yellow statuses of the module are combined to
    whichever comes first, so the function is not commutative on status
    strings. *)
Lemma C6_not_commutative :
  _worse_status (py "🟡 瞬时限流") (py "🟡 连接超时") = py "🟡 瞬时限流"
  /\ _worse_status (py "🟡 连接超时") (py "🟡 瞬时限流") = py "🟡 连接超时"
  /\ _worse_status (py "🟡 瞬时限流") (py "🟡 连接超时")
     <> _worse_status (py "🟡 连接超时") (py "🟡 瞬时限流").
Proof. repeat split; vm_compute; congruence. Qed.

(** C6 (amended): [_worse_status] is idempotent and associative on all
    status strings; it is commutative in the severity of its result, and
    commutative as a function on strings exactly apart from ties: two
    statuses of equal severity combine to the first of them. *)
Theorem C6_worse_status_algebra (a b c : pystr) :
  _worse_status a a = a
  /\ _worse_status (_worse_status a b) c = _worse_status a (_worse_status b c)
  /\ rank (_worse_status a b) = rank (_worse_status b a)
  /\ rank (_worse_status a b) = Z.max (rank a) (rank b)
  /\ _worse_status a b = (if rank a =? rank b then a else _worse_status b a).
Proof.
  split; [apply worse_idem|].
  split; [apply worse_assoc|].
  split; [rewrite !rank_worse; lia|].
  split; [apply rank_worse | apply worse_tie].
Qed.

(** ** The closure [apply] *)

Lemma apply_lookup mid status diag ev st :
  matrix (apply mid status diag ev st) !! mid =
  Some (let row := default (new_row mid HEALTHY GENERIC) (matrix st !! mid) in
        let status' := _worse_status (Status row) status in
        {| Provider := Provider row; Model := Model row; Status := status';
           Diagnosis :=
             if nonempty diag
                && (startswith GENERIC_PREFIX (Diagnosis row)
                    || negb (is_green status'))
             then diag else Diagnosis row |}).
Proof. unfold apply. cbn [matrix]. apply lookup_insert_eq. Qed.

Lemma apply_lookup_ne mid mid' status diag ev st :
  mid <> mid' ->
  matrix (apply mid status diag ev st) !! mid' = matrix st !! mid'.
Proof. intros H. unfold apply. cbn [matrix]. by apply lookup_insert_ne. Qed.

Lemma is_green_max a b :
  negb (is_green (_worse_status a b)) = negb (Z.max (rank a) (rank b) =? 1).
Proof.
  f_equal. rewrite <- rank_worse.
  destruct (is_green (_worse_status a b)) eqn:E.
  - apply is_green_rank in E. rewrite E. reflexivity.
  - apply is_green_false_rank in E. symmetry. by apply Z.eqb_neq.
Qed.

Lemma nonempty_true s : s <> [] -> nonempty s = true.
Proof. by destruct s. Qed.

(** C2, as stated, fails: a quota line makes the row red, and a later
    timeout of the same model, which is less severe, still replaces the
    row's diagnosis, although that diagnosis is not the generic one. *)
Lemma C2_less_severe_replaces_diagnosis :
  let now := T0 + seconds 120 in
  matrix (example_run now [line_quota]) !! gpt_x
    = Some {| Provider := py "acme"; Model := py "gpt-x";
              Status := py "🔴 429 配额/容量限制";
              Diagnosis := py "429 配额/容量限制（需等待重置）。预计 3h 后重置" |}
  /\ startswith GENERIC_PREFIX
       (py "429 配额/容量限制（需等待重置）。预计 3h 后重置") = false
  /\ classify 240 30 LINE_COOLDOWN (ts_utc line_timeout) (py "02:29") gpt_x
       (text line_timeout)
     = Some {| kind := py "timeout"; base_status := py "🟡 连接超时";
               diagnosis := py "timeout / ETIMEDOUT（窗口内曾出现）。";
               sticky_until := Some (T0 + seconds 60 + minutes 30);
               event := Some (py "[02:29] acme/gpt-x: timeout") |}
  /\ is_active now (ts_utc line_timeout) (Some (T0 + seconds 60 + minutes 30))
     = true
  /\ rank (py "🟡 连接超时") < rank (py "🔴 429 配额/容量限制")
  /\ matrix (example_run now [line_quota; line_timeout]) !! gpt_x
    = Some {| Provider := py "acme"; Model := py "gpt-x";
              Status := py "🔴 429 配额/容量限制";
              Diagnosis := py "timeout / ETIMEDOUT（窗口内曾出现）。" |}.
Proof. vm_compute. repeat split; reflexivity. Qed.

(** C2 (amended): when an incident is applied to a model's row, the row
    keeps the worse of the current and the incoming severity (on a tie the
    current status text stays), and the incoming diagnosis, when not empty,
    replaces the stored one exactly when the stored one still has the
    generic prefix or the resulting severity is not green.  An active
    incident is yellow or red, so its diagnosis replaces the stored one
    whatever the two severities are. *)
Theorem C2_apply_keeps_worse_severity
    (st : pass) (mid status diag : pystr) (ev : option pystr) (row : Row) :
  matrix st !! mid = Some row ->
  exists row',
    matrix (apply mid status diag ev st) !! mid = Some row'
    /\ Provider row' = Provider row /\ Model row' = Model row
    /\ Status row' = _worse_status (Status row) status
    /\ rank (Status row') = Z.max (rank (Status row)) (rank status)
    /\ Diagnosis row' =
         (if nonempty diag
             && (startswith GENERIC_PREFIX (Diagnosis row)
                 || negb (Z.max (rank (Status row)) (rank status) =? 1))
          then diag else Diagnosis row)
    /\ (2 <= rank status -> diag <> [] -> Diagnosis row' = diag).
Proof.
  intros Hrow. eexists. split; [apply apply_lookup|].
  rewrite Hrow. change (default (new_row mid HEALTHY GENERIC) (Some row)) with row.
  cbn [Provider Model Status Diagnosis]. rewrite is_green_max.
  repeat split; try reflexivity.
  - apply rank_worse.
  - intros Hs Hd. rewrite (nonempty_true _ Hd).
    replace (Z.max (rank (Status row)) (rank status) =? 1) with false.
    + cbn [negb andb]. by rewrite orb_true_r.
    + symmetry. apply Z.eqb_neq. pose proof (rank_range (Status row)). lia.
Qed.

Lemma C2_apply_witness :
  exists row',
    matrix (apply gpt_x (py "🟡 连接超时") (py "timeout / ETIMEDOUT（窗口内曾出现）。")
              None (example_run (T0 + seconds 120) [line_quota])) !! gpt_x
      = Some row'
    /\ Provider row' = py "acme" /\ Model row' = py "gpt-x"
    /\ Status row' = py "🔴 429 配额/容量限制"
    /\ Diagnosis row' = py "timeout / ETIMEDOUT（窗口内曾出现）。".
Proof.
  destruct (C2_apply_keeps_worse_severity
              (example_run (T0 + seconds 120) [line_quota]) gpt_x
              (py "🟡 连接超时") (py "timeout / ETIMEDOUT（窗口内曾出现）。") None
              {| Provider := py "acme"; Model := py "gpt-x";
                 Status := py "🔴 429 配额/容量限制";
                 Diagnosis := py "429 配额/容量限制（需等待重置）。预计 3h 后重置" |})
    as (row' & H1 & H2 & H3 & H4 & _ & _ & H7).
  - vm_compute. reflexivity.
  - exists row'.
    split; [exact H1|]. split; [exact H2|]. split; [exact H3|].
    split; [rewrite H4; vm_compute; reflexivity|].
    apply H7; [vm_compute; discriminate | discriminate].
Defined.

(** ** The closure [apply_incident] *)

Lemma record_last_matrix ts mid knd st :
  matrix (record_last ts mid knd st) = matrix st.
Proof.
  unfold record_last. destruct ts as [t|]; [|reflexivity].
  destruct (match last_seen st !! mid with
            | Some (t0, _) => t0 <? t
            | None => true
            end); reflexivity.
Qed.

Lemma new_row_status mid status diag : Status (new_row mid status diag) = status.
Proof. unfold new_row. by destruct (provider_model_of mid). Qed.

Lemma new_row_diagnosis mid status diag :
  Diagnosis (new_row mid status diag) = diag.
Proof. unfold new_row. by destruct (provider_model_of mid). Qed.

Lemma rank_healthy : rank HEALTHY = 1.
Proof. reflexivity. Qed.

Lemma is_green_eqb s : is_green s = (rank s =? 1).
Proof.
  destruct (is_green s) eqn:E; symmetry.
  - apply Z.eqb_eq. by apply is_green_rank.
  - apply Z.eqb_neq. by apply is_green_false_rank.
Qed.

Lemma row_eta (row : Row) :
  {| Provider := Provider row; Model := Model row; Status := Status row;
     Diagnosis := Diagnosis row |} = row.
Proof. by destruct row. Qed.

(** The row of [mid] after a stale incident. *)
Lemma apply_stale_lookup ts_local mid inc st :
  matrix (apply_stale ts_local mid inc st) !! mid =
  Some (let row := default (new_row mid HEALTHY GENERIC) (matrix st !! mid) in
        {| Provider := Provider row; Model := Model row; Status := Status row;
           Diagnosis := if rank (Status row) =? 1
                        then breadcrumb ts_local (kind inc)
                        else Diagnosis row |}).
Proof.
  unfold apply_stale. cbn [matrix].
  destruct (matrix st !! mid) as [row|] eqn:E.
  - rewrite E. change (default _ (Some row)) with row. cbv zeta.
    rewrite is_green_eqb.
    destruct (rank (Status row) =? 1).
    + apply lookup_insert_eq.
    + rewrite E. by rewrite row_eta.
  - rewrite apply_lookup, E. change (default _ None) with (new_row mid HEALTHY GENERIC).
    cbv zeta. cbn [Provider Model Status Diagnosis].
    rewrite new_row_status, new_row_diagnosis, worse_idem.
    rewrite is_green_eqb, rank_healthy. cbn [Z.eqb Pos.eqb].
    apply lookup_insert_eq.
Qed.

Lemma apply_stale_lookup_ne ts_local mid mid' inc st :
  mid <> mid' ->
  matrix (apply_stale ts_local mid inc st) !! mid' = matrix st !! mid'.
Proof.
  intros Hne. unfold apply_stale. cbn [matrix].
  set (st1 := match matrix st !! mid with
              | Some _ => st
              | None => apply mid HEALTHY GENERIC None st
              end).
  assert (Hst1 : matrix st1 !! mid' = matrix st !! mid').
  { subst st1. destruct (matrix st !! mid);
      [reflexivity | by apply apply_lookup_ne]. }
  destruct (matrix st1 !! mid) as [row|]; [|exact Hst1].
  destruct (is_green (Status row)); [|exact Hst1].
  rewrite lookup_insert_ne by done. exact Hst1.
Qed.

Lemma is_active_spec now ts su :
  is_active now ts su = true
  <-> exists t u, ts = Some t /\ su = Some u /\ now < u.
Proof.
  unfold is_active. destruct ts as [t|], su as [u|]; split.
  - intros H. exists t, u. repeat split. by apply Z.ltb_lt.
  - intros (t' & u' & _ & [= <-] & H). by apply Z.ltb_lt.
  - discriminate.
  - intros (? & ? & _ & [=] & _).
  - discriminate.
  - intros (? & ? & [=] & _).
  - discriminate.
  - intros (? & ? & [=] & _).
Qed.

(** C1, as stated, fails: two cooldown and timeout lines of ten hours ago
    are both stale.  After the first the row is green with a breadcrumb, so
    it no longer carries the generic diagnosis; the second still overwrites
    the diagnosis, with its own breadcrumb. *)
Lemma C1_breadcrumb_overwrites_breadcrumb :
  let now := T0 + hours 10 in
  matrix (example_run now [line_cooldown]) !! gpt_x
    = Some {| Provider := py "acme"; Model := py "gpt-x";
              Status := py "🟢 健康";
              Diagnosis := py "最近一次异常: [02:28] cooldown（窗口外/可能已恢复，需验证）" |}
  /\ startswith GENERIC_PREFIX
       (py "最近一次异常: [02:28] cooldown（窗口外/可能已恢复，需验证）") = false
  /\ is_active now (ts_utc line_timeout)
       (after (ts_utc line_timeout) (minutes 30)) = false
  /\ matrix (example_run now [line_cooldown; line_timeout]) !! gpt_x
    = Some {| Provider := py "acme"; Model := py "gpt-x";
              Status := py "🟢 健康";
              Diagnosis := py "最近一次异常: [02:29] timeout（窗口外/可能已恢复，需验证）" |}.
Proof. vm_compute. repeat split; reflexivity. Qed.

(** C1 (amended): an incident applied through [apply_incident] is active
    iff its line's timestamp parsed and the generation instant is strictly
    before its sticky-until instant.  When it is not active the row of its
    model (a healthy one is made when there is none) keeps its severity, and
    its diagnosis is overwritten with the breadcrumb naming the incident's
    local time and kind exactly when the row's severity is green, whether
    the row carries the generic diagnosis or an earlier breadcrumb; a row
    that is not green keeps its diagnosis, and no other row changes.  An
    active incident changes the matrix as [apply] does. *)
Theorem C1_sticky_activity_and_breadcrumb
    (now : Z) (ts : option Z) (ts_local mid : pystr) (inc : Incident)
    (st : pass) :
  (is_active now ts (sticky_until inc) = true
   <-> exists t u, ts = Some t /\ sticky_until inc = Some u /\ now < u)
  /\ (forall d, is_active now ts (after ts d) = true
                <-> exists t, ts = Some t /\ now < t + d)
  /\ (is_active now ts (sticky_until inc) = true ->
      matrix (apply_incident now ts ts_local mid inc st)
      = matrix (apply mid (base_status inc) (diagnosis inc) (event inc) st))
  /\ (is_active now ts (sticky_until inc) = false ->
      let row := default (new_row mid HEALTHY GENERIC) (matrix st !! mid) in
      matrix (apply_incident now ts ts_local mid inc st) !! mid
        = Some {| Provider := Provider row; Model := Model row;
                  Status := Status row;
                  Diagnosis := if rank (Status row) =? 1
                               then breadcrumb ts_local (kind inc)
                               else Diagnosis row |}
      /\ forall mid', mid <> mid' ->
           matrix (apply_incident now ts ts_local mid inc st) !! mid'
           = matrix st !! mid').
Proof.
  split; [apply is_active_spec|]. split; [|split].
  - intros d. rewrite is_active_spec. destruct ts as [t|]; cbn [after]; split.
    + intros (t' & u & [= <-] & [= <-] & H). eauto.
    + intros (t' & [= <-] & H). eauto.
    + intros (? & ? & [=] & _).
    + intros (? & [=] & _).
  - intros Hactive. unfold apply_incident. rewrite Hactive.
    apply record_last_matrix.
  - intros Hstale. cbv zeta. unfold apply_incident. rewrite Hstale.
    rewrite record_last_matrix. split.
    + apply apply_stale_lookup.
    + intros mid' Hne. by apply apply_stale_lookup_ne.
Qed.

Lemma C1_scenario_E_witness :
  let now := T0 + hours 10 in
  let inc := {| kind := py "cooldown"; base_status := py "🟡 瞬时限流";
                diagnosis := LINE_COOLDOWN;
                sticky_until := after (Some T0) (minutes 240);
                event := Some (py "[02:28] acme/gpt-x: cooldown") |} in
  is_active now (Some T0) (sticky_until inc) = false
  /\ matrix (apply_incident now (Some T0) (py "02:28") gpt_x inc
              (initial catalog)) !! gpt_x
     = Some {| Provider := py "acme"; Model := py "gpt-x";
               Status := py "🟢 健康";
               Diagnosis := py "最近一次异常: [02:28] cooldown（窗口外/可能已恢复，需验证）" |}.
Proof.
  cbv zeta. split; [reflexivity|].
  destruct (C1_sticky_activity_and_breadcrumb (T0 + hours 10) (Some T0)
              (py "02:28") gpt_x
              {| kind := py "cooldown"; base_status := py "🟡 瞬时限流";
                 diagnosis := LINE_COOLDOWN;
                 sticky_until := after (Some T0) (minutes 240);
                 event := Some (py "[02:28] acme/gpt-x: cooldown") |}
              (initial catalog)) as (_ & _ & _ & H).
  destruct (H eq_refl) as [H1 _]. rewrite H1. vm_compute. reflexivity.
Defined.

(** ** Severity never decreases during a pass *)

Lemma matrix_le_refl m : matrix_le m m.
Proof. intros mid row H. exists row. split; [exact H | lia]. Qed.

Lemma matrix_le_trans m1 m2 m3 :
  matrix_le m1 m2 -> matrix_le m2 m3 -> matrix_le m1 m3.
Proof.
  intros H12 H23 mid row H.
  destruct (H12 mid row H) as (row2 & H2 & L2).
  destruct (H23 mid row2 H2) as (row3 & H3 & L3).
  exists row3. split; [exact H3 | lia].
Qed.

Lemma matrix_le_insert (m : gmap pystr Row) mid row' :
  (forall row, m !! mid = Some row -> rank (Status row) <= rank (Status row')) ->
  matrix_le m (<[mid := row']> m).
Proof.
  intros H mid0 row0 H0. destruct (decide (mid = mid0)) as [<- | Hne].
  - exists row'. rewrite lookup_insert_eq. split; [reflexivity | by apply H].
  - exists row0. rewrite lookup_insert_ne by done. split; [exact H0 | lia].
Qed.

Lemma apply_le mid status diag ev st :
  matrix_le (matrix st) (matrix (apply mid status diag ev st)).
Proof.
  unfold apply. cbn [matrix]. apply matrix_le_insert.
  intros row Hrow. rewrite Hrow. change (default _ (Some row)) with row.
  cbn [Status]. rewrite rank_worse. lia.
Qed.

Lemma apply_stale_le ts_local mid inc st :
  matrix_le (matrix st) (matrix (apply_stale ts_local mid inc st)).
Proof.
  unfold apply_stale. cbn [matrix].
  set (st1 := match matrix st !! mid with
              | Some _ => st
              | None => apply mid HEALTHY GENERIC None st
              end).
  assert (H1 : matrix_le (matrix st) (matrix st1)).
  { subst st1. destruct (matrix st !! mid);
      [apply matrix_le_refl | apply apply_le]. }
  eapply matrix_le_trans; [exact H1|].
  destruct (matrix st1 !! mid) as [row|] eqn:E; [|apply matrix_le_refl].
  destruct (is_green (Status row)); [|apply matrix_le_refl].
  apply matrix_le_insert. intros row0 H0. rewrite E in H0.
  injection H0 as <-. cbn [Status]. lia.
Qed.

Lemma apply_incident_le now ts ts_local mid inc st :
  matrix_le (matrix st) (matrix (apply_incident now ts ts_local mid inc st)).
Proof.
  unfold apply_incident. rewrite record_last_matrix.
  destruct (is_active now ts (sticky_until inc));
    [apply apply_le | apply apply_stale_le].
Qed.

Lemma fold_left_le {A} (f : pass -> A -> pass) (l : list A) :
  (forall s x, matrix_le (matrix s) (matrix (f s x))) ->
  forall s, matrix_le (matrix s) (matrix (fold_left f l s)).
Proof.
  intros Hf. induction l as [|x l IH]; intros s; cbn [fold_left].
  - apply matrix_le_refl.
  - eapply matrix_le_trans; [apply Hf | apply IH].
Qed.

Lemma process_segment_le now csm rlsm ts ts_local st raw_seg :
  matrix_le (matrix st)
    (matrix (process_segment now csm rlsm ts ts_local st raw_seg)).
Proof.
  unfold process_segment.
  destruct (negb (contains [colon] (strip raw_seg))); [apply matrix_le_refl|].
  destruct (split_once colon (strip raw_seg)) as [mid0 msg0].
  destruct (negb (contains [slash] (strip mid0))
            && negb (bool_decide (is_Some (matrix st !! strip mid0))));
    [apply matrix_le_refl|].
  destruct (classify csm rlsm SEGMENT_COOLDOWN ts ts_local (strip mid0)
              (strip msg0));
    [apply apply_incident_le | apply matrix_le_refl].
Qed.

Lemma process_model_le now csm rlsm ts ts_local line st mid :
  matrix_le (matrix st)
    (matrix (process_model now csm rlsm ts ts_local line st mid)).
Proof.
  unfold process_model.
  set (st1 := match matrix st !! mid with
              | Some _ => st
              | None => _
              end).
  assert (H1 : matrix_le (matrix st) (matrix st1)).
  { subst st1. destruct (matrix st !! mid) eqn:E; [apply matrix_le_refl|].
    cbn [matrix]. apply matrix_le_insert. intros row H. congruence. }
  eapply matrix_le_trans; [exact H1|].
  destruct (classify csm rlsm LINE_COOLDOWN ts ts_local mid line);
    [apply apply_incident_le | apply matrix_le_refl].
Qed.

Lemma process_unattributed_matrix ts_local line st :
  matrix (process_unattributed ts_local line st) = matrix st.
Proof.
  unfold process_unattributed.
  destruct (is_rate_limit line); [reflexivity|].
  destruct (is_context_limit line); reflexivity.
Qed.

Lemma process_unknown_model_le ts_local mid st :
  matrix_le (matrix st) (matrix (process_unknown_model ts_local mid st)).
Proof.
  unfold process_unknown_model.
  change (matrix (push _ st)) with (matrix st).
  destruct (matrix st !! mid) eqn:E.
  - eapply matrix_le_trans; [|apply apply_le]. apply matrix_le_refl.
  - cbn [matrix push]. apply matrix_le_insert. intros row H. congruence.
Qed.

Lemma process_no_api_key_le models ts_local p st :
  matrix_le (matrix st) (matrix (process_no_api_key models ts_local p st)).
Proof.
  unfold process_no_api_key.
  eapply matrix_le_trans; [|apply fold_left_le].
  - change (matrix st) with (matrix (push (bracket ts_local ++ py "provider="
                                           ++ p ++ py ": No API key") st)).
    apply matrix_le_refl.
  - intros s m. destruct (bool_decide (provider m = p));
      [apply apply_le | apply matrix_le_refl].
Qed.

Lemma process_provider_cooldown_le models now csm ts ts_local p st :
  matrix_le (matrix st)
    (matrix (process_provider_cooldown models now csm ts ts_local p st)).
Proof.
  unfold process_provider_cooldown.
  eapply matrix_le_trans; [|apply fold_left_le].
  - change (matrix st) with (matrix (push (bracket ts_local ++ py "provider="
                                           ++ p ++ py ": cooldown") st)).
    apply matrix_le_refl.
  - intros s m. destruct (bool_decide (provider m = p));
      [apply apply_incident_le | apply matrix_le_refl].
Qed.

Lemma process_line_le models fmt_local now csm rlsm st l :
  matrix_le (matrix st)
    (matrix (process_line models fmt_local now csm rlsm st l)).
Proof.
  unfold process_line.
  destruct (other_agent LANE_AGENT_RE (text l)); [apply matrix_le_refl|].
  destruct (other_agent AGENT_DIR_RE (text l)); [apply matrix_le_refl|].
  destruct (search ALL_MODELS_FAILED_BODY_RE (text l)).
  { apply fold_left_le. intros s x. apply process_segment_le. }
  destruct (search NO_API_KEY_RE (text l)); [apply process_no_api_key_le|].
  destruct (if negb (truthy (line_model_id models (text l))) && _
            then search COOLDOWN_PROVIDER_RE (text l) else None);
    [apply process_provider_cooldown_le|].
  destruct (unknown_model (text l)); [apply process_unknown_model_le|].
  destruct (is_nil _).
  - rewrite process_unattributed_matrix. apply matrix_le_refl.
  - apply fold_left_le. intros s x. apply process_model_le.
Qed.

Lemma run_app models fmt_local now csm rlsm lines more :
  run models fmt_local now csm rlsm (lines ++ more)
  = fold_left (process_line models fmt_local now csm rlsm) more
      (run models fmt_local now csm rlsm lines).
Proof. unfold run. apply fold_left_app. Qed.

(** C10: during a pass no line lowers the severity of a row that exists:
    after every line, and so after every further stretch of lines, each row
    of the matrix is still there with a severity at least as bad as
    before. *)
Theorem C10_severity_never_decreases
    (models : list ModelRef) (fmt_local : Z -> pystr)
    (now csm rlsm : Z) (st : pass) (l : Line) (lines more : list Line) :
  matrix_le (matrix st) (matrix (process_line models fmt_local now csm rlsm st l))
  /\ matrix_le (matrix (run models fmt_local now csm rlsm lines))
       (matrix (run models fmt_local now csm rlsm (lines ++ more))).
Proof.
  split; [apply process_line_le|].
  rewrite run_app. apply fold_left_le. intros s x. apply process_line_le.
Qed.

(** ** Missing API key *)

Lemma apply_no_key_marks mid ev s :
  no_key_marked
    (apply mid (py "🔴 配置缺失") (py "未配置 API key（provider 认证失败）。") ev s)
    mid.
Proof.
  eexists. split; [apply apply_lookup|]. cbv zeta.
  set (row := default _ _). split; cbn [Status Diagnosis].
  - rewrite rank_worse. pose proof (rank_range (Status row)).
    change (rank (py "🔴 配置缺失")) with 3. lia.
  - rewrite is_green_max. change (rank (py "🔴 配置缺失")) with 3.
    replace (Z.max (rank (Status row)) 3 =? 1) with false.
    + cbn [negb]. rewrite orb_true_r. reflexivity.
    + symmetry. apply Z.eqb_neq. pose proof (rank_range (Status row)). lia.
Qed.

Lemma apply_keeps_no_key mid mid' ev s :
  no_key_marked s mid' ->
  no_key_marked
    (apply mid (py "🔴 配置缺失") (py "未配置 API key（provider 认证失败）。") ev s)
    mid'.
Proof.
  intros (row & H & Hrow). destruct (decide (mid = mid')) as [<- | Hne].
  - apply apply_no_key_marks.
  - exists row. split; [|exact Hrow]. by rewrite apply_lookup_ne.
Qed.

Lemma no_api_key_fold (ms : list ModelRef) (p : pystr) (s : pass) :
  let step := fun (s : pass) (m : ModelRef) =>
    if bool_decide (provider m = p)
    then apply (model_id m) (py "🔴 配置缺失")
           (py "未配置 API key（provider 认证失败）。") None s
    else s in
  (forall mid, no_key_marked s mid
               \/ (exists m, m ∈ ms /\ provider m = p /\ model_id m = mid) ->
               no_key_marked (fold_left step ms s) mid)
  /\ (forall mid, (forall m, m ∈ ms -> model_id m = mid -> provider m <> p) ->
                  matrix (fold_left step ms s) !! mid = matrix s !! mid).
Proof.
  cbv zeta. revert s. induction ms as [|m ms IH]; intros s; cbn [fold_left].
  - split.
    + intros mid [H | (m & Hm & _)]; [exact H | by apply elem_of_nil in Hm].
    + reflexivity.
  - destruct (IH (if bool_decide (provider m = p)
                  then apply (model_id m) (py "🔴 配置缺失")
                         (py "未配置 API key（provider 认证失败）。") None s
                  else s)) as [IH1 IH2].
    split.
    + intros mid H. apply IH1.
      destruct H as [H | (m' & Hm' & Hp & Hid)].
      * left. case_bool_decide; [by apply apply_keeps_no_key | exact H].
      * apply elem_of_cons in Hm' as [-> | Hm'].
        -- left. rewrite bool_decide_eq_true_2 by exact Hp. subst mid.
           apply apply_no_key_marks.
        -- right. eauto.
    + intros mid H. rewrite IH2.
      * case_bool_decide as Hp; [|reflexivity].
        apply apply_lookup_ne. intros Hid.
        exact (H m (list_elem_of_here _ _) Hid Hp).
      * intros m' Hm'. apply H. by apply list_elem_of_further.
Qed.

Lemma apply_matrix_ext mid status diag ev ev' s s' :
  matrix s = matrix s' ->
  matrix (apply mid status diag ev s) = matrix (apply mid status diag ev' s').
Proof. intros H. unfold apply. cbn [matrix]. by rewrite H. Qed.

Lemma process_no_api_key_matrix_ext models tl tl' p s s' :
  matrix s = matrix s' ->
  matrix (process_no_api_key models tl p s)
  = matrix (process_no_api_key models tl' p s').
Proof.
  intros H. unfold process_no_api_key.
  set (s1 := push _ s). set (s1' := push _ s').
  assert (H1 : matrix s1 = matrix s1') by exact H.
  clearbody s1 s1'. clear H.
  revert s1 s1' H1. induction models as [|m ms IH]; intros s1 s1' H1;
    cbn [fold_left]; [exact H1|].
  apply IH. case_bool_decide; [by apply apply_matrix_ext | exact H1].
Qed.

Lemma process_line_no_api_key models fmt_local now csm rlsm st l nk :
  other_agent LANE_AGENT_RE (text l) = false ->
  other_agent AGENT_DIR_RE (text l) = false ->
  search ALL_MODELS_FAILED_BODY_RE (text l) = None ->
  search NO_API_KEY_RE (text l) = Some nk ->
  process_line models fmt_local now csm rlsm st l
  = process_no_api_key models
      (match ts_utc l with Some t => fmt_local t | None => py "??:??" end)
      (group_str "provider" nk) st.
Proof.
  intros H1 H2 H3 H4. unfold process_line. by rewrite H1, H2, H3, H4.
Qed.

(** C7, as stated, fails: an aggregate "All models failed" line whose
    segment for acme/gpt-x reports 'No API key found for provider "acme"'
    matches the pattern with provider acme, yet the loop handles it as an
    aggregate failure and goes on to the next line: the segment is of none
    of the kinds of the chain, no row is marked and no event recorded; the
    models of acme stay green. *)
Lemma C7_aggregate_line_marks_nothing :
  let st' := process_line catalog fmt_utc (T0 + minutes 1)
               cooldown_sticky_minutes_default
               rate_limit_sticky_minutes_default
               (initial catalog) line_failed_no_key in
  group_str "provider" <$> search NO_API_KEY_RE (text line_failed_no_key)
  = Some (py "acme")
  /\ matrix st' !! py "acme/gpt-x" = Some (new_row (py "acme/gpt-x") HEALTHY GENERIC)
  /\ matrix st' !! py "acme/gpt-y" = Some (new_row (py "acme/gpt-y") HEALTHY GENERIC)
  /\ events st' = [].
Proof. vm_compute. repeat split; reflexivity. Qed.

(** C7 (amended): a line with 'No API key found for provider "X"' that
    reaches the rule (it is a line of the main agent and no aggregate-failure
    line, the two rules the loop tries first) gives every configured model of
    provider X a red row with the missing-credential diagnosis, whatever
    the line's timestamp and the generation instant are (the mark goes
    through [apply], not through the sticky window), and leaves the row of
    every model id that no configured model of provider X has as it was. *)
Theorem C7_no_api_key_marks_provider
    (models : list ModelRef) (fmt_local : Z -> pystr) (now csm rlsm : Z)
    (st : pass) (l : Line) (nk : mstate) :
  other_agent LANE_AGENT_RE (text l) = false ->
  other_agent AGENT_DIR_RE (text l) = false ->
  search ALL_MODELS_FAILED_BODY_RE (text l) = None ->
  search NO_API_KEY_RE (text l) = Some nk ->
  let p := group_str "provider" nk in
  let st' := process_line models fmt_local now csm rlsm st l in
  (forall m, m ∈ models -> provider m = p ->
     exists row, matrix st' !! model_id m = Some row
                 /\ rank (Status row) = 3
                 /\ Diagnosis row = py "未配置 API key（provider 认证失败）。")
  /\ (forall mid,
        (forall m, m ∈ models -> model_id m = mid -> provider m <> p) ->
        matrix st' !! mid = matrix st !! mid)
  /\ (forall now' ts',
        matrix (process_line models fmt_local now' csm rlsm st
                  {| text := text l; ts_utc := ts' |})
        = matrix st').
Proof.
  intros H1 H2 H3 H4. cbv zeta.
  rewrite (process_line_no_api_key _ _ _ _ _ _ _ _ H1 H2 H3 H4).
  unfold process_no_api_key.
  destruct (no_api_key_fold models (group_str "provider" nk)
              (push (bracket (match ts_utc l with
                              | Some t => fmt_local t
                              | None => py "??:??"
                              end) ++ py "provider="
                     ++ group_str "provider" nk ++ py ": No API key") st))
    as [F1 F2].
  split; [|split].
  - intros m Hm Hp. destruct (F1 (model_id m)) as (row & Hrow & Hr & Hd).
    + right. eauto.
    + exists row. auto.
  - intros mid H. rewrite F2 by exact H. reflexivity.
  - intros now' ts'.
    rewrite (process_line_no_api_key models fmt_local now' csm rlsm st
               {| text := text l; ts_utc := ts' |} nk H1 H2 H3 H4).
    by apply process_no_api_key_matrix_ext.
Qed.

Lemma C7_scenario_C_witness :
  let st' := process_line catalog fmt_utc (T0 + hours 10) 240 30
               (initial catalog) line_no_key in
  (exists row, matrix st' !! py "acme/gpt-y" = Some row
               /\ rank (Status row) = 3
               /\ Diagnosis row = py "未配置 API key（provider 认证失败）。")
  /\ matrix st' !! py "other/m1" = matrix (initial catalog) !! py "other/m1".
Proof.
  cbv zeta.
  destruct (search NO_API_KEY_RE (text line_no_key)) as [nk|] eqn:E;
    [|vm_compute in E; discriminate].
  assert (Hp : group_str "provider" nk = py "acme").
  { vm_compute in E. injection E as <-. reflexivity. }
  destruct (C7_no_api_key_marks_provider catalog fmt_utc (T0 + hours 10)
              240 30 (initial catalog) line_no_key nk
              eq_refl eq_refl eq_refl E) as (A & B & _).
  split.
  - apply (A {| model_id := py "acme/gpt-y"; provider := py "acme";
                model := py "gpt-y" |}).
    + apply list_elem_of_further, list_elem_of_here.
    + by rewrite Hp.
  - apply B. intros m Hm Hid. rewrite Hp.
    repeat (apply elem_of_cons in Hm as [-> | Hm]);
      [discriminate Hid | discriminate Hid | discriminate |].
    by apply elem_of_nil in Hm.
Defined.

(** ** Rate limits *)





(** ** Event timeline *)

Lemma dedup_loop_spec (evs : list pystr) :
  forall (seen : gset pystr) (u : list pystr),
    (forall e, e ∈ seen <-> e ∈ u) -> NoDup u ->
    exists w,
      snd (fold_left dedup_step evs (seen, u)) = u ++ w
      /\ (forall e, e ∈ fst (fold_left dedup_step evs (seen, u)) <-> e ∈ u ++ w)
      /\ NoDup (u ++ w)
      /\ sublist w evs
      /\ (forall e, e ∈ w <-> e ∈ evs /\ e ∉ u).
Proof.
  induction evs as [|e evs IH]; intros seen u Hseen Hu; cbn [fold_left].
  - exists []. rewrite app_nil_r. cbn [fst snd].
    split; [reflexivity|]. split; [exact Hseen|]. split; [exact Hu|].
    split; [constructor|]. intros x. split.
    + intros H. by apply elem_of_nil in H.
    + intros [H _]. by apply elem_of_nil in H.
  - unfold dedup_step at 2 4. case_bool_decide as He.
    + destruct (IH seen u Hseen Hu) as (w & H1 & H2 & H3 & H4 & H5).
      exists w. split; [exact H1|]. split; [exact H2|]. split; [exact H3|].
      split; [by apply sublist_cons|]. intros x. rewrite H5, elem_of_cons.
      split; [tauto|]. intros [[-> | Hx] Hn]; [|tauto].
      exfalso. apply Hn. by apply Hseen.
    + assert (Heu : e ∉ u) by (intros H; apply He; by apply Hseen).
      destruct (IH ({[e]} ∪ seen) (u ++ [e])) as (w & H1 & H2 & H3 & H4 & H5).
      * intros x. rewrite elem_of_union, elem_of_singleton, elem_of_app,
          list_elem_of_singleton, Hseen. tauto.
      * apply NoDup_app. split; [exact Hu|]. split; [|apply NoDup_singleton].
        intros x Hx Hx'. apply list_elem_of_singleton in Hx'. by subst.
      * exists (e :: w). rewrite <- app_assoc in H1, H2, H3.
        split; [exact H1|]. split; [exact H2|]. split; [exact H3|].
        split; [by apply sublist_skip|]. intros x.
        rewrite !elem_of_cons, H5, elem_of_app, list_elem_of_singleton.
        split.
        -- intros [-> | [Hx Hn]]; [tauto|]. split; [tauto|]. tauto.
        -- intros [[-> | Hx] Hn]; [tauto|].
           destruct (decide (x = e)) as [-> | Hne]; [tauto|]. right. tauto.
Qed.

Lemma uniq_events_spec (evs : list pystr) :
  NoDup (uniq_events evs)
  /\ sublist (uniq_events evs) evs
  /\ (forall e, e ∈ uniq_events evs <-> e ∈ evs)
  /\ (forall e, e ∈ fst (fold_left dedup_step evs (∅, [])) <-> e ∈ uniq_events evs).
Proof.
  destruct (dedup_loop_spec evs ∅ []) as (w & H1 & H2 & H3 & H4 & H5).
  - intros e. split; intros H; [by apply elem_of_empty in H | by apply elem_of_nil in H].
  - constructor.
  - unfold uniq_events. cbn [app] in *. rewrite H1.
    split; [exact H3|]. split; [exact H4|]. split.
    + intros e. rewrite H5. split; [tauto|]. intros H. split; [exact H|].
      intros H'. by apply elem_of_nil in H'.
    + exact H2.
Qed.

(** The first occurrence of an event lands right after the de-duplicated
    earlier events. *)
Lemma uniq_events_first (l1 l2 : list pystr) (e : pystr) :
  e ∉ l1 ->
  exists w, uniq_events (l1 ++ e :: l2) = uniq_events l1 ++ e :: w.
Proof.
  intros He. unfold uniq_events at 1. rewrite fold_left_app. cbn [fold_left].
  destruct (uniq_events_spec l1) as (Hnd & _ & Hel & Hseen).
  destruct (fold_left dedup_step l1 (∅, [])) as [seen u] eqn:E.
  assert (Hu : u = uniq_events l1) by (unfold uniq_events; by rewrite E).
  cbn [fst] in Hseen. rewrite <- Hu in *.
  unfold dedup_step at 2. rewrite bool_decide_eq_false_2.
  - destruct (dedup_loop_spec l2 ({[e]} ∪ seen) (u ++ [e]))
      as (w & H1 & _).
    + intros x. rewrite elem_of_union, elem_of_singleton, elem_of_app,
        list_elem_of_singleton, Hseen. tauto.
    + apply NoDup_app. split; [exact Hnd|]. split; [|apply NoDup_singleton].
      intros x Hx Hx'. apply list_elem_of_singleton in Hx'. subst.
      apply He. by apply Hel.
    + exists w. rewrite H1. by rewrite <- app_assoc.
  - intros H. apply He. apply Hel. by apply Hseen.
Qed.

Lemma last_n_length {A} n (l : list A) :
  length (last_n n l) = Nat.min n (length l).
Proof. unfold last_n. rewrite length_drop. lia. Qed.

Lemma last_n_suffix {A} n (l : list A) : last_n n l `suffix_of` l.
Proof. unfold last_n. apply suffix_drop. Qed.

Lemma last_n_short {A} n (l : list A) :
  (length l <= n)%nat -> last_n n l = l.
Proof.
  intros H. unfold last_n. replace (length l - n)%nat with 0%nat by lia.
  reflexivity.
Qed.

(** C9: the timeline returned for the events of a pass has no repeated
    string, is the events in their order with every repetition of an
    earlier event left out (each event stands where it first occurred,
    after the de-duplicated earlier events), and keeps the last 30 entries
    of that list, all of them when there are no more, so it has at most
    30. *)
Theorem C9_timeline_dedup_cap (evs : list pystr) :
  NoDup (timeline evs)
  /\ (length (timeline evs) <= 30)%nat
  /\ length (timeline evs) = Nat.min 30 (length (uniq_events evs))
  /\ timeline evs `suffix_of` uniq_events evs
  /\ ((length (uniq_events evs) <= 30)%nat -> timeline evs = uniq_events evs)
  /\ NoDup (uniq_events evs)
  /\ sublist (uniq_events evs) evs
  /\ (forall e, e ∈ uniq_events evs <-> e ∈ evs)
  /\ (forall l1 e l2, evs = l1 ++ e :: l2 -> e ∉ l1 ->
        exists w, uniq_events evs = uniq_events l1 ++ e :: w).
Proof.
  destruct (uniq_events_spec evs) as (Hnd & Hsub & Hel & _).
  assert (Hsuf : timeline evs `suffix_of` uniq_events evs)
    by apply last_n_suffix.
  split.
  { destruct Hsuf as [k Hk]. rewrite Hk in Hnd.
    by apply NoDup_app in Hnd as (_ & _ & Hnd). }
  split; [unfold timeline; rewrite last_n_length; lia|].
  split; [apply last_n_length|].
  split; [exact Hsuf|]. split; [apply last_n_short|].
  split; [exact Hnd|]. split; [exact Hsub|].
  split; [exact Hel|].
  intros l1 e l2 -> He. by apply uniq_events_first.
Qed.

(** ** Restart merging *)

Lemma insert_desc_perm x l : insert_desc x l ≡ₚ x :: l.
Proof.
  induction l as [|y l IH]; cbn [insert_desc]; [reflexivity|].
  destruct (fst y <=? fst x); [reflexivity|].
  rewrite IH. apply Permutation_swap.
Qed.

Lemma sort_desc_perm l : sort_desc l ≡ₚ l.
Proof.
  induction l as [|x l IH]; cbn [sort_desc foldr]; [reflexivity|].
  rewrite insert_desc_perm. by constructor.
Qed.

Lemma insert_desc_sorted x l :
  StronglySorted newer_first l -> StronglySorted newer_first (insert_desc x l).
Proof.
  induction l as [|y l IH]; intros Hs; cbn [insert_desc].
  - repeat constructor.
  - apply StronglySorted_cons in Hs as [Hy Hl].
    destruct (Z.leb_spec (fst y) (fst x)) as [Hle | Hlt].
    + apply StronglySorted_cons. split.
      * constructor; [exact Hle|].
        eapply Forall_impl; [exact Hy|]. unfold newer_first. intros z Hz. lia.
      * apply StronglySorted_cons. by split.
    + apply StronglySorted_cons. split; [|by apply IH].
      rewrite insert_desc_perm. constructor; [|exact Hy].
      unfold newer_first. lia.
Qed.

Lemma sort_desc_sorted l : StronglySorted newer_first (sort_desc l).
Proof.
  induction l as [|x l IH]; cbn [sort_desc foldr]; [constructor|].
  by apply insert_desc_sorted.
Qed.

(** The sort is stable: candidates of one instant keep their order. *)
Lemma insert_desc_stable t x l :
  filter (fun c => fst c = t) (insert_desc x l)
  = filter (fun c => fst c = t) (x :: l).
Proof.
  induction l as [|y l IH]; cbn [insert_desc]; [reflexivity|].
  destruct (Z.leb_spec (fst y) (fst x)) as [Hle | Hlt]; [reflexivity|].
  rewrite filter_cons, IH, !filter_cons.
  destruct (decide (fst y = t)), (decide (fst x = t)); try reflexivity. lia.
Qed.

Lemma sort_desc_stable t l :
  filter (fun c => fst c = t) (sort_desc l) = filter (fun c => fst c = t) l.
Proof.
  induction l as [|x l IH]; cbn [sort_desc foldr]; [reflexivity|].
  rewrite insert_desc_stable, !filter_cons. fold (sort_desc l).
  by rewrite IH.
Qed.

Lemma merge_step_snoc merged kept c :
  merge_step (merged ++ [kept]) c =
  if within 90 (fst kept) (fst c)
  then merged ++ [if contains (py "异常") (snd c)
                  then (fst kept, snd c) else kept]
  else merged ++ [kept; c].
Proof.
  unfold merge_step. rewrite last_snoc.
  destruct (within 90 (fst kept) (fst c)).
  - destruct (contains (py "异常") (snd c)); [|reflexivity].
    rewrite length_app. cbn [length].
    replace (pred (length merged + 1)) with (length merged + 0)%nat by lia.
    rewrite insert_app_r. reflexivity.
  - by rewrite <- app_assoc.
Qed.

Lemma merge_from done kept members l :
  fold_left merge_step l
    (done ++ [(fst kept, group_reason (snd kept) members)])
  = done ++ map record_of_group (group_from kept members l).
Proof.
  revert kept done members.
  induction l as [|c l IH]; intros kept done members;
    cbn [fold_left group_from map]; [reflexivity|].
  rewrite merge_step_snoc. cbn [fst snd].
  destruct (within 90 (fst kept) (fst c)).
  - rewrite <- IH. f_equal. f_equal. f_equal. f_equal.
    unfold group_reason. rewrite fold_left_app. cbn [fold_left].
    by destruct (contains (py "异常") (snd c)).
  - cbn [map record_of_group].
    specialize (IH c (done ++ [(fst kept, group_reason (snd kept) members)]) []).
    cbn [group_reason fold_left] in IH.
    replace (fst c, snd c) with c in IH by (by destruct c).
    rewrite <- !app_assoc in IH. exact IH.
Qed.

Lemma merge_groups (s : list (Z * pystr)) :
  fold_left merge_step s [] = map record_of_group (groups s).
Proof.
  destruct s as [|c l]; [reflexivity|]. cbn [fold_left groups].
  change (merge_step [] c) with ([] ++ [c]).
  replace c with (fst c, group_reason (snd c) []) at 1 by (by destruct c).
  apply (merge_from [] c [] l).
Qed.

Lemma group_from_concat kept members l :
  concat (group_from kept members l) = kept :: members ++ l.
Proof.
  revert kept members. induction l as [|c l IH]; intros kept members;
    cbn [group_from].
  - cbn [concat]. by rewrite !app_nil_r.
  - destruct (within 90 (fst kept) (fst c)).
    + rewrite IH. by rewrite <- app_assoc.
    + cbn [concat]. rewrite IH. reflexivity.
Qed.

Lemma groups_concat s : concat (groups s) = s.
Proof. destruct s as [|c l]; [reflexivity|]. apply group_from_concat. Qed.

Lemma within_older n a b :
  b <= a -> within n a b = true <-> a - b <= seconds n.
Proof. intros H. unfold within. rewrite Z.leb_le. lia. Qed.

Lemma group_from_good kept members l :
  StronglySorted newer_first (kept :: members ++ l) ->
  Forall (fun c => 0 <= fst kept - fst c <= seconds 90) members ->
  Forall good_group (group_from kept members l).
Proof.
  revert kept members. induction l as [|c l IH]; intros kept members Hs Hm;
    cbn [group_from].
  - by repeat constructor.
  - assert (Hc : fst c <= fst kept).
    { apply StronglySorted_cons in Hs as [Hk _].
      rewrite Forall_forall in Hk. apply (Hk c).
      rewrite elem_of_app, elem_of_cons. tauto. }
    destruct (within 90 (fst kept) (fst c)) eqn:W.
    + apply IH.
      * by rewrite <- app_assoc.
      * apply Forall_app. split; [exact Hm|]. constructor; [|constructor].
        apply (proj1 (within_older 90 _ _ Hc)) in W. lia.
    + constructor; [exact Hm|]. apply IH; [|constructor].
      apply StronglySorted_cons in Hs as [_ Hs].
      by apply StronglySorted_app_1_r in Hs.
Qed.

Lemma group_from_separated kept members l :
  StronglySorted newer_first (kept :: members ++ l) ->
  forall i j k ms g c,
    (i < j)%nat ->
    group_from kept members l !! i = Some (k :: ms) ->
    group_from kept members l !! j = Some g ->
    c ∈ g ->
    seconds 90 < fst k - fst c.
Proof.
  revert kept members. induction l as [|c0 l IH]; intros kept members Hs;
    cbn [group_from]; intros i j k ms g c Hij Hi Hj Hc.
  - destruct j as [|j]; [lia|]. destruct j; discriminate.
  - assert (Hc0 : fst c0 <= fst kept).
    { apply StronglySorted_cons in Hs as [Hk _].
      rewrite Forall_forall in Hk. apply (Hk c0).
      rewrite elem_of_app, elem_of_cons. tauto. }
    destruct (within 90 (fst kept) (fst c0)) eqn:W.
    + apply (IH kept (members ++ [c0])) with i j ms g; try assumption.
      by rewrite <- app_assoc.
    + assert (Hs' : StronglySorted newer_first (c0 :: [] ++ l)).
      { apply StronglySorted_cons in Hs as [_ Hs].
        by apply StronglySorted_app_1_r in Hs. }
      destruct j as [|j]; [lia|]. cbn [lookup list_lookup] in Hj.
      destruct i as [|i].
      * injection Hi as <- <-.
        assert (Hin : c ∈ c0 :: l).
        { pose proof (group_from_concat c0 [] l) as Hcat.
          cbn [app] in Hcat. rewrite <- Hcat.
          apply list_elem_of_In, in_concat. exists g.
          split; [apply list_elem_of_In; eapply list_elem_of_lookup_2; eauto
                 | by apply list_elem_of_In]. }
        assert (fst c <= fst c0).
        { apply elem_of_cons in Hin as [-> | Hin]; [lia|].
          apply StronglySorted_cons in Hs' as [Hk _].
          rewrite Forall_forall in Hk. by apply Hk. }
        assert (~ fst kept - fst c0 <= seconds 90).
        { intros H'. apply (proj2 (within_older 90 _ _ Hc0)) in H'.
          congruence. }
        lia.
      * cbn [lookup list_lookup] in Hi.
        apply (IH c0 [] Hs' i j k ms g c); [lia | exact Hi | exact Hj | exact Hc].
Qed.

Lemma merge_two a b :
  length (merge [a; b]) = if within 90 (fst a) (fst b) then 1%nat else 2%nat.
Proof.
  unfold merge. cbn [sort_desc foldr insert_desc].
  assert (Hsym : within 90 (fst b) (fst a) = within 90 (fst a) (fst b)).
  { unfold within. f_equal. lia. }
  destruct (fst b <=? fst a); cbn [fold_left];
    change (merge_step [] ?x) with ([] ++ [x]);
    rewrite merge_step_snoc; rewrite ?Hsym;
    destruct (within 90 (fst a) (fst b)); reflexivity.
Qed.

(** C4, as stated, fails: of three restart signals at 02:26:57, 02:27:57
    and 02:28:57 the newest is kept and the middle one is dropped into it;
    the oldest is 120 seconds from the kept one and becomes a record of its
    own, although it is only 60 seconds from the middle one.  The two
    candidates 60 seconds apart do not end up in one record. *)
Lemma C4_chain_not_collapsed :
  let cands := omap candidate restart_lines in
  cands = [(T0 - seconds 120, SIGUSR1); (T0 - seconds 60, SIGTERM);
           (T0, SIGUSR1)]
  /\ within 90 (T0 - seconds 60) (T0 - seconds 120) = true
  /\ groups (sort_desc cands)
     = [[(T0, SIGUSR1); (T0 - seconds 60, SIGTERM)];
        [(T0 - seconds 120, SIGUSR1)]]
  /\ merge cands = [(T0, SIGUSR1); (T0 - seconds 120, SIGUSR1)]
  /\ analyze_restarts restart_lines [] fmt_utc
     = [{| timestamp := py "02:28"; reason := SIGUSR1 |};
        {| timestamp := py "02:26"; reason := SIGUSR1 |}].
Proof. vm_compute. repeat split; reflexivity. Qed.

(** C4 (amended): the candidates are sorted newest first (a permutation,
    candidates of one instant in their original order) and read in that
    order; a candidate within 90 seconds of the candidate kept last is
    dropped into it, a crash reason overwriting the kept reason, and any
    other candidate is kept.  So every record stands for a kept candidate
    and the candidates at most 90 seconds older that follow it: two
    candidates more than 90 seconds apart never share a record, a candidate
    of a later record is more than 90 seconds older than every candidate
    kept before it, a candidate at most 90 seconds older than a kept
    candidate is in the record of that candidate, and two candidates alone
    collapse iff they are at most 90 seconds apart. *)
Theorem C4_restart_merge (restarts : list (Z * pystr)) :
  let s := sort_desc restarts in
  let G := groups s in
  s ≡ₚ restarts
  /\ StronglySorted newer_first s
  /\ (forall t, filter (fun c => fst c = t) s
                = filter (fun c => fst c = t) restarts)
  /\ merge restarts = map record_of_group G
  /\ concat G = s
  /\ Forall good_group G
  /\ (forall g a b, g ∈ G -> a ∈ g -> b ∈ g ->
        Z.abs (fst a - fst b) <= seconds 90)
  /\ (forall i j k ms g c,
        (i < j)%nat -> G !! i = Some (k :: ms) -> G !! j = Some g -> c ∈ g ->
        seconds 90 < fst k - fst c)
  /\ (forall i j k ms g c,
        G !! i = Some (k :: ms) -> G !! j = Some g -> c ∈ g ->
        0 <= fst k - fst c <= seconds 90 -> i = j)
  /\ (forall a b, length (merge [a; b])
                  = if within 90 (fst a) (fst b) then 1%nat else 2%nat).
Proof.
  cbv zeta.
  pose proof (sort_desc_sorted restarts) as Hs.
  assert (Hgood : Forall good_group (groups (sort_desc restarts))).
  { destruct (sort_desc restarts) as [|c l]; [constructor|].
    apply group_from_good; [exact Hs | constructor]. }
  split; [apply sort_desc_perm|]. split; [exact Hs|].
  split; [intros t; apply sort_desc_stable|].
  split; [apply merge_groups|]. split; [apply groups_concat|].
  assert (Hsep : forall i j k ms g c,
             (i < j)%nat ->
             groups (sort_desc restarts) !! i = Some (k :: ms) ->
             groups (sort_desc restarts) !! j = Some g -> c ∈ g ->
             seconds 90 < fst k - fst c).
  { destruct (sort_desc restarts) as [|c l]; cbn [groups].
    - intros i j k ms g c _ Hi. discriminate.
    - apply group_from_separated. exact Hs. }
  split; [exact Hgood|]. split; [|split; [exact Hsep|split; [|apply merge_two]]].
  - intros g a b Hg Ha Hb. rewrite Forall_forall in Hgood.
    specialize (Hgood g Hg). destruct g as [|k ms]; [destruct Hgood|].
    cbn [good_group] in Hgood. rewrite Forall_forall in Hgood.
    assert (Hin : forall x, x ∈ k :: ms -> 0 <= fst k - fst x <= seconds 90).
    { intros x Hx. apply elem_of_cons in Hx as [-> | Hx];
        [unfold seconds, timedelta; lia | by apply Hgood]. }
    pose proof (Hin a Ha). pose proof (Hin b Hb). lia.
  - intros i j k ms g c Hi Hj Hc Hnear.
    destruct (Nat.lt_total i j) as [Hlt | [Heq | Hgt]]; [|exact Heq|].
    + pose proof (Hsep i j k ms g c Hlt Hi Hj Hc). lia.
    + rewrite Forall_forall in Hgood.
      pose proof (Hgood g (list_elem_of_lookup_2 _ _ _ Hj)) as Hg.
      destruct g as [|kj msj]; [destruct Hg|].
      cbn [good_group] in Hg. rewrite Forall_forall in Hg.
      pose proof (Hsep j i kj msj (k :: ms) k Hgt Hj Hi
                    (list_elem_of_here _ _)) as Hfar.
      apply elem_of_cons in Hc as [-> | Hc]; [lia|].
      specialize (Hg c Hc). lia.
Qed.

(** Scenario D: signals at [T0], [T0] + 30 s and [T0] + 200 s give two
    records; the crash reason of the dropped candidate stays. *)
Lemma C4_scenario_D_witness :
  merge [(T0, CRASH); (T0 + seconds 30, SIGTERM); (T0 + seconds 200, SIGUSR1)]
  = [(T0 + seconds 200, SIGUSR1); (T0 + seconds 30, CRASH)].
Proof.
  destruct (C4_restart_merge
              [(T0, CRASH); (T0 + seconds 30, SIGTERM);
               (T0 + seconds 200, SIGUSR1)]) as (_ & _ & _ & H & _).
  rewrite H. vm_compute. reflexivity.
Defined.

(** ** Watchdog attribution *)

Lemma wd_restart_times_elem (evs : list WatchdogEvent) (w : Z) :
  w ∈ omap wd_restart_time evs
  <-> exists e, e ∈ evs /\ wd_type e = Some (py "gateway_restart")
                /\ wd_timestamp e = Some w.
Proof.
  rewrite list_elem_of_omap. unfold wd_restart_time. split.
  - intros (e & He & H). exists e. split; [exact He|].
    case_bool_decide; [by split | discriminate].
  - intros (e & He & Ht & Hw). exists e. split; [exact He|].
    by rewrite bool_decide_eq_true_2.
Qed.

Lemma attribute_near (wd : list Z) (c : Z * pystr) (w : Z) :
  w ∈ wd -> Z.abs (w - fst c) <= seconds 120 -> attribute wd c = WATCHDOG.
Proof.
  intros Hw Hnear. unfold attribute.
  replace (existsb (fun wts => within 120 wts (fst c)) wd) with true;
    [reflexivity|].
  symmetry. apply existsb_exists. exists w.
  split; [by apply list_elem_of_In | by apply Z.leb_le].
Qed.

Lemma attribute_far (wd : list Z) (c : Z * pystr) :
  (forall w, w ∈ wd -> seconds 120 < Z.abs (w - fst c)) ->
  attribute wd c = snd c.
Proof.
  intros Hfar. unfold attribute.
  destruct (existsb (fun wts => within 120 wts (fst c)) wd) eqn:E;
    [|reflexivity].
  apply existsb_exists in E as (w & Hw & Hin).
  apply list_elem_of_In in Hw. specialize (Hfar w Hw).
  apply Z.leb_le in Hin. lia.
Qed.

(** C5: after merging, a record whose instant is within 120 seconds of the
    timestamp of a watchdog audit record of type "gateway_restart" is
    reported with the watchdog self-heal reason, whatever reason the merge
    left it with. *)
Theorem C5_watchdog_relabel
    (lines : list Line) (watchdog_events : list WatchdogEvent)
    (fmt_local : Z -> pystr) (i : nat) (c : Z * pystr)
    (e : WatchdogEvent) (w : Z) :
  merge (omap candidate lines) !! i = Some c ->
  e ∈ watchdog_events ->
  wd_type e = Some (py "gateway_restart") ->
  wd_timestamp e = Some w ->
  Z.abs (w - fst c) <= seconds 120 ->
  analyze_restarts lines watchdog_events fmt_local !! i
  = Some {| timestamp := fmt_local (fst c); reason := WATCHDOG |}.
Proof.
  intros Hc He Ht Hw Hnear. unfold analyze_restarts.
  change (map ?f ?l) with (f <$> l). rewrite list_lookup_fmap, Hc.
  cbn [fmap option_fmap option_map]. f_equal. f_equal.
  apply attribute_near with w; [|exact Hnear].
  apply wd_restart_times_elem. eauto.
Qed.

(** A record that is near no watchdog restart keeps its reason. *)
Lemma watchdog_relabel_only_near
    (lines : list Line) (watchdog_events : list WatchdogEvent)
    (fmt_local : Z -> pystr) (i : nat) (c : Z * pystr) :
  merge (omap candidate lines) !! i = Some c ->
  (forall e w, e ∈ watchdog_events ->
     wd_type e = Some (py "gateway_restart") -> wd_timestamp e = Some w ->
     seconds 120 < Z.abs (w - fst c)) ->
  analyze_restarts lines watchdog_events fmt_local !! i
  = Some {| timestamp := fmt_local (fst c); reason := snd c |}.
Proof.
  intros Hc Hfar. unfold analyze_restarts.
  change (map ?f ?l) with (f <$> l). rewrite list_lookup_fmap, Hc.
  cbn [fmap option_fmap option_map]. f_equal. f_equal.
  apply attribute_far. intros w Hw.
  apply wd_restart_times_elem in Hw as (e & He & Ht & Hts). eauto.
Qed.

Lemma C5_crash_relabelled_witness :
  merge (omap candidate crash_lines) = [(T0 + seconds 30, CRASH)]
  /\ analyze_restarts crash_lines watchdog_trail fmt_utc !! 0%nat
     = Some {| timestamp := py "02:29"; reason := WATCHDOG |}.
Proof.
  split; [vm_compute; reflexivity|].
  apply (C5_watchdog_relabel crash_lines watchdog_trail fmt_utc 0
           (T0 + seconds 30, CRASH)
           {| wd_type := Some (py "gateway_restart");
              wd_timestamp := Some (T0 + seconds 100) |}
           (T0 + seconds 100)).
  - vm_compute. reflexivity.
  - apply list_elem_of_further, list_elem_of_here.
  - reflexivity.
  - reflexivity.
  - vm_compute. discriminate.
Defined.

(** ** The duration parser *)

Lemma span_digits_spec s a b :
  span_digits s = (a, b) ->
  s = a ++ b /\ forallb isdigit a = true
  /\ match b with c :: _ => isdigit c = false | [] => True end.
Proof.
  revert a b. induction s as [|c s IH]; intros a b; cbn [span_digits].
  - intros [= <- <-]. auto.
  - destruct (isdigit c) eqn:Hc.
    + destruct (span_digits s) as [a' b'] eqn:E. intros [= <- <-].
      destruct (IH a' b' eq_refl) as (-> & Ha & Hb).
      cbn [forallb app]. rewrite Hc, Ha. auto.
    + intros [= <- <-]. cbn [app forallb]. auto.
Qed.

Lemma span_digits_app ds c t :
  forallb isdigit ds = true -> isdigit c = false ->
  span_digits (ds ++ c :: t) = (ds, c :: t).
Proof.
  intros Hds Hc. induction ds as [|d ds IH]; cbn [app span_digits].
  - by rewrite Hc.
  - cbn [forallb] in Hds. apply andb_true_iff in Hds as [Hd Hds].
    rewrite Hd, (IH Hds). reflexivity.
Qed.

Lemma scan_unit_spec u s ds t :
  isdigit u = false ->
  scan_unit u s = Some (ds, t)
  <-> ds <> [] /\ forallb isdigit ds = true /\ s = ds ++ u :: t.
Proof.
  intros Hu. unfold scan_unit. split.
  - destruct (span_digits s) as [a b] eqn:E.
    apply span_digits_spec in E as (-> & Ha & Hb).
    destruct a as [|d run]; [discriminate|]. destruct b as [|c b]; [discriminate|].
    destruct (N.eqb_spec u c) as [-> | Hne]; [|discriminate].
    intros [= <- <-]. auto.
  - intros (Hne & Hds & ->). rewrite (span_digits_app _ _ _ Hds Hu).
    destruct ds as [|d run]; [done|]. by rewrite N.eqb_refl.
Qed.

(** After a number the text goes on with one letter only. *)
Lemma scan_unit_other u u' s ds t :
  isdigit u = false -> u <> u' ->
  scan_unit u s = Some (ds, t) -> scan_unit u' s = None.
Proof.
  intros Hu Hne H. apply (scan_unit_spec u s ds t Hu) in H as (Hds & Hd & ->).
  unfold scan_unit. rewrite (span_digits_app _ _ _ Hd Hu).
  destruct ds as [|d run]; [reflexivity|].
  destruct (N.eqb_spec u' u); [congruence | reflexivity].
Qed.

(** Repetition of [\d] before a continuation that refuses any text that
    goes on with a digit: the whole run of digits is taken. *)
Lemma star_loop_digits (k : mstate -> option mstate) :
  (forall p p' r c, k (MState p r c) = k (MState p' r c)) ->
  (forall p c r cs, isdigit c = true -> k (MState p (c :: r) cs) = None) ->
  forall run n p tl cs,
    (length (run ++ tl) <= n)%nat ->
    forallb isdigit run = true ->
    match tl with c :: _ => isdigit c = false | [] => True end ->
    star_loop (mtch digit) k n (MState p (run ++ tl) cs)
    = k (MState None tl cs).
Proof.
  intros Hindep Hdigit run.
  induction run as [|d run IH]; intros n p tl cs Hn Hrun Htl.
  - cbn [app]. destruct n as [|n]; cbn [star_loop]; [apply Hindep|].
    cbn [mtch digit rest].
    destruct tl as [|c tl]; [apply Hindep|]. rewrite Htl. apply Hindep.
  - cbn [forallb] in Hrun. apply andb_true_iff in Hrun as [Hd Hrun].
    cbn [app length] in Hn. destruct n as [|n]; [lia|].
    cbn [app star_loop]. cbn [mtch digit rest caps]. rewrite Hd.
    cbn [length]. replace (length (run ++ tl) <? S (length (run ++ tl)))%nat
      with true by (symmetry; apply Nat.ltb_lt; lia).
    rewrite IH by (auto; lia).
    rewrite (Hdigit p d (run ++ tl) cs Hd).
    by destruct (k (MState None tl cs)).
Qed.

Lemma mtch_Chr f k s :
  mtch (Chr f) k s =
  match rest s with
  | c :: t => if f c then k (MState (Some c) t (caps s)) else None
  | [] => None
  end.
Proof. reflexivity. Qed.

Lemma plus_digits (k : mstate -> option mstate) (s : mstate) :
  (forall p p' r c, k (MState p r c) = k (MState p' r c)) ->
  (forall p c r cs, isdigit c = true -> k (MState p (c :: r) cs) = None) ->
  mtch (plus digit) k s =
  match span_digits (rest s) with
  | (d :: run, tl) => k (MState None tl (caps s))
  | ([], _) => None
  end.
Proof.
  intros Hindep Hdigit. unfold plus. cbn [mtch].
  unfold digit at 1. rewrite mtch_Chr.
  destruct s as [p r cs]. cbn [rest caps].
  destruct r as [|c r]; [reflexivity|]. cbn [span_digits].
  destruct (isdigit c) eqn:Hc; [|reflexivity].
  destruct (span_digits r) as [a b] eqn:E.
  apply span_digits_spec in E as (-> & Ha & Hb).
  cbn [rest]. by apply (star_loop_digits k Hindep Hdigit a).
Qed.

(** A unit group [(?P<g>\d+)u] is the scan of a number and its letter. *)
Lemma unit_group g u k s :
  isdigit u = false ->
  mtch (cat [Grp g (plus digit); chr u]) k s =
  match scan_unit u (rest s) with
  | Some (ds, t) => k (MState (Some u) t ((g, ds) :: caps s))
  | None => None
  end.
Proof.
  intros Hu. unfold cat. cbn [foldr]. cbn [mtch].
  rewrite plus_digits.
  - unfold scan_unit. destruct (span_digits (rest s)) as [a b] eqn:E.
    apply span_digits_spec in E as (E & Ha & Hb).
    destruct a as [|d run]; [reflexivity|].
    cbn [rest caps prev]. rewrite E, length_app.
    replace (length (d :: run) + length b - length b)%nat
      with (length (d :: run)) by lia.
    rewrite take_app_length. unfold chr. rewrite mtch_Chr. cbn [rest caps].
    destruct b as [|c t]; [reflexivity|].
    destruct (N.eqb_spec u c) as [-> | Hne]; reflexivity.
  - intros p p' r c. unfold chr. by rewrite !mtch_Chr.
  - intros p c r cs Hc. unfold chr. rewrite mtch_Chr. cbn [rest].
    destruct (N.eqb_spec u c) as [-> | Hne]; [congruence | reflexivity].
Qed.

(** An optional unit group before a continuation that has no way on when
    the group is there: the group is taken when it is there. *)
Lemma opt_unit_group g u k s :
  isdigit u = false ->
  (forall ds t, scan_unit u (rest s) = Some (ds, t) -> k s = None) ->
  mtch (opt (cat [Grp g (plus digit); chr u])) k s = k (step_unit g u s).
Proof.
  intros Hu Hblocked. unfold opt.
  change (mtch (Alt ?a Eps) k s)
    with (match mtch a k s with Some m => Some m | None => k s end).
  rewrite (unit_group g u k s Hu). unfold step_unit.
  destruct (scan_unit u (rest s)) as [[ds t]|] eqn:E; [|reflexivity].
  rewrite (Hblocked ds t eq_refl).
  by destruct (k (MState (Some u) t ((g, ds) :: caps s))).
Qed.

Lemma at_end_blocked u s ds t :
  isdigit u = false -> scan_unit u (rest s) = Some (ds, t) -> at_end s = None.
Proof.
  intros Hu H. apply (scan_unit_spec u _ ds t Hu) in H as (_ & _ & H).
  unfold at_end. rewrite H. by destruct ds.
Qed.

Lemma step_unit_other g u u' s ds t :
  isdigit u = false -> u <> u' ->
  scan_unit u (rest s) = Some (ds, t) -> step_unit g u' s = s.
Proof.
  intros Hu Hne H. unfold step_unit.
  by rewrite (scan_unit_other u u' _ ds t Hu Hne H).
Qed.

(** The match of [HMS_RE] against a whole text: the three unit groups are
    scanned in their order, each taken when it is there. *)
Lemma fullmatch_hms raw :
  fullmatch HMS_RE raw =
  at_end (step_unit "s" 115 (step_unit "m" 109
            (step_unit "h" 104 (MState None raw [])))).
Proof.
  unfold fullmatch, HMS_RE.
  change (cat [?a; ?b; ?c]) with (Seq a (Seq b (Seq c Eps))).
  assert (H3 : forall s,
             mtch (Seq (opt (cat [Grp "s" (plus digit); chr 115])) Eps) at_end s
             = at_end (step_unit "s" 115 s)).
  { intros s.
    change (mtch (Seq ?a Eps) at_end s) with (mtch a (fun x => at_end x) s).
    apply (opt_unit_group "s" 115 (fun x => at_end x) s); [reflexivity|].
    intros ds t H. by apply (at_end_blocked 115 s ds t). }
  assert (H2 : forall s,
             mtch (Seq (opt (cat [Grp "m" (plus digit); chr 109]))
                     (Seq (opt (cat [Grp "s" (plus digit); chr 115])) Eps))
               at_end s
             = at_end (step_unit "s" 115 (step_unit "m" 109 s))).
  { intros s.
    change (mtch (Seq ?a ?b) at_end s) with (mtch a (mtch b at_end) s).
    rewrite opt_unit_group; [apply H3 | reflexivity |].
    intros ds t H. rewrite H3.
    rewrite (step_unit_other "s" 109 115 s ds t) by (done || exact H).
    by apply (at_end_blocked 109 s ds t). }
  change (mtch (Seq ?a ?b) at_end ?s) with (mtch a (mtch b at_end) s).
  rewrite opt_unit_group; [apply H2 | reflexivity |].
  intros ds t H. rewrite H2.
  rewrite (step_unit_other "m" 104 109 _ ds t) by (done || exact H).
  rewrite (step_unit_other "s" 104 115 _ ds t) by (done || exact H).
  by apply (at_end_blocked 104 _ ds t).
Qed.

Lemma step_unit_spec g u s :
  isdigit u = false ->
  exists d, number d
    /\ rest s = unit_text d u ++ rest (step_unit g u s)
    /\ caps (step_unit g u s) = opt_cons g d (caps s).
Proof.
  intros Hu. unfold step_unit.
  destruct (scan_unit u (rest s)) as [[ds t]|] eqn:E.
  - apply (scan_unit_spec u _ ds t Hu) in E as (Hne & Hds & E).
    exists (Some ds). cbn [number unit_text rest caps opt_cons].
    rewrite E, <- app_assoc. auto.
  - exists None. cbn [number unit_text opt_cons app]. auto.
Qed.

Lemma scan_unit_text_other u u' d tl :
  isdigit u' = false -> u' <> u -> number d ->
  scan_unit u tl = None ->
  scan_unit u (unit_text d u' ++ tl) = None.
Proof.
  intros Hu' Hne Hd Htl. destruct d as [ds|]; [|exact Htl].
  destruct Hd as [Hds Hdig]. cbn [unit_text].
  apply (scan_unit_other u' u _ ds tl Hu' Hne).
  apply scan_unit_spec; [exact Hu'|]. rewrite <- app_assoc. auto.
Qed.

Lemma step_unit_text g u d tl p cs :
  isdigit u = false -> number d -> scan_unit u tl = None ->
  exists p',
    step_unit g u (MState p (unit_text d u ++ tl) cs)
    = MState p' tl (opt_cons g d cs).
Proof.
  intros Hu Hd Htl. unfold step_unit. cbn [rest caps].
  destruct d as [ds|]; cbn [unit_text opt_cons app].
  - destruct Hd as [Hds Hdig].
    replace (scan_unit u ((ds ++ [u]) ++ tl)) with (Some (ds, tl)); [eauto|].
    symmetry. apply scan_unit_spec; [exact Hu|]. rewrite <- app_assoc. auto.
  - rewrite Htl. eauto.
Qed.

Lemma fullmatch_hms_sound raw m :
  fullmatch HMS_RE raw = Some m ->
  exists h mi sec,
    number h /\ number mi /\ number sec
    /\ raw = unit_text h 104 ++ unit_text mi 109 ++ unit_text sec 115
    /\ caps m = caps_of h mi sec.
Proof.
  rewrite fullmatch_hms.
  set (s0 := MState None raw []).
  destruct (step_unit_spec "h" 104 s0 eq_refl) as (h & Hh & R1 & C1).
  set (s1 := step_unit "h" 104 s0) in *.
  destruct (step_unit_spec "m" 109 s1 eq_refl) as (mi & Hm & R2 & C2).
  set (s2 := step_unit "m" 109 s1) in *.
  destruct (step_unit_spec "s" 115 s2 eq_refl) as (sec & Hs & R3 & C3).
  set (s3 := step_unit "s" 115 s2) in *.
  unfold at_end. destruct (rest s3) eqn:E; [|discriminate].
  intros [= <-]. exists h, mi, sec. repeat split; try assumption.
  - cbn [rest s0] in R1. rewrite R1, R2, R3. by rewrite app_nil_r.
  - rewrite C3, C2, C1. reflexivity.
Qed.

Lemma fullmatch_hms_complete h mi sec :
  number h -> number mi -> number sec ->
  exists m,
    fullmatch HMS_RE (unit_text h 104 ++ unit_text mi 109 ++ unit_text sec 115)
    = Some m
    /\ caps m = caps_of h mi sec.
Proof.
  intros Hh Hm Hs. rewrite fullmatch_hms.
  assert (T3 : scan_unit 115 [] = None) by reflexivity.
  assert (T2 : scan_unit 109 (unit_text sec 115 ++ []) = None).
  { by apply scan_unit_text_other. }
  assert (T1 : scan_unit 104 (unit_text mi 109 ++ unit_text sec 115 ++ [])
               = None).
  { apply scan_unit_text_other; try done. by apply scan_unit_text_other. }
  replace (unit_text sec 115) with (unit_text sec 115 ++ [])
    by apply app_nil_r.
  destruct (step_unit_text "h" 104 h _ None [] eq_refl Hh T1) as (p1 & ->).
  destruct (step_unit_text "m" 109 mi _ p1 (opt_cons "h" h []) eq_refl Hm T2)
    as (p2 & ->).
  destruct (step_unit_text "s" 115 sec _ p2
              (opt_cons "m" mi (opt_cons "h" h [])) eq_refl Hs T3)
    as (p3 & ->).
  eexists. split; reflexivity.
Qed.

Lemma digit_value_nonneg c : 0 <= digit_value c.
Proof.
  unfold digit_value.
  destruct (range_of c DECIMAL_RANGES) as [[lo hi]|];
    [apply N2Z.is_nonneg | reflexivity].
Qed.

Lemma int_of_nonneg_acc ds acc :
  forallb isdigit ds = true -> 0 <= acc ->
  0 <= fold_left (fun acc c => acc * 10 + digit_value c) ds acc.
Proof.
  revert acc. induction ds as [|d ds IH]; intros acc Hds Hacc;
    cbn [fold_left]; [exact Hacc|].
  cbn [forallb] in Hds. apply andb_true_iff in Hds as [_ Hds].
  apply IH; [exact Hds|]. pose proof (digit_value_nonneg d). lia.
Qed.

Lemma amount_nonneg d : number d -> 0 <= amount d.
Proof.
  destruct d as [ds|]; cbn [number amount]; [|lia].
  intros [_ Hds]. by apply int_of_nonneg_acc.
Qed.

Lemma group_int_caps h mi sec p r :
  number h -> number mi -> number sec ->
  let m := MState p r (caps_of h mi sec) in
  group_int "h" m = amount h /\ group_int "m" m = amount mi
  /\ group_int "s" m = amount sec.
Proof.
  intros Hh Hm Hs. cbv zeta. unfold group_int, group, caps_of. cbn [caps].
  destruct h as [[|? ?]|], mi as [[|? ?]|], sec as [[|? ?]|];
    cbn [number] in *; try (by destruct Hh); try (by destruct Hm);
    try (by destruct Hs); repeat split; reflexivity.
Qed.

Lemma timedelta_zero h m s :
  0 <= h -> 0 <= m -> 0 <= s ->
  (h =? 0) && (m =? 0) && (s =? 0) = true <-> timedelta h m s = 0.
Proof.
  intros Hh Hm Hs. unfold timedelta.
  rewrite !andb_true_iff, !Z.eqb_eq. lia.
Qed.

Lemma unit_text_nonempty h mi sec :
  number h -> number mi -> number sec ->
  unit_text h 104 ++ unit_text mi 109 ++ unit_text sec 115 = []
  <-> h = None /\ mi = None /\ sec = None.
Proof.
  intros Hh Hm Hs. split.
  - intros H. apply app_eq_nil in H as [H1 H]. apply app_eq_nil in H as [H2 H3].
    destruct h as [ds|]; [by destruct ds|].
    destruct mi as [ds|]; [by destruct ds|].
    destruct sec as [ds|]; [by destruct ds|]. auto.
  - intros (-> & -> & ->). reflexivity.
Qed.

(** C8, as stated, fails: ["0s"] has one matched unit and is of the grammar,
    yet the parser returns none for it; and [" 3h"], which starts with a
    blank and is not of the grammar, is parsed as three hours. *)
Lemma C8_zero_rejected_blank_accepted :
  hms_grammar None None (Some (py "0")) (py "0s")
  /\ _parse_hms_duration (py "0s") = None
  /\ _parse_hms_duration (py " 3h") = Some (hours 3)
  /\ (forall h m sec, ~ hms_grammar h m sec (py " 3h")).
Proof.
  split; [|split; [|split]].
  - unfold hms_grammar. cbn [number unit_text].
    repeat split; try reflexivity; try discriminate. right. right. by eexists.
  - vm_compute. reflexivity.
  - vm_compute. reflexivity.
  - intros h m sec (E & Hh & Hm & Hs & _).
    assert (Hfirst : forall d u tl, number d ->
              (py " 3h" : pystr) = unit_text d u ++ tl ->
              d = None).
    { intros [[|c ds]|] u tl Hd H; [by destruct Hd| |reflexivity].
      destruct Hd as [_ Hd]. cbn [forallb] in Hd.
      apply andb_true_iff in Hd as [Hc _].
      injection H as <- _. discriminate Hc. }
    change (lower (py " 3h")) with (py " 3h") in E.
    pose proof (Hfirst h _ _ Hh E) as ->. cbn [unit_text app] in E.
    pose proof (Hfirst m _ _ Hm E) as ->. cbn [unit_text app] in E.
    rewrite <- (app_nil_r (unit_text sec 115)) in E.
    pose proof (Hfirst sec _ _ Hs E) as ->. discriminate E.
Qed.

(** C8 (amended): the parser trims the text and lower-cases it, and returns
    a duration exactly when the result is of the grammar
    [(\d+h)?(\d+m)?(\d+s)?] (decimal digits of any script, unit letters in
    either case, hours then minutes then seconds, at least one component)
    and the numbers are not all zero; the duration is then what the
    components denote.  A text with no matched unit is invalid, and so is a
    text of zeros such as ["0s"].  This is stated for a text of at most
    4300 characters and a duration that is a [timedelta]: a longer number
    makes [int] raise, a larger duration makes [timedelta] raise. *)
Theorem C8_parse_hms_duration (s : pystr) (td : Z) :
  (length s <= INT_MAX_STR_DIGITS)%nat ->
  td <= TIMEDELTA_MAX ->
  (_parse_hms_duration s = Some td
   <-> exists h m sec,
         hms_grammar h m sec (strip s)
         /\ td = hms_value h m sec /\ td <> 0).
Proof.
  intros _ _. unfold _parse_hms_duration, hms_grammar. split.
  - destruct (lower (strip s)) as [|c raw] eqn:Eraw; [discriminate|].
    destruct (fullmatch HMS_RE (c :: raw)) as [m|] eqn:Em; [|discriminate].
    destruct (fullmatch_hms_sound _ _ Em) as (h & mi & sec & Hh & Hm & Hs & E & C).
    destruct m as [p r cs]. cbn [caps] in C. subst cs.
    destruct (group_int_caps h mi sec p r Hh Hm Hs) as (-> & -> & ->).
    destruct ((amount h =? 0) && (amount mi =? 0) && (amount sec =? 0)) eqn:Z0;
      [discriminate|].
    intros [= <-]. exists h, mi, sec. split; [|split; [reflexivity|]].
    + split; [exact E|]. repeat split; try assumption.
      destruct h; [left; by eexists|]. destruct mi; [right; left; by eexists|].
      destruct sec; [right; right; by eexists|]. discriminate E.
    + intros H0. apply timedelta_zero in H0; try (by apply amount_nonneg).
      congruence.
  - intros (h & mi & sec & (E & Hh & Hm & Hs & Hsome) & -> & Hnz).
    rewrite E.
    destruct (unit_text h 104 ++ unit_text mi 109 ++ unit_text sec 115)
      as [|c raw] eqn:Eraw.
    { apply unit_text_nonempty in Eraw as (-> & -> & ->); try assumption.
      destruct Hsome as [[? [=]] | [[? [=]] | [? [=]]]]. }
    rewrite <- Eraw.
    destruct (fullmatch_hms_complete h mi sec Hh Hm Hs) as (m & -> & C).
    destruct m as [p r cs]. cbn [caps] in C. subst cs.
    destruct (group_int_caps h mi sec p r Hh Hm Hs) as (-> & -> & ->).
    destruct ((amount h =? 0) && (amount mi =? 0) && (amount sec =? 0)) eqn:Z0;
      [|reflexivity].
    apply timedelta_zero in Z0; try (by apply amount_nonneg).
    by destruct Hnz.
Qed.

Lemma C8_fullwidth_witness :
  _parse_hms_duration (py " ３H ") = Some (hours 3)
  /\ exists h m sec,
       hms_grammar h m sec (strip (py " ３H "))
       /\ hours 3 = hms_value h m sec /\ hours 3 <> 0.
Proof.
  assert (E : _parse_hms_duration (py " ３H ") = Some (hours 3))
    by (vm_compute; reflexivity).
  split; [exact E|].
  apply (C8_parse_hms_duration (py " ３H ") (hours 3)); [| |exact E].
  - apply Nat.leb_le. vm_compute. reflexivity.
  - vm_compute. discriminate.
Defined.

(** ** Idempotent aggregation and the scenarios of the specification *)

Lemma apply_twice mid status diag ev ev' st :
  matrix (apply mid status diag ev' (apply mid status diag ev st))
  = matrix (apply mid status diag ev st).
Proof.
  unfold apply at 1. cbn [matrix]. rewrite apply_lookup. cbv zeta.
  set (row := default (new_row mid HEALTHY GENERIC) (matrix st !! mid)).
  change (default _ (Some ?r)) with r. cbn [Provider Model Status Diagnosis].
  unfold apply. cbn [matrix]. fold row. rewrite insert_insert_eq.
  assert (Hs : _worse_status (_worse_status (Status row) status) status
               = _worse_status (Status row) status).
  { by rewrite worse_assoc, worse_idem. }
  rewrite Hs. f_equal. f_equal.
  destruct (nonempty diag); cbn [andb]; [|reflexivity].
  destruct (startswith GENERIC_PREFIX (Diagnosis row)) eqn:Hg; cbn [orb].
  - by destruct (startswith GENERIC_PREFIX diag
                 || negb (is_green (_worse_status (Status row) status))).
  - destruct (negb (is_green (_worse_status (Status row) status)));
      [by rewrite orb_true_r | by rewrite Hg].
Qed.

Lemma apply_stale_matrix_ext ts_local mid inc s1 s2 :
  matrix s1 = matrix s2 ->
  matrix (apply_stale ts_local mid inc s1)
  = matrix (apply_stale ts_local mid inc s2).
Proof.
  intros H. apply map_eq. intros i. destruct (decide (mid = i)) as [<- | Hne].
  - by rewrite !apply_stale_lookup, H.
  - by rewrite !apply_stale_lookup_ne, H.
Qed.

Lemma apply_stale_twice ts_local mid inc st :
  matrix (apply_stale ts_local mid inc (apply_stale ts_local mid inc st))
  = matrix (apply_stale ts_local mid inc st).
Proof.
  apply map_eq. intros i. destruct (decide (mid = i)) as [<- | Hne].
  - rewrite apply_stale_lookup. rewrite apply_stale_lookup. cbv zeta.
    change (default _ (Some ?r)) with r. cbn [Provider Model Status Diagnosis].
    by destruct (rank _ =? 1).
  - by rewrite apply_stale_lookup_ne.
Qed.

(** X1, idempotent aggregation (specification, section 8): the same incident
    applied twice in a row leaves the matrix as after the first time. *)
Theorem apply_incident_idempotent
    (now : Z) (ts : option Z) (ts_local mid : pystr) (inc : Incident)
    (st : pass) :
  matrix (apply_incident now ts ts_local mid inc
            (apply_incident now ts ts_local mid inc st))
  = matrix (apply_incident now ts ts_local mid inc st).
Proof.
  unfold apply_incident. rewrite !record_last_matrix.
  destruct (is_active now ts (sticky_until inc)).
  - rewrite (apply_matrix_ext mid _ _ (event inc) (event inc) _
               (apply mid (base_status inc) (diagnosis inc) (event inc) st))
      by apply record_last_matrix.
    apply apply_twice.
  - rewrite (apply_stale_matrix_ext ts_local mid inc _
               (apply_stale ts_local mid inc st))
      by apply record_last_matrix.
    apply apply_stale_twice.
Qed.

(** Scenario A: a 429 line with "reset after 45m" for a healthy model makes
    its row yellow with the recovery hint and appends one event; the other
    rows stay as they were. *)
Lemma scenario_A :
  parse_llm_status [line_rpm] catalog fmt_utc (T0 + seconds 60)
    cooldown_sticky_minutes_default rate_limit_sticky_minutes_default
  = (<[gpt_x := {| Provider := py "acme"; Model := py "gpt-x";
                   Status := py "🟡 429 限流";
                   Diagnosis := py "429 限流（短期/RPM 可能）。预计 45m 后重置" |}]>
       (initial_matrix catalog),
     [py "[02:28] acme/gpt-x: 429/rate_limit 预计 45m 后重置"]).
Proof.
  vm_compute. reflexivity.
Qed.

(** ** Reading the log, the audit trail and the configuration *)

Lemma lstrip_nl_spec s :
  exists k, s = replicate k 10%N ++ lstrip_nl s
            /\ head (lstrip_nl s) <> Some 10%N.
Proof.
  induction s as [|c s (k & E & H)]; [by exists 0%nat|].
  cbn [lstrip_nl]. destruct (c =? 10)%N eqn:Ec.
  - apply N.eqb_eq in Ec as ->. exists (S k). cbn. by rewrite <- E.
  - exists 0%nat. split; [reflexivity|]. cbn. intros [= ->]. discriminate.
Qed.

Lemma rstrip_nl_spec s :
  exists k, s = rstrip_nl s ++ replicate k 10%N
            /\ last (rstrip_nl s) <> Some 10%N.
Proof.
  destruct (lstrip_nl_spec (reverse s)) as (k & E & H).
  exists k. unfold rstrip_nl. split.
  - rewrite <- (reverse_involutive s) at 1. rewrite E at 1.
    rewrite reverse_app, reverse_replicate. reflexivity.
  - by rewrite last_reverse.
Qed.

(** X2, the window of [get_recent_lines]: every line it returns is a line
    of the file that carries a timestamp at or after the cutoff, with the
    newlines at its end, and nothing else, taken off. *)
Theorem get_recent_lines_window file since_utc l :
  l ∈ get_recent_lines file since_utc ->
  exists lines l0 t k,
    file = Some lines /\ l0 ∈ lines
    /\ ts_utc l0 = Some t /\ ts_utc l = Some t /\ since_utc <= t
    /\ text l0 = text l ++ replicate k 10%N
    /\ last (text l) <> Some 10%N.
Proof.
  destruct file as [lines|]; cbn [get_recent_lines];
    [|by intros ?%elem_of_nil].
  intros (l0 & Hin & H)%list_elem_of_omap.
  unfold recent_line in H. destruct (ts_utc l0) as [t|] eqn:Et; [|discriminate].
  destruct (t >=? since_utc) eqn:Ec; [|discriminate].
  injection H as <-. cbn [text ts_utc].
  destruct (rstrip_nl_spec (text l0)) as (k & E & Hl).
  exists lines, l0, t, k. repeat split; try done. lia.
Qed.

Lemma get_recent_lines_window_witness :
  exists lines l0 t k,
    Some [line_restart_nl; line_undated] = Some lines /\ l0 ∈ lines
    /\ ts_utc l0 = Some t /\ ts_utc line_restart = Some t
    /\ T0 - hours 24 <= t
    /\ text l0 = text line_restart ++ replicate k 10%N
    /\ last (text line_restart) <> Some 10%N.
Proof.
  apply (get_recent_lines_window (Some [line_restart_nl; line_undated])
           (T0 - hours 24) line_restart).
  vm_compute. apply list_elem_of_here.
Defined.

(** X3, a missing or unreadable log and a log without timestamps give no
    lines: [get_recent_lines] never raises and never returns a line that
    has no timestamp. *)
Theorem get_recent_lines_nothing since_utc lines :
  get_recent_lines None since_utc = []
  /\ (get_recent_lines (Some lines) since_utc = []
      <-> Forall (fun l => at_or_after since_utc l = false) lines).
Proof.
  split; [reflexivity|]. cbn [get_recent_lines].
  induction lines as [|l lines IH]; [by split|].
  cbn [omap list_omap]. unfold recent_line at 1, at_or_after at 1.
  rewrite Forall_cons. destruct (ts_utc l) as [t|].
  - replace (t >=? since_utc) with (since_utc <=? t) by lia.
    destruct (since_utc <=? t); [|tauto].
    split; [discriminate|]. by intros [? _].
  - tauto.
Qed.

(** X4, narrowing the window: the lines since a later instant are the
    lines since the earlier one that are stamped at or after the later
    instant, in the same order. *)
Theorem get_recent_lines_narrow file since_utc since' :
  since_utc <= since' ->
  get_recent_lines file since'
  = filter (fun l => at_or_after since' l = true)
      (get_recent_lines file since_utc).
Proof.
  intros Hle. destruct file as [lines|]; [|reflexivity].
  cbn [get_recent_lines].
  assert (Hl : forall l,
    recent_line since' l
    = match recent_line since_utc l with
      | Some y => if at_or_after since' y then Some y else None
      | None => None
      end).
  { intros l. unfold recent_line, at_or_after.
    destruct (ts_utc l) as [t|]; [|reflexivity].
    destruct (t >=? since') eqn:E1, (t >=? since_utc) eqn:E2; try lia;
      cbn [ts_utc].
    - by replace (since' <=? t) with true by lia.
    - by replace (since' <=? t) with false by lia.
    - reflexivity. }
  induction lines as [|l lines IH]; [reflexivity|].
  cbn [omap list_omap]. rewrite Hl, IH.
  destruct (recent_line since_utc l) as [y|]; [|reflexivity].
  rewrite filter_cons. destruct (at_or_after since' y).
  - by rewrite decide_True.
  - by rewrite decide_False.
Qed.

Lemma get_recent_lines_narrow_witness :
  get_recent_lines (Some [line_quota; line_no_key]) (T0 - hours 1)
  = filter (fun l => at_or_after (T0 - hours 1) l = true)
      (get_recent_lines (Some [line_quota; line_no_key]) (T0 - hours 24)).
Proof.
  apply (get_recent_lines_narrow (Some [line_quota; line_no_key])
           (T0 - hours 24) (T0 - hours 1)).
  vm_compute. discriminate.
Defined.

Lemma read_audit_not_object since_utc lines :
  NotObject ∈ lines -> forall out, read_audit since_utc lines out = None.
Proof.
  induction lines as [|a lines IH]; [by intros ?%elem_of_nil|].
  intros [<- | Hin]%elem_of_cons out; [reflexivity|].
  cbn [read_audit]. destruct a as [| |e [ts|]]; try reflexivity; auto.
  destruct (ts >=? since_utc); auto.
Qed.

Lemma read_audit_objects since_utc lines :
  NotObject ∉ lines ->
  forall out,
    read_audit since_utc lines out
    = Some (out ++ omap (recent_event since_utc) lines).
Proof.
  induction lines as [|a lines IH]; intros Hn out.
  - cbn. by rewrite app_nil_r.
  - apply not_elem_of_cons in Hn as [Ha Hn]. specialize (IH Hn).
    destruct a as [| |e [ts|]]; cbn [read_audit omap list_omap];
      [apply IH|done| |apply IH].
    unfold recent_event at 1.
    destruct (ts >=? since_utc); [|apply IH].
    rewrite IH, <- app_assoc. reflexivity.
Qed.

(** X5, one bad record loses the whole audit trail: when a line of the
    watchdog audit file is valid JSON but no object (a bare number, string,
    list or null), [_read_watchdog_events] returns no event at all, whatever
    the other lines hold; so does a missing or unreadable file. *)
Theorem read_watchdog_events_all_lost since_utc lines :
  NotObject ∈ lines ->
  _read_watchdog_events (Some lines) since_utc = []
  /\ _read_watchdog_events None since_utc = [].
Proof.
  intros H. split; [|reflexivity]. unfold _read_watchdog_events.
  by rewrite read_audit_not_object.
Qed.

Lemma read_watchdog_events_all_lost_witness :
  _read_watchdog_events
    (Some [AuditObject {| wd_type := Some (py "gateway_restart");
                          wd_timestamp := Some T0 |} (Some T0);
           NotObject])
    (T0 - hours 24) = []
  /\ _read_watchdog_events None (T0 - hours 24) = [].
Proof.
  apply (read_watchdog_events_all_lost (T0 - hours 24)
           [AuditObject {| wd_type := Some (py "gateway_restart");
                           wd_timestamp := Some T0 |} (Some T0);
            NotObject]).
  apply list_elem_of_further, list_elem_of_here.
Defined.

(** X6, lines that are no JSON are skipped: when every line of the audit
    file that parses is an object, [_read_watchdog_events] returns, in file
    order, exactly the objects whose timestamp can be read and is at or
    after the cutoff. *)
Theorem read_watchdog_events_kept since_utc lines :
  NotObject ∉ lines ->
  _read_watchdog_events (Some lines) since_utc
  = omap (recent_event since_utc) lines.
Proof.
  intros H. unfold _read_watchdog_events.
  by rewrite read_audit_objects.
Qed.

Lemma read_watchdog_events_kept_witness :
  _read_watchdog_events
    (Some [NotJson;
           AuditObject {| wd_type := Some (py "gateway_restart");
                          wd_timestamp := Some T0 |} (Some T0);
           AuditObject {| wd_type := Some (py "check");
                          wd_timestamp := None |} None])
    (T0 - hours 24)
  = omap (recent_event (T0 - hours 24))
      [NotJson;
       AuditObject {| wd_type := Some (py "gateway_restart");
                      wd_timestamp := Some T0 |} (Some T0);
       AuditObject {| wd_type := Some (py "check");
                      wd_timestamp := None |} None].
Proof.
  apply (read_watchdog_events_kept (T0 - hours 24)).
  intros H. repeat (apply elem_of_cons in H as [H | H]; [discriminate H|]).
  by apply elem_of_nil in H.
Defined.

(** ** Whitespace, slashes and the configured models *)

Lemma lstrip_app_nonspace l c r :
  isspace c = false -> lstrip (l ++ c :: r) = lstrip l ++ c :: r.
Proof.
  intros Hc. induction l as [|a l IH]; cbn [lstrip app].
  - by rewrite Hc.
  - destruct (isspace a); [exact IH | reflexivity].
Qed.

Lemma lstrip_fixed c s : isspace c = false -> lstrip (c :: s) = c :: s.
Proof. intros Hc. cbn [lstrip]. by rewrite Hc. Qed.

Lemma lstrip_head s :
  match lstrip s with c :: _ => isspace c = false | [] => True end.
Proof.
  induction s as [|a s IH]; [done|]. cbn [lstrip].
  by destruct (isspace a) eqn:E.
Qed.

Lemma lstrip_idem s : lstrip (lstrip s) = lstrip s.
Proof.
  pose proof (lstrip_head s) as H. destruct (lstrip s) as [|c t]; [done|].
  by apply lstrip_fixed.
Qed.

Lemma rstrip_cons_nonspace c s :
  isspace c = false -> rstrip (c :: s) = c :: rstrip s.
Proof.
  intros Hc. unfold rstrip. rewrite reverse_cons.
  rewrite lstrip_app_nonspace by done. by rewrite reverse_app.
Qed.

Lemma rstrip_idem s : rstrip (rstrip s) = rstrip s.
Proof. unfold rstrip. by rewrite reverse_involutive, lstrip_idem. Qed.

Lemma strip_cons_nonspace c s :
  isspace c = false -> strip (c :: s) = c :: rstrip s.
Proof.
  intros Hc. unfold strip. rewrite lstrip_fixed by done.
  by apply rstrip_cons_nonspace.
Qed.

Lemma strip_idem s : strip (strip s) = strip s.
Proof.
  unfold strip. pose proof (lstrip_head s) as H.
  destruct (lstrip s) as [|c t]; [reflexivity|].
  rewrite rstrip_cons_nonspace by done.
  rewrite lstrip_fixed by done.
  rewrite rstrip_cons_nonspace by done. by rewrite rstrip_idem.
Qed.

Lemma contains_slash s :
  contains [slash] s = bool_decide (slash ∈ s).
Proof.
  induction s as [|c s IH]; [reflexivity|].
  cbn [contains startswith]. rewrite IH, andb_true_r.
  destruct (slash =? c)%N eqn:E.
  - apply N.eqb_eq in E as <-. cbn. symmetry. apply bool_decide_eq_true.
    apply list_elem_of_here.
  - apply N.eqb_neq in E. cbn [orb]. apply bool_decide_ext.
    rewrite elem_of_cons. split; [auto | intros [? | ?]; [congruence | done]].
Qed.

Lemma split_once_join s a b :
  slash ∈ s -> split_once slash s = (a, b) ->
  s = a ++ [slash] ++ b /\ slash ∉ a.
Proof.
  revert a b. induction s as [|c s IH]; intros a b Hin E.
  - by apply elem_of_nil in Hin.
  - cbn [split_once] in E. destruct (c =? slash)%N eqn:Ec.
    + apply N.eqb_eq in Ec as ->. injection E as <- <-.
      split; [reflexivity | apply not_elem_of_nil].
    + apply N.eqb_neq in Ec.
      destruct (split_once slash s) as [a' b'] eqn:E'. injection E as <- <-.
      apply elem_of_cons in Hin as [Hin | Hin]; [congruence|].
      destruct (IH a' b' Hin eq_refl) as [-> Hn].
      split; [reflexivity|]. rewrite not_elem_of_cons. split; congruence.
Qed.

Lemma model_ref_id mid : model_id (model_ref mid) = mid.
Proof. unfold model_ref. by destruct (provider_model_of mid). Qed.

(** X7, provider and model of an id: an id with a slash splits at its
    first slash, so that the provider holds no slash and
    [_normalize_model_id] of the two parts gives the id back; an id without
    a slash gets the provider "unknown" and is its own model name. *)
Theorem model_ref_round_trip mid :
  let r := model_ref mid in
  model_id r = mid
  /\ if contains [slash] mid
     then _normalize_model_id (provider r) (model r) = mid
          /\ contains [slash] (provider r) = false
     else provider r = py "unknown" /\ model r = mid.
Proof.
  cbv zeta. split; [apply model_ref_id|].
  unfold model_ref, provider_model_of.
  destruct (contains [slash] mid) eqn:E; [|done].
  rewrite contains_slash in E. apply bool_decide_eq_true in E.
  destruct (split_once slash mid) as [p m] eqn:Es. cbn [provider model].
  destruct (split_once_join mid p m E Es) as [-> Hn].
  split; [reflexivity|]. rewrite contains_slash.
  by apply bool_decide_eq_false.
Qed.

Lemma model_name_spec v s :
  model_name v = Some s -> s <> [] /\ strip s = s.
Proof.
  destruct v as [| | | |s0| |]; try discriminate. cbn [model_name].
  destruct (nonempty (strip s0)) eqn:E; [|discriminate].
  intros [= <-]. split; [by destruct (strip s0) | apply strip_idem].
Qed.

Lemma configured_names_spec primary fallbacks models_map agents_list s :
  s ∈ configured_names primary fallbacks models_map agents_list ->
  s <> [] /\ strip s = s.
Proof.
  unfold configured_names. rewrite !elem_of_app.
  assert (H : forall l : list json,
            s ∈ omap model_name l -> s <> [] /\ strip s = s).
  { intros l (v & _ & Hv)%list_elem_of_omap. by eapply model_name_spec. }
  intros [Hs | [Hs | [Hs | Hs]]]; [by eapply H| | |by eapply H].
  - destruct fallbacks; try (by apply elem_of_nil in Hs). by eapply H.
  - destruct models_map; try (by apply elem_of_nil in Hs). by eapply H.
Qed.

Lemma get_configured_models_names config refs :
  get_configured_models config = Some refs ->
  exists names,
    refs = map model_ref (uniq_events names)
    /\ forall s, s ∈ names -> s <> [] /\ strip s = s.
Proof.
  unfold get_configured_models. intros H.
  apply bind_Some in H as (agents & _ & H).
  apply bind_Some in H as (defaults & _ & H).
  apply bind_Some in H as (model_raw & _ & H).
  apply bind_Some in H as (primary & _ & H).
  apply bind_Some in H as (fallbacks & _ & H).
  apply bind_Some in H as (models_map & _ & H).
  apply bind_Some in H as (agents_raw & _ & H).
  apply bind_Some in H as (agents_list & _ & H).
  injection H as <-. eexists. split; [reflexivity|].
  intros s. apply configured_names_spec.
Qed.

(** X8, the configured models: when [get_configured_models] returns, no
    model id occurs twice in its result, every id is non-empty and carries
    no whitespace at either end, and the provider and model of each entry
    are the ones its id splits into. *)
Theorem get_configured_models_refs config refs :
  get_configured_models config = Some refs ->
  NoDup (map model_id refs)
  /\ Forall (fun r => model_id r <> []
                      /\ strip (model_id r) = model_id r
                      /\ r = model_ref (model_id r)) refs.
Proof.
  intros (names & -> & Hn)%get_configured_models_names.
  destruct (uniq_events_spec names) as (Hnd & _ & Hin & _).
  assert (Hid : map model_id (map model_ref (uniq_events names))
                = uniq_events names).
  { rewrite map_map. erewrite map_ext; [apply map_id|].
    intros a. apply model_ref_id. }
  split; [by rewrite Hid|].
  apply Forall_forall. intros r (mid & -> & Hm)%list_elem_of_fmap.
  rewrite model_ref_id. apply Hin, Hn in Hm. tauto.
Qed.

Lemma get_configured_models_refs_witness :
  NoDup (map model_id catalog)
  /\ Forall (fun r => model_id r <> []
                      /\ strip (model_id r) = model_id r
                      /\ r = model_ref (model_id r)) catalog.
Proof.
  apply (get_configured_models_refs config_example catalog).
  vm_compute. reflexivity.
Defined.

Lemma new_row_model_ref mid :
  {| Provider := provider (model_ref mid); Model := model (model_ref mid);
     Status := HEALTHY; Diagnosis := GENERIC |}
  = new_row mid HEALTHY GENERIC.
Proof. unfold model_ref, new_row. by destruct (provider_model_of mid). Qed.

Lemma initial_matrix_fold (refs : list ModelRef) (mid : pystr) :
  Forall (fun r => r = model_ref (model_id r)) refs ->
  forall mx : gmap pystr Row,
    fold_left (fun mx m =>
        <[model_id m := {| Provider := provider m; Model := model m;
                           Status := HEALTHY; Diagnosis := GENERIC |}]> mx)
      refs mx !! mid
    = if bool_decide (mid ∈ map model_id refs)
      then Some (new_row mid HEALTHY GENERIC) else mx !! mid.
Proof.
  induction 1 as [|r refs Hr _ IH]; intros mx; [reflexivity|].
  cbn [fold_left map]. rewrite IH.
  destruct (decide (mid ∈ map model_id refs)) as [Hin | Hin].
  - rewrite !bool_decide_eq_true_2; [done | by right | done].
  - rewrite (bool_decide_eq_false_2 _ Hin).
    destruct (decide (model_id r = mid)) as [<- | Hne].
    + rewrite lookup_insert_eq, bool_decide_eq_true_2 by left.
      rewrite Hr at 1 2. by rewrite new_row_model_ref.
    + rewrite lookup_insert_ne by done.
      rewrite bool_decide_eq_false_2; [done|].
      rewrite elem_of_cons. intros [? | ?]; [congruence | done].
Qed.

(** X9, from the configuration to the matrix: with the models
    [get_configured_models] returns, the pass of [parse_llm_status] starts
    with one row per configured id and no other row; each is green with the
    generic diagnosis, and its provider and model columns are those a row
    made for that id on first sight in a log line would get. *)
Theorem configured_rows config refs mid :
  get_configured_models config = Some refs ->
  matrix (initial refs) !! mid
  = if bool_decide (mid ∈ map model_id refs)
    then Some (new_row mid HEALTHY GENERIC) else None.
Proof.
  intros H. apply get_configured_models_refs in H as [_ H].
  cbn [initial matrix]. unfold initial_matrix.
  rewrite initial_matrix_fold; [done|].
  eapply Forall_impl; [exact H|]. cbn. tauto.
Qed.

Lemma configured_rows_witness :
  matrix (initial catalog) !! py "other/m1"
  = if bool_decide (py "other/m1" ∈ map model_id catalog)
    then Some (new_row (py "other/m1") HEALTHY GENERIC) else None.
Proof.
  apply (configured_rows config_example catalog (py "other/m1")).
  vm_compute. reflexivity.
Defined.

(** X10, a configuration without agents: when the configuration has no
    "agents" entry, [get_configured_models] returns no model; when the
    entry is there but is no object, null included, it raises. *)
Theorem get_configured_models_agents d :
  match dict_get (py "agents") d with
  | None => get_configured_models (JDict d) = Some []
  | Some (JDict _) => True
  | Some _ => get_configured_models (JDict d) = None
  end.
Proof.
  destruct (dict_get (py "agents") d) as [v|] eqn:E.
  - destruct v; try done; unfold get_configured_models, py_get;
      rewrite E; reflexivity.
  - unfold get_configured_models, py_get. rewrite E. reflexivity.
Qed.

(** X11, the default model given as a string: when "model" under
    "agents.defaults" is a non-empty string instead of an object with
    "primary" and "fallbacks", [get_configured_models] raises, whatever
    else the configuration lists. *)
Theorem get_configured_models_model_string d da dd s :
  dict_get (py "agents") d = Some (JDict da) ->
  dict_get (py "defaults") da = Some (JDict dd) ->
  dict_get (py "model") dd = Some (JStr s) ->
  s <> [] ->
  get_configured_models (JDict d) = None.
Proof.
  intros Ha Hd Hm Hs. unfold get_configured_models, py_get.
  rewrite Ha. cbn -[py]. rewrite Hd. cbn -[py]. rewrite Hm. cbn -[py].
  unfold json_or. cbn [json_truthy]. destruct s; [done|]. reflexivity.
Qed.

Lemma get_configured_models_model_string_witness :
  get_configured_models config_model_string = None.
Proof.
  apply (get_configured_models_model_string _
           [(py "defaults", JDict [(py "model", JStr (py "acme/gpt-x"))])]
           [(py "model", JStr (py "acme/gpt-x"))] (py "acme/gpt-x")).
  - vm_compute. reflexivity.
  - vm_compute. reflexivity.
  - vm_compute. reflexivity.
  - vm_compute. discriminate.
Defined.

(** ** The restart timeline as a whole *)

Lemma from_candidates_more seen c (r : Z * pystr) :
  fst r ∈ fst <$> seen /\ snd r ∈ snd <$> seen ->
  fst r ∈ fst <$> seen ++ [c] /\ snd r ∈ snd <$> seen ++ [c].
Proof. rewrite !fmap_app, !elem_of_app. tauto. Qed.

Lemma from_candidates_last seen (c : Z * pystr) :
  fst c ∈ fst <$> seen ++ [c] /\ snd c ∈ snd <$> seen ++ [c].
Proof.
  rewrite !fmap_app, !elem_of_app. split; right; apply list_elem_of_here.
Qed.

Lemma merge_step_from_candidates seen merged c :
  from_candidates seen merged ->
  from_candidates (seen ++ [c]) (merge_step merged c).
Proof.
  intros (Hall & Hlen & Hne).
  assert (Hall' : Forall (fun r => fst r ∈ fst <$> seen ++ [c]
                                   /\ snd r ∈ snd <$> seen ++ [c]) merged).
  { eapply Forall_impl; [exact Hall|]. intros r. apply from_candidates_more. }
  clear Hall Hne. destruct merged as [|kept merged _] using rev_ind.
  - change (merge_step [] c) with [c]. split; [|split].
    + constructor; [apply from_candidates_last | constructor].
    + rewrite length_app. cbn. lia.
    + done.
  - rewrite merge_step_snoc. apply Forall_app in Hall' as [Hm Hk].
    rewrite Forall_singleton in Hk. rewrite length_app in Hlen.
    cbn [length] in Hlen.
    destruct (within 90 (fst kept) (fst c)); (split; [|split]).
    + apply Forall_app. split; [exact Hm|]. apply Forall_singleton.
      destruct (contains (py "异常") (snd c)); [|exact Hk].
      cbn [fst snd]. split; [apply Hk | apply from_candidates_last].
    + rewrite !length_app. cbn. lia.
    + intros _. by destruct merged.
    + apply Forall_app. split; [exact Hm|].
      constructor; [exact Hk|]. apply Forall_singleton.
      apply from_candidates_last.
    + rewrite !length_app. cbn. lia.
    + intros _. by destruct merged.
Qed.

Lemma fold_merge_from_candidates l :
  forall seen merged,
    from_candidates seen merged ->
    from_candidates (seen ++ l) (fold_left merge_step l merged).
Proof.
  induction l as [|c l IH]; intros seen merged H; cbn [fold_left].
  - by rewrite app_nil_r.
  - replace (seen ++ c :: l) with ((seen ++ [c]) ++ l)
      by (by rewrite <- app_assoc).
    by apply IH, merge_step_from_candidates.
Qed.

Lemma merge_from_candidates restarts :
  from_candidates restarts (merge restarts).
Proof.
  pose proof (fold_merge_from_candidates (sort_desc restarts) [] []) as H.
  destruct H as (Hall & Hlen & Hne).
  { split; [constructor | split; [done | done]]. }
  cbn [app] in *. pose proof (sort_desc_perm restarts) as Hp.
  split; [|split].
  - eapply Forall_impl; [exact Hall|]. intros r. cbv beta.
    by rewrite Hp.
  - unfold merge. by rewrite <- (Permutation_length Hp).
  - intros Hr. apply Hne. intros E. apply Hr.
    apply Permutation_nil. by rewrite <- Hp, E.
Qed.

Lemma omap_length_le {A B} (f : A -> option B) (l : list A) :
  (length (omap f l) <= length l)%nat.
Proof.
  induction l as [|a l IH]; [done|]. cbn [omap list_omap].
  destruct (f a); cbn [length]; lia.
Qed.

Lemma elem_of_three_four {A} (x a b c d : A) :
  x ∈ [a; b; c] -> x ∈ [a; b; c; d].
Proof. rewrite !elem_of_cons. tauto. Qed.

Lemma candidate_spec l t r :
  candidate l = Some (t, r) ->
  ts_utc l = Some t /\ r ∈ [SIGUSR1; SIGTERM; CRASH].
Proof.
  unfold candidate.
  destruct (contains (py "received sigusr1; restarting") _).
  { destruct (ts_utc l) as [t'|]; cbn [fmap option_fmap option_map];
      [|discriminate].
    intros [= <- <-]. split; [reflexivity | apply list_elem_of_here]. }
  destruct (contains (py "received sigterm; shutting down") _).
  { destruct (ts_utc l) as [t'|]; cbn [fmap option_fmap option_map];
      [|discriminate].
    intros [= <- <-]. split; [reflexivity|].
    apply list_elem_of_further, list_elem_of_here. }
  destruct (_ || _); [|discriminate].
  destruct (ts_utc l) as [t'|]; cbn [fmap option_fmap option_map];
    [|discriminate].
  intros [= <- <-]. split; [reflexivity|].
  apply list_elem_of_further, list_elem_of_further, list_elem_of_here.
Qed.

Lemma merged_reason lines c :
  c ∈ merge (omap candidate lines) -> snd c ∈ [SIGUSR1; SIGTERM; CRASH].
Proof.
  intros Hc. destruct (merge_from_candidates (omap candidate lines))
    as (Hall & _ & _).
  rewrite Forall_forall in Hall. destruct (Hall c Hc) as [_ Hs].
  apply list_elem_of_fmap in Hs as ([t r] & -> & Hin).
  apply list_elem_of_omap in Hin as (l & _ & Hl).
  by apply candidate_spec in Hl as [_ Hr].
Qed.

(** X12, the records of [analyze_restarts]: there are never more records
    than log lines; there is no record exactly when no line is a restart
    signal with a timestamp; the reason of every record is one of the four
    reasons the report knows; and the time shown for a record is that of a
    line that is a restart signal. *)
Theorem analyze_restarts_records lines watchdog_events fmt_local :
  let out := analyze_restarts lines watchdog_events fmt_local in
  (length out <= length lines)%nat
  /\ (out = [] <-> Forall (fun l => candidate l = None) lines)
  /\ Forall (fun r => reason r ∈ [SIGUSR1; SIGTERM; CRASH; WATCHDOG]) out
  /\ Forall (fun r => exists l t why,
               l ∈ lines /\ candidate l = Some (t, why)
               /\ timestamp r = fmt_local t) out.
Proof.
  cbv zeta. unfold analyze_restarts.
  destruct (merge_from_candidates (omap candidate lines))
    as (Hall & Hlen & Hne).
  split; [|split; [|split]].
  - rewrite length_map. etransitivity; [exact Hlen|]. apply omap_length_le.
  - split.
    + intros E. apply map_eq_nil in E.
      apply Forall_forall. intros l Hl.
      destruct (candidate l) as [c|] eqn:Ec; [|reflexivity].
      exfalso. apply Hne; [|exact E]. intros En.
      assert (Hc : c ∈ omap candidate lines)
        by (apply list_elem_of_omap; eauto).
      rewrite En in Hc. by apply elem_of_nil in Hc.
    + intros Hn. assert (E : omap candidate lines = []).
      { clear -Hn. induction Hn as [|l ls Hl _ IH]; [reflexivity|].
        cbn [omap list_omap]. by rewrite Hl. }
      rewrite E. reflexivity.
  - apply Forall_forall. intros r Hr.
    change (map ?f ?l) with (f <$> l) in Hr.
    apply list_elem_of_fmap in Hr as (c & -> & Hc). cbn [reason].
    unfold attribute. destruct (existsb _ _).
    + do 3 apply list_elem_of_further. apply list_elem_of_here.
    + by apply elem_of_three_four, (merged_reason lines).
  - apply Forall_forall. intros r Hr.
    change (map ?f ?l) with (f <$> l) in Hr.
    apply list_elem_of_fmap in Hr as (c & -> & Hc). cbn [timestamp].
    rewrite Forall_forall in Hall. destruct (Hall c Hc) as [Hf _].
    apply list_elem_of_fmap in Hf as ([t why] & -> & Hin).
    apply list_elem_of_omap in Hin as (l & Hl & Hcl).
    exists l, t, why. auto.
Qed.

Lemma StronglySorted_lookup {A} (R : A -> A -> Prop) (l : list A) :
  (forall i j a b, (i < j)%nat -> l !! i = Some a -> l !! j = Some b -> R a b) ->
  StronglySorted R l.
Proof.
  induction l as [|x l IH]; intros H; constructor.
  - apply IH. intros i j a b Hij Ha Hb.
    apply (H (S i) (S j) a b); [lia | exact Ha | exact Hb].
  - apply Forall_forall. intros b Hb.
    apply list_elem_of_lookup in Hb as [j Hj].
    apply (H 0%nat (S j) x b); [lia | reflexivity | exact Hj].
Qed.

(** X13, restarts are told apart by 90 seconds: the merged restart
    records are listed newest first, and each one is more than 90 seconds
    older than every record listed before it, whatever the order and the
    number of the restart signals in the logs. *)
Theorem merge_spaced (restarts : list (Z * pystr)) :
  StronglySorted spaced (merge restarts).
Proof.
  unfold merge. rewrite merge_groups.
  pose proof (sort_desc_sorted restarts) as Hs.
  destruct (sort_desc restarts) as [|c l]; [constructor|].
  cbn [groups]. apply StronglySorted_lookup. intros i j a b Hij Ha Hb.
  change (map ?f ?l) with (f <$> l) in Ha, Hb.
  apply list_lookup_fmap_Some in Ha as (gi & -> & Hi).
  apply list_lookup_fmap_Some in Hb as (gj & -> & Hj).
  assert (Hgood : Forall good_group (group_from c [] l)).
  { apply group_from_good; [exact Hs | constructor]. }
  rewrite Forall_forall in Hgood.
  pose proof (Hgood gi (list_elem_of_lookup_2 _ _ _ Hi)) as Gi.
  pose proof (Hgood gj (list_elem_of_lookup_2 _ _ _ Hj)) as Gj.
  destruct gi as [|k ms]; [done|]. destruct gj as [|k' ms']; [done|].
  unfold spaced. cbn [record_of_group fst].
  apply (group_from_separated c [] l Hs i j k ms (k' :: ms') k' Hij Hi Hj).
  apply list_elem_of_here.
Qed.

(** X14, the watchdog reason needs evidence: a record is reported with
    the watchdog self-heal reason exactly when the audit trail has a
    "gateway_restart" event whose timestamp is within 120 seconds of the
    record; any other record keeps the reason the merge gave it. *)
Theorem watchdog_reason_iff
    (lines : list Line) (watchdog_events : list WatchdogEvent)
    (fmt_local : Z -> pystr) (i : nat) (c : Z * pystr) :
  merge (omap candidate lines) !! i = Some c ->
  exists r,
    analyze_restarts lines watchdog_events fmt_local !! i = Some r
    /\ timestamp r = fmt_local (fst c)
    /\ (reason r = WATCHDOG
        <-> exists e w, e ∈ watchdog_events
              /\ wd_type e = Some (py "gateway_restart")
              /\ wd_timestamp e = Some w
              /\ Z.abs (w - fst c) <= seconds 120)
    /\ (reason r <> WATCHDOG -> reason r = snd c).
Proof.
  intros Hc. eexists. split; [|split; [|split]].
  - unfold analyze_restarts. change (map ?f ?l) with (f <$> l).
    rewrite list_lookup_fmap, Hc. reflexivity.
  - reflexivity.
  - cbn [reason]. split.
    + intros Hw. unfold attribute in Hw.
      destruct (existsb _ _) eqn:E.
      * apply existsb_exists in E as (w & Hin & Hnear).
        apply list_elem_of_In, wd_restart_times_elem in Hin
          as (e & He & Ht & Hts).
        exists e, w. repeat split; try done.
        unfold within in Hnear. lia.
      * exfalso. pose proof (merged_reason lines c
                               (list_elem_of_lookup_2 _ _ _ Hc)) as Hr.
        rewrite Hw in Hr.
        repeat (apply elem_of_cons in Hr as [Hr | Hr];
                [vm_compute in Hr; discriminate Hr|]).
        by apply elem_of_nil in Hr.
    + intros (e & w & He & Ht & Hts & Hnear).
      apply (attribute_near _ c w); [|exact Hnear].
      apply wd_restart_times_elem. eauto.
  - cbn [reason]. unfold attribute. by destruct (existsb _ _).
Qed.

Lemma watchdog_reason_iff_witness :
  exists r,
    analyze_restarts crash_lines watchdog_trail fmt_utc !! 0%nat = Some r
    /\ timestamp r = fmt_utc (fst (T0 + seconds 30, CRASH))
    /\ (reason r = WATCHDOG
        <-> exists e w, e ∈ watchdog_trail
              /\ wd_type e = Some (py "gateway_restart")
              /\ wd_timestamp e = Some w
              /\ Z.abs (w - fst (T0 + seconds 30, CRASH)) <= seconds 120)
    /\ (reason r <> WATCHDOG -> reason r = snd (T0 + seconds 30, CRASH)).
Proof.
  apply (watchdog_reason_iff crash_lines watchdog_trail fmt_utc 0%nat
           (T0 + seconds 30, CRASH)).
  vm_compute. reflexivity.
Defined.

Lemma NoDup_fst_inj {A B} (l : list (A * B)) (x y : A * B) :
  NoDup (fst <$> l) -> x ∈ l -> y ∈ l -> fst x = fst y -> x = y.
Proof.
  induction l as [|a l IH]; intros Hnd Hx Hy E; [by apply elem_of_nil in Hx|].
  rewrite fmap_cons in Hnd. apply NoDup_cons in Hnd as [Ha Hnd].
  apply elem_of_cons in Hx as [-> | Hx]; apply elem_of_cons in Hy as [-> | Hy].
  - reflexivity.
  - exfalso. apply Ha. rewrite E. apply list_elem_of_fmap. eauto.
  - exfalso. apply Ha. rewrite <- E. apply list_elem_of_fmap. eauto.
  - by apply IH.
Qed.

Lemma sort_desc_unique l1 l2 :
  l1 ≡ₚ l2 -> NoDup (fst <$> l1) -> sort_desc l1 = sort_desc l2.
Proof.
  intros Hp Hnd.
  apply (StronglySorted_unique_strong newer_first);
    [|apply sort_desc_sorted|apply sort_desc_sorted|].
  - intros x1 x2 H1 H2 R1 R2. unfold newer_first in R1, R2.
    rewrite sort_desc_perm in H1, H2. rewrite <- Hp in H2.
    apply (NoDup_fst_inj l1); [done..|lia].
  - by rewrite !sort_desc_perm.
Qed.

(** X15, the order of the log lines does not matter: when no two restart
    signals carry the same timestamp, [analyze_restarts] gives the same
    records for the lines in any order, so the gateway log and the runtime
    logs may be read in either order. *)
Theorem analyze_restarts_order lines lines' watchdog_events fmt_local :
  lines ≡ₚ lines' ->
  NoDup (fst <$> omap candidate lines) ->
  analyze_restarts lines watchdog_events fmt_local
  = analyze_restarts lines' watchdog_events fmt_local.
Proof.
  intros Hp Hnd. unfold analyze_restarts, merge.
  rewrite (sort_desc_unique (omap candidate lines) (omap candidate lines'));
    [reflexivity | by rewrite Hp | exact Hnd].
Qed.

Lemma analyze_restarts_order_witness :
  analyze_restarts restart_lines watchdog_trail fmt_utc
  = analyze_restarts (reverse restart_lines) watchdog_trail fmt_utc.
Proof.
  apply (analyze_restarts_order restart_lines (reverse restart_lines)).
  - symmetry. apply reverse_Permutation.
  - apply (bool_decide_unpack _). vm_compute. exact I.
Defined.

(** ** Durations as a whole *)

Lemma isspace_letter c : (33 <= c <= 132)%N -> isspace c = false.
Proof.
  intros H. unfold isspace.
  repeat match goal with
  | |- context [(?a <=? ?b)%N] =>
    first [rewrite (proj2 (N.leb_le a b)) by lia
          |rewrite (proj2 (N.leb_gt a b)) by lia]
  | |- context [(?a =? ?b)%N] => rewrite (proj2 (N.eqb_neq a b)) by lia
  end.
  reflexivity.
Qed.

Lemma isspace_lower_char c : isspace (lower_char c) = isspace c.
Proof.
  unfold lower_char. destruct ((65 <=? c) && (c <=? 90))%N eqn:E; [|done].
  apply andb_true_iff in E as [E1 E2]. apply N.leb_le in E1, E2.
  rewrite !isspace_letter by lia. reflexivity.
Qed.

Lemma lower_char_idem c : lower_char (lower_char c) = lower_char c.
Proof.
  unfold lower_char. destruct ((65 <=? c) && (c <=? 90))%N eqn:E; [|by rewrite E].
  apply andb_true_iff in E as [E1 E2]. apply N.leb_le in E1, E2.
  destruct ((65 <=? c + 32) && (c + 32 <=? 90))%N eqn:E'; [|done].
  apply andb_true_iff in E' as [_ E']. apply N.leb_le in E'. lia.
Qed.

Lemma lower_idem s : lower (lower s) = lower s.
Proof.
  unfold lower. rewrite map_map. apply map_ext. apply lower_char_idem.
Qed.

Lemma lstrip_lower s : lstrip (lower s) = lower (lstrip s).
Proof.
  induction s as [|c s IH]; [reflexivity|]. cbn [lower map lstrip].
  rewrite isspace_lower_char. destruct (isspace c); [exact IH | reflexivity].
Qed.

Lemma reverse_lower s : reverse (lower s) = lower (reverse s).
Proof. unfold lower. change (map ?f ?l) with (f <$> l). by rewrite fmap_reverse. Qed.

Lemma strip_lower s : strip (lower s) = lower (strip s).
Proof.
  unfold strip, rstrip.
  by rewrite lstrip_lower, reverse_lower, lstrip_lower, reverse_lower.
Qed.

(** X16, blanks and case never matter to a duration: [_parse_hms_duration]
    gives the same answer for a text, for the text with the whitespace at
    its ends taken off, and for the text in lower case. *)
Theorem parse_hms_duration_normal s :
  _parse_hms_duration (strip s) = _parse_hms_duration s
  /\ _parse_hms_duration (lower s) = _parse_hms_duration s.
Proof.
  unfold _parse_hms_duration. split.
  - by rewrite strip_idem.
  - by rewrite strip_lower, lower_idem.
Qed.

(** X17, a parsed duration is a positive whole number of seconds: the
    parser never returns a zero or negative duration, nor a fraction of a
    second. *)
Theorem parse_hms_duration_positive s td :
  _parse_hms_duration s = Some td ->
  exists n, 0 < n /\ td = seconds n.
Proof.
  unfold _parse_hms_duration. destruct (lower (strip s)) as [|c raw]; [done|].
  destruct (fullmatch HMS_RE (c :: raw)) as [m|] eqn:E; [|done].
  apply fullmatch_hms_sound in E as (h & mi & sec & Hh & Hm & Hs & _ & Hc).
  destruct m as [p r cs]. cbn [caps] in Hc. subst cs.
  destruct (group_int_caps h mi sec p r Hh Hm Hs) as (-> & -> & ->).
  pose proof (amount_nonneg h Hh). pose proof (amount_nonneg mi Hm).
  pose proof (amount_nonneg sec Hs).
  destruct ((amount h =? 0) && (amount mi =? 0) && (amount sec =? 0)) eqn:Z0;
    [done|].
  intros [= <-].
  exists (amount h * 3600 + amount mi * 60 + amount sec). split.
  - apply andb_false_iff in Z0 as [Z0 | Z0];
      [apply andb_false_iff in Z0 as [Z0 | Z0]|]; apply Z.eqb_neq in Z0; lia.
  - unfold seconds, timedelta. lia.
Qed.

Lemma parse_hms_duration_positive_witness :
  exists n, 0 < n /\ hours 3 = seconds n.
Proof.
  apply (parse_hms_duration_positive (py " 3H ") (hours 3)).
  vm_compute. reflexivity.
Defined.

(** ** The pass as a sequence of elementary updates *)

Lemma head_app_lit (lit rest : pystr) c :
  head lit = Some c -> head (lit ++ rest) = Some c.
Proof. by destruct lit. Qed.

Lemma head_strip_lit (lit rest : pystr) c :
  head lit = Some c -> isspace c = false ->
  head (strip (lit ++ rest)) = Some c.
Proof.
  destruct lit as [|c' t]; [done|]. intros [= ->] Hc.
  cbn [app]. by rewrite strip_cons_nonspace.
Qed.

Lemma specific_head status diag c :
  2 <= rank status -> head diag = Some c -> c <> 29366%N ->
  specific status diag.
Proof.
  intros Hr Hd Hc. destruct diag as [|c' d]; [done|]. injection Hd as ->.
  split; [exact Hr|]. split; [reflexivity|].
  assert (E : GENERIC_PREFIX = 29366%N :: py "态稳定")
    by (vm_compute; reflexivity).
  rewrite E. cbn [startswith].
  destruct (N.eqb_spec 29366 c); [congruence | reflexivity].
Qed.

Lemma apply_event mid status diag ev st :
  apply mid status diag ev st
  = match ev with
    | Some (c :: e) => push (c :: e) (apply mid status diag None st)
    | _ => apply mid status diag None st
    end.
Proof. by destruct ev as [[|c e]|]. Qed.

Lemma apply_updates mid status diag ev st :
  specific status diag -> rtc update st (apply mid status diag ev st).
Proof.
  intros H. rewrite apply_event.
  assert (H1 : update st (apply mid status diag None st))
    by (by constructor).
  destruct ev as [[|c e]|]; try (by apply rtc_once).
  eapply rtc_l; [exact H1|]. apply rtc_once. constructor.
Qed.

Lemma apply_healthy_seed mid st :
  matrix st !! mid = None ->
  apply mid HEALTHY GENERIC None st
  = {| matrix := <[mid := new_row mid HEALTHY GENERIC]> (matrix st);
       events := events st; last_seen := last_seen st |}.
Proof.
  intros H. unfold apply. rewrite H. cbn [default add_event].
  rewrite new_row_status, new_row_diagnosis, worse_idem.
  f_equal. f_equal.
  match goal with
  | |- context [if ?b then GENERIC else GENERIC] => destruct b
  end; unfold new_row; by destruct (provider_model_of mid).
Qed.

Lemma add_event_updates ev st :
  rtc update st {| matrix := matrix st; events := add_event ev (events st);
                   last_seen := last_seen st |}.
Proof.
  destruct ev as [[|c e]|]; cbn [add_event];
    try (destruct st; apply rtc_refl).
  apply rtc_once. apply (update_event (c :: e) st).
Qed.

Lemma apply_stale_updates ts_local mid inc st :
  rtc update st (apply_stale ts_local mid inc st).
Proof.
  unfold apply_stale.
  set (st1 := match matrix st !! mid with
              | Some _ => st
              | None => apply mid HEALTHY GENERIC None st
              end).
  assert (H1 : rtc update st st1).
  { subst st1. destruct (matrix st !! mid) eqn:E; [apply rtc_refl|].
    rewrite apply_healthy_seed by done. apply rtc_once. by constructor. }
  etransitivity; [exact H1|]. clearbody st1. clear H1.
  destruct (matrix st1 !! mid) as [row|] eqn:E;
    [destruct (is_green (Status row)) eqn:G|]; try apply add_event_updates.
  eapply rtc_l; [exact (update_breadcrumb mid row ts_local (kind inc) st1 E G)|].
  apply (add_event_updates (event inc)
           {| matrix := _; events := events st1; last_seen := last_seen st1 |}).
Qed.

Lemma record_last_updates ts mid knd st :
  rtc update st (record_last ts mid knd st).
Proof.
  unfold record_last. destruct ts as [t|]; [|apply rtc_refl].
  destruct (match last_seen st !! mid with
            | Some (t0, _) => t0 <? t
            | None => true
            end); [|apply rtc_refl].
  apply rtc_once. constructor.
Qed.

Lemma apply_incident_updates now ts ts_local mid inc st :
  specific (base_status inc) (diagnosis inc) ->
  rtc update st (apply_incident now ts ts_local mid inc st).
Proof.
  intros H. unfold apply_incident.
  etransitivity; [|apply record_last_updates].
  destruct (is_active now ts (sticky_until inc));
    [by apply apply_updates | apply apply_stale_updates].
Qed.

Lemma fold_left_updates {A} (f : pass -> A -> pass) (l : list A) :
  (forall s x, rtc update s (f s x)) ->
  forall s, rtc update s (fold_left f l s).
Proof.
  intros Hf. induction l as [|x l IH]; intros s; cbn [fold_left].
  - apply rtc_refl.
  - etransitivity; [apply Hf | apply IH].
Qed.

Lemma specific_lit status lit rest :
  (2 <=? rank status) = true -> distinct_head lit = true ->
  specific status lit /\ specific status (lit ++ rest)
  /\ specific status (strip (lit ++ rest)).
Proof.
  intros Hr Hd. apply Z.leb_le in Hr. destruct lit as [|c t]; [done|].
  cbn [distinct_head] in Hd. apply andb_true_iff in Hd as [Hs Hc].
  apply negb_true_iff in Hs, Hc. apply N.eqb_neq in Hc.
  split; [|split].
  - by apply (specific_head status _ c).
  - by apply (specific_head status _ c).
  - apply (specific_head status _ c); [done | by apply head_strip_lit | done].
Qed.

Lemma rate_limit_incident_specific rlsm ts ts_local mid msg :
  specific (base_status (rate_limit_incident rlsm ts ts_local mid msg))
    (diagnosis (rate_limit_incident rlsm ts ts_local mid msg)).
Proof.
  unfold rate_limit_incident.
  destruct (_reset_after_from_text msg) as [[td raw]|];
    cbn [fmap option_fmap option_map fst].
  - destruct (td_truthy (Some td) && (td <=? hours 1));
      [|destruct (td_truthy (Some td))]; cbn [base_status diagnosis].
    + apply specific_lit; vm_compute; reflexivity.
    + apply specific_lit; vm_compute; reflexivity.
    + apply (specific_lit _ _ []); vm_compute; reflexivity.
  - cbn [base_status diagnosis].
    apply (specific_lit _ _ []); vm_compute; reflexivity.
Qed.

Lemma classify_specific csm rlsm cd ts ts_local mid msg inc :
  specific (py "🟡 瞬时限流") cd ->
  classify csm rlsm cd ts ts_local mid msg = Some inc ->
  specific (base_status inc) (diagnosis inc).
Proof.
  intros Hcd. unfold classify.
  destruct (is_cooldown msg); [intros [= <-]; exact Hcd|].
  destruct (is_rate_limit msg);
    [intros [= <-]; apply rate_limit_incident_specific|].
  destruct (is_timeout msg).
  { intros [= <-]. cbn [base_status diagnosis].
    apply (specific_lit _ _ []); vm_compute; reflexivity. }
  destruct (is_context_limit msg); [|discriminate].
  intros [= <-]. cbn [base_status diagnosis].
  apply (specific_lit _ _ []); vm_compute; reflexivity.
Qed.

Lemma segment_cooldown_specific :
  specific (py "🟡 瞬时限流") SEGMENT_COOLDOWN.
Proof. apply (specific_lit _ _ []); vm_compute; reflexivity. Qed.

Lemma line_cooldown_specific : specific (py "🟡 瞬时限流") LINE_COOLDOWN.
Proof. apply (specific_lit _ _ []); vm_compute; reflexivity. Qed.

Lemma provider_cooldown_specific :
  specific (py "🟡 瞬时限流")
    (py "Provider cooldown（该 provider 下所有 profile 不可用）。").
Proof. apply (specific_lit _ _ []); vm_compute; reflexivity. Qed.

Lemma unknown_model_specific :
  specific (py "🔴 模型无效") (py "Unknown model / not allowed").
Proof. apply (specific_lit _ _ []); vm_compute; reflexivity. Qed.

Lemma no_api_key_specific :
  specific (py "🔴 配置缺失") (py "未配置 API key（provider 认证失败）。").
Proof. apply (specific_lit _ _ []); vm_compute; reflexivity. Qed.

Lemma process_segment_updates now csm rlsm ts ts_local st raw_seg :
  rtc update st (process_segment now csm rlsm ts ts_local st raw_seg).
Proof.
  unfold process_segment.
  destruct (negb (contains [colon] (strip raw_seg))); [apply rtc_refl|].
  destruct (split_once colon (strip raw_seg)) as [mid0 msg0].
  destruct (negb (contains [slash] (strip mid0))
            && negb (bool_decide (is_Some (matrix st !! strip mid0))));
    [apply rtc_refl|].
  destruct (classify csm rlsm SEGMENT_COOLDOWN ts ts_local (strip mid0)
              (strip msg0)) as [inc|] eqn:E; [|apply rtc_refl].
  apply apply_incident_updates.
  exact (classify_specific _ _ _ _ _ _ _ _ segment_cooldown_specific E).
Qed.

Lemma process_model_updates now csm rlsm ts ts_local line st mid :
  rtc update st (process_model now csm rlsm ts ts_local line st mid).
Proof.
  unfold process_model.
  set (st1 := match matrix st !! mid with
              | Some _ => st
              | None => _
              end).
  assert (H1 : rtc update st st1).
  { subst st1. destruct (matrix st !! mid) eqn:E; [apply rtc_refl|].
    apply rtc_once. by constructor. }
  etransitivity; [exact H1|].
  destruct (classify csm rlsm LINE_COOLDOWN ts ts_local mid line)
    as [inc|] eqn:E; [|apply rtc_refl].
  apply apply_incident_updates.
  exact (classify_specific _ _ _ _ _ _ _ _ line_cooldown_specific E).
Qed.

Lemma process_unattributed_updates ts_local line st :
  rtc update st (process_unattributed ts_local line st).
Proof.
  unfold process_unattributed.
  destruct (is_rate_limit line); [apply rtc_once; constructor|].
  destruct (is_context_limit line);
    [apply rtc_once; constructor | apply rtc_refl].
Qed.

Lemma process_unknown_model_updates ts_local mid st :
  rtc update st (process_unknown_model ts_local mid st).
Proof.
  unfold process_unknown_model.
  set (st1 := push _ st).
  assert (H1 : update st st1) by constructor.
  eapply rtc_l; [exact H1|]. clearbody st1.
  destruct (matrix st1 !! mid) eqn:E.
  - apply apply_updates. exact unknown_model_specific.
  - apply rtc_once. apply update_first;
      [exact E | exact unknown_model_specific].
Qed.

Lemma process_no_api_key_updates models ts_local p st :
  rtc update st (process_no_api_key models ts_local p st).
Proof.
  unfold process_no_api_key.
  eapply rtc_l; [apply update_event|]. apply fold_left_updates.
  intros s m. destruct (bool_decide (provider m = p)); [|apply rtc_refl].
  apply apply_updates. exact no_api_key_specific.
Qed.

Lemma process_provider_cooldown_updates models now csm ts ts_local p st :
  rtc update st (process_provider_cooldown models now csm ts ts_local p st).
Proof.
  unfold process_provider_cooldown.
  eapply rtc_l; [apply update_event|]. apply fold_left_updates.
  intros s m. destruct (bool_decide (provider m = p)); [|apply rtc_refl].
  apply apply_incident_updates. exact provider_cooldown_specific.
Qed.

Lemma process_line_updates models fmt_local now csm rlsm st l :
  rtc update st (process_line models fmt_local now csm rlsm st l).
Proof.
  unfold process_line.
  destruct (other_agent LANE_AGENT_RE (text l)); [apply rtc_refl|].
  destruct (other_agent AGENT_DIR_RE (text l)); [apply rtc_refl|].
  destruct (search ALL_MODELS_FAILED_BODY_RE (text l)).
  { apply fold_left_updates. intros s x. apply process_segment_updates. }
  destruct (search NO_API_KEY_RE (text l));
    [apply process_no_api_key_updates|].
  destruct (if negb (truthy (line_model_id models (text l))) && _
            then search COOLDOWN_PROVIDER_RE (text l) else None);
    [apply process_provider_cooldown_updates|].
  destruct (unknown_model (text l)); [apply process_unknown_model_updates|].
  destruct (is_nil _).
  - apply process_unattributed_updates.
  - apply fold_left_updates. intros s x. apply process_model_updates.
Qed.

Lemma run_updates models fmt_local now csm rlsm lines more :
  rtc update (run models fmt_local now csm rlsm lines)
    (run models fmt_local now csm rlsm (lines ++ more)).
Proof.
  rewrite run_app. apply fold_left_updates.
  intros s x. apply process_line_updates.
Qed.

(** ** What a pass keeps *)

Lemma extends_refl st : extends st st.
Proof. split; [intros mid row H; eauto | reflexivity]. Qed.

Lemma extends_trans st1 st2 st3 :
  extends st1 st2 -> extends st2 st3 -> extends st1 st3.
Proof.
  intros [R12 E12] [R23 E23]. split; [|by etransitivity].
  intros mid row H. destruct (R12 mid row H) as (row2 & H2 & P2 & M2).
  destruct (R23 mid row2 H2) as (row3 & H3 & P3 & M3).
  exists row3. repeat split; [exact H3 | congruence | congruence].
Qed.

Lemma extends_insert (st : pass) mid row' evs ls :
  (forall row, matrix st !! mid = Some row ->
     Provider row' = Provider row /\ Model row' = Model row) ->
  events st `prefix_of` evs ->
  extends st {| matrix := <[mid := row']> (matrix st); events := evs;
                last_seen := ls |}.
Proof.
  intros Hrow Hev. split; [|exact Hev]. cbn [matrix].
  intros mid0 row0 H0. destruct (decide (mid = mid0)) as [<- | Hne].
  - exists row'. rewrite lookup_insert_eq. split; [reflexivity|]. by apply Hrow.
  - exists row0. by rewrite lookup_insert_ne.
Qed.

Lemma update_extends st st' : update st st' -> extends st st'.
Proof.
  destruct 1 as [mid status diag st _ | mid st Hn | mid status diag st Hn _
                | mid row ts_local knd st Hrow _ | e st | mid t knd st].
  - unfold apply. apply extends_insert; [|reflexivity].
    intros row Hrow. rewrite Hrow. done.
  - apply extends_insert; [|reflexivity]. intros row Hrow. congruence.
  - apply extends_insert; [|reflexivity]. intros row Hrow. congruence.
  - apply extends_insert; [|reflexivity]. intros row0 H0.
    rewrite Hrow in H0. by injection H0 as <-.
  - split; [intros mid row H; eauto | by apply prefix_app_r].
  - split; [intros mid' row H; eauto | reflexivity].
Qed.

Lemma updates_extends st st' : rtc update st st' -> extends st st'.
Proof.
  induction 1 as [|st1 st2 st3 H _ IH]; [apply extends_refl|].
  eapply extends_trans; [by apply update_extends | exact IH].
Qed.

(** X18, a pass only adds: a line never removes a row from the matrix nor
    changes the provider or the model a row shows, and never removes or
    reorders an event recorded so far; so the state after more lines keeps
    every row and starts with the same events. *)
Theorem pass_keeps_rows_and_events
    (models : list ModelRef) (fmt_local : Z -> pystr)
    (now csm rlsm : Z) (st : pass) (l : Line) (lines more : list Line) :
  extends st (process_line models fmt_local now csm rlsm st l)
  /\ extends (run models fmt_local now csm rlsm lines)
       (run models fmt_local now csm rlsm (lines ++ more)).
Proof.
  split; apply updates_extends;
    [apply process_line_updates | apply run_updates].
Qed.

Lemma new_row_columns mid status diag :
  (Provider (new_row mid status diag), Model (new_row mid status diag))
  = provider_model_of mid.
Proof. unfold new_row. by destruct (provider_model_of mid). Qed.

Lemma specific_rank status diag :
  specific status diag -> 1 <= rank status <= 3 /\ is_green status = false.
Proof.
  intros (Hr & _ & _). pose proof (rank_range status). split; [lia|].
  apply is_green_false_rank. lia.
Qed.

Lemma breadcrumb_not_generic ts_local knd :
  startswith GENERIC_PREFIX (breadcrumb ts_local knd) = false.
Proof.
  unfold breadcrumb.
  destruct (specific_lit (py "🔴 模型无效") (py "最近一次异常: [")
              (ts_local ++ py "] " ++ knd
               ++ py "（窗口外/可能已恢复，需验证）"))
    as (_ & (_ & _ & H) & _); [vm_compute; reflexivity..|].
  exact H.
Qed.

Lemma matrix_ok_insert (mx : gmap pystr Row) mid row :
  matrix_ok mx -> row_ok mid row -> matrix_ok (<[mid := row]> mx).
Proof.
  intros Hmx Hrow mid0 row0 H0. destruct (decide (mid = mid0)) as [<- | Hne].
  - rewrite lookup_insert_eq in H0. by injection H0 as <-.
  - rewrite lookup_insert_ne in H0 by done. by apply Hmx.
Qed.

Lemma update_ok st st' :
  update st st' -> matrix_ok (matrix st) -> matrix_ok (matrix st').
Proof.
  destruct 1 as [mid status diag st Hs | mid st Hn | mid status diag st Hn Hs
                | mid row ts_local knd st Hrow Hg | e st | mid t knd st];
    intros Hok; cbn [matrix push]; try exact Hok.
  - unfold apply. cbn [matrix]. apply matrix_ok_insert; [exact Hok|].
    set (row := default (new_row mid HEALTHY GENERIC) (matrix st !! mid)).
    assert (Hrow : (Provider row, Model row) = provider_model_of mid
                   /\ 1 <= rank (Status row) <= 3).
    { subst row. destruct (matrix st !! mid) as [row0|] eqn:E; cbn [default].
      - destruct (Hok mid row0 E) as (? & ? & _). done.
      - split; [apply new_row_columns|].
        rewrite new_row_status, rank_healthy. lia. }
    destruct Hrow as [Hcol Hr]. destruct Hs as (Hs & Hne & Hng).
    assert (Hmax : 2 <= rank (_worse_status (Status row) status) <= 3).
    { rewrite rank_worse. pose proof (rank_range status). lia. }
    split; [|split]; cbn [Status Provider Model Diagnosis].
    + lia.
    + exact Hcol.
    + rewrite Hne. cbn [andb].
      replace (is_green (_worse_status (Status row) status)) with false
        by (symmetry; apply is_green_false_rank; lia).
      cbn [negb]. rewrite orb_true_r. congruence.
  - apply matrix_ok_insert; [exact Hok|]. split; [|split].
    + rewrite new_row_status, rank_healthy. lia.
    + apply new_row_columns.
    + intros _. rewrite new_row_status. by apply is_green_rank, rank_healthy.
  - apply matrix_ok_insert; [exact Hok|].
    destruct (specific_rank _ _ Hs) as [Hr _]. destruct Hs as (_ & _ & Hng).
    split; [|split].
    + by rewrite new_row_status.
    + apply new_row_columns.
    + rewrite new_row_diagnosis. congruence.
  - apply matrix_ok_insert; [exact Hok|].
    destruct (Hok mid row Hrow) as (Hr & Hcol & _).
    split; [|split]; cbn [Status Provider Model Diagnosis];
      [exact Hr | exact Hcol |].
    rewrite breadcrumb_not_generic. discriminate.
Qed.

Lemma updates_ok st st' :
  rtc update st st' -> matrix_ok (matrix st) -> matrix_ok (matrix st').
Proof.
  induction 1 as [|st1 st2 st3 H _ IH]; [done|].
  intros Hok. apply IH. by eapply update_ok.
Qed.

Lemma healthy_row_ok mid : row_ok mid (new_row mid HEALTHY GENERIC).
Proof.
  split; [|split].
  - rewrite new_row_status, rank_healthy. lia.
  - apply new_row_columns.
  - intros _. rewrite new_row_status. by apply is_green_rank, rank_healthy.
Qed.

Lemma initial_ok models :
  Forall (fun r => r = model_ref (model_id r)) models ->
  matrix_ok (matrix (initial models)).
Proof.
  intros H mid row Hrow. cbn [initial matrix] in Hrow.
  unfold initial_matrix in Hrow. rewrite initial_matrix_fold in Hrow by done.
  case_bool_decide; [|by rewrite lookup_empty in Hrow].
  injection Hrow as <-. apply healthy_row_ok.
Qed.

(** X19, the rows of the report are well formed: with the models of the
    configuration, whatever the log lines are, every row
    [parse_llm_status] returns has a status that starts with one of the
    three glyphs, shows the provider and model its id splits into, and
    carries the generic "stable" diagnosis only if it is green: a yellow or
    red row always has a specific diagnosis.  Every configured model has a
    row. *)
Theorem rows_well_formed
    (config : json) (models : list ModelRef) (fmt_local : Z -> pystr)
    (now csm rlsm : Z) (lines : list Line) :
  get_configured_models config = Some models ->
  let mx := fst (parse_llm_status lines models fmt_local now csm rlsm) in
  matrix_ok mx
  /\ (forall mid, mid ∈ map model_id models -> is_Some (mx !! mid)).
Proof.
  intros Hc. cbv zeta. unfold parse_llm_status. cbn [fst].
  apply get_configured_models_refs in Hc as [_ Hc].
  assert (Hm : Forall (fun r => r = model_ref (model_id r)) models).
  { eapply Forall_impl; [exact Hc|]. cbn. tauto. }
  pose proof (run_updates models fmt_local now csm rlsm [] lines) as Hu.
  cbn [app] in Hu. change (run models fmt_local now csm rlsm [])
    with (initial models) in Hu.
  split.
  - eapply updates_ok; [exact Hu | by apply initial_ok].
  - intros mid Hin. apply updates_extends in Hu as [Hrows _].
    destruct (Hrows mid (new_row mid HEALTHY GENERIC)) as (row & Hrow & _).
    + cbn [initial matrix]. unfold initial_matrix.
      rewrite initial_matrix_fold by done.
      by rewrite bool_decide_eq_true_2.
    + by exists row.
Qed.

Lemma rows_well_formed_witness :
  let mx := fst (parse_llm_status [line_quota; line_no_key] catalog fmt_utc
                   (T0 + hours 10) 240 30) in
  matrix_ok mx
  /\ (forall mid, mid ∈ map model_id catalog -> is_Some (mx !! mid)).
Proof.
  apply (rows_well_formed config_example catalog fmt_utc (T0 + hours 10)
           240 30 [line_quota; line_no_key]).
  vm_compute. reflexivity.
Defined.

(** ** Unknown models and provider-wide cooldowns *)

Lemma process_line_unknown_model models fmt_local now csm rlsm st l um :
  other_agent LANE_AGENT_RE (text l) = false ->
  other_agent AGENT_DIR_RE (text l) = false ->
  search ALL_MODELS_FAILED_BODY_RE (text l) = None ->
  search NO_API_KEY_RE (text l) = None ->
  search COOLDOWN_PROVIDER_RE (text l) = None
  \/ truthy (line_model_id models (text l)) = true
  \/ _find_model_refs_in_line (text l) models <> [] ->
  unknown_model (text l) = Some um ->
  process_line models fmt_local now csm rlsm st l
  = process_unknown_model
      (match ts_utc l with Some t => fmt_local t | None => py "??:??" end)
      (group_str "model" um) st.
Proof.
  intros H1 H2 H3 H4 H5 H6. unfold process_line.
  rewrite H1, H2, H3, H4.
  destruct H5 as [H5 | [H5 | H5]].
  - rewrite H5. destruct (negb _ && is_nil _); by rewrite H6.
  - rewrite H5. cbn [negb andb]. by rewrite H6.
  - destruct (truthy (line_model_id models (text l))); cbn [negb andb];
      [by rewrite H6|].
    destruct (_find_model_refs_in_line (text l) models); [done|].
    cbn [is_nil]. by rewrite H6.
Qed.

Lemma mark_row (row : Row) status diag :
  rank status = 3 -> nonempty diag = true ->
  let status' := _worse_status (Status row) status in
  rank status' = 3
  /\ (if nonempty diag
         && (startswith GENERIC_PREFIX (Diagnosis row)
             || negb (is_green status'))
      then diag else Diagnosis row) = diag.
Proof.
  intros Hr Hd. cbv zeta. pose proof (rank_range (Status row)) as Hrow.
  assert (H3 : rank (_worse_status (Status row) status) = 3)
    by (rewrite rank_worse; lia).
  split; [exact H3|]. rewrite Hd.
  replace (is_green (_worse_status (Status row) status)) with false
    by (symmetry; apply is_green_false_rank; lia).
  cbn [negb andb]. by rewrite orb_true_r.
Qed.

Lemma process_unknown_model_spec ts_local mid st :
  let st' := process_unknown_model ts_local mid st in
  (exists row, matrix st' !! mid = Some row
     /\ rank (Status row) = 3
     /\ Diagnosis row = py "Unknown model / not allowed"
     /\ (Provider row, Model row)
        = match matrix st !! mid with
          | Some row0 => (Provider row0, Model row0)
          | None => provider_model_of mid
          end)
  /\ (forall mid', mid <> mid' -> matrix st' !! mid' = matrix st !! mid')
  /\ events st'
     = events st ++ [bracket ts_local ++ py "model=" ++ mid
                     ++ py ": Unknown/Not allowed"].
Proof.
  cbv zeta. unfold process_unknown_model.
  set (st1 := push _ st).
  assert (Hm : matrix st1 = matrix st) by reflexivity.
  assert (He : events st1
               = events st ++ [bracket ts_local ++ py "model=" ++ mid
                               ++ py ": Unknown/Not allowed"])
    by reflexivity.
  clearbody st1. rewrite Hm.
  destruct (matrix st !! mid) as [row0|] eqn:E.
  - split; [|split].
    + eexists. split; [apply apply_lookup|]. cbv zeta.
      rewrite Hm, E.
      change (default (new_row mid HEALTHY GENERIC) (Some row0)) with row0.
      cbn [Status Diagnosis Provider Model].
      destruct (mark_row row0 (py "🔴 模型无效")
                  (py "Unknown model / not allowed")) as [Hr Hd];
        [reflexivity | reflexivity |].
      cbv zeta in Hr, Hd. rewrite Hd. done.
    + intros mid' Hne. by rewrite apply_lookup_ne, Hm.
    + unfold apply. cbn [events add_event]. exact He.
  - cbn [matrix events]. split; [|split].
    + eexists. rewrite lookup_insert_eq. split; [reflexivity|].
      rewrite new_row_status, new_row_diagnosis, new_row_columns. done.
    + intros mid' Hne. by rewrite lookup_insert_ne.
    + exact He.
Qed.

Lemma process_unknown_model_matrix ts_local ts_local' mid st :
  matrix (process_unknown_model ts_local mid st)
  = matrix (process_unknown_model ts_local' mid st).
Proof.
  unfold process_unknown_model.
  change (matrix (push _ st)) with (matrix st).
  destruct (matrix st !! mid); [|reflexivity].
  by apply apply_matrix_ext.
Qed.

(** X20, an unknown or disallowed model: a line with "Unknown model: X" or
    'Model "X" is not allowed' that reaches the rule (a line of the main
    agent that is no aggregate failure, has no missing-key message and is
    not taken by the provider-cooldown rule, which takes a line with
    "Provider P is in cooldown" only if the line names no model) gives X a
    red row with the diagnosis "Unknown model / not allowed", adding the
    row when X has none (with the provider and model X splits into),
    leaves every other row as it was, and records one event; the age of
    the line plays no part, the generation instant and the timestamp do
    not change the matrix. *)
Theorem unknown_model_marks_red
    (models : list ModelRef) (fmt_local : Z -> pystr) (now csm rlsm : Z)
    (st : pass) (l : Line) (um : mstate) :
  other_agent LANE_AGENT_RE (text l) = false ->
  other_agent AGENT_DIR_RE (text l) = false ->
  search ALL_MODELS_FAILED_BODY_RE (text l) = None ->
  search NO_API_KEY_RE (text l) = None ->
  search COOLDOWN_PROVIDER_RE (text l) = None
  \/ truthy (line_model_id models (text l)) = true
  \/ _find_model_refs_in_line (text l) models <> [] ->
  unknown_model (text l) = Some um ->
  let X := group_str "model" um in
  let st' := process_line models fmt_local now csm rlsm st l in
  (exists row, matrix st' !! X = Some row
     /\ rank (Status row) = 3
     /\ Diagnosis row = py "Unknown model / not allowed"
     /\ (Provider row, Model row)
        = match matrix st !! X with
          | Some row0 => (Provider row0, Model row0)
          | None => provider_model_of X
          end)
  /\ (forall mid, X <> mid -> matrix st' !! mid = matrix st !! mid)
  /\ (exists e, events st' = events st ++ [e])
  /\ (forall now' ts',
        matrix (process_line models fmt_local now' csm rlsm st
                  {| text := text l; ts_utc := ts' |})
        = matrix st').
Proof.
  intros H1 H2 H3 H4 H5 H6. cbv zeta.
  rewrite (process_line_unknown_model _ _ _ _ _ _ _ _ H1 H2 H3 H4 H5 H6).
  destruct (process_unknown_model_spec
              (match ts_utc l with
               | Some t => fmt_local t
               | None => py "??:??"
               end) (group_str "model" um) st) as (A & B & C).
  split; [exact A|]. split; [exact B|]. split; [eauto|].
  intros now' ts'.
  rewrite (process_line_unknown_model models fmt_local now' csm rlsm st
             {| text := text l; ts_utc := ts' |} um H1 H2 H3 H4 H5 H6).
  apply process_unknown_model_matrix.
Qed.

Lemma unknown_model_marks_red_witness :
  let st' := process_line catalog fmt_utc (T0 + hours 10) 240 30
               (initial catalog) line_not_allowed in
  search COOLDOWN_PROVIDER_RE (text line_not_allowed) <> None
  /\ exists row, matrix st' !! py "acme/gpt-z" = Some row
                 /\ rank (Status row) = 3
                 /\ Diagnosis row = py "Unknown model / not allowed".
Proof.
  cbv zeta. split; [vm_compute; discriminate|].
  destruct (unknown_model (text line_not_allowed)) as [um|] eqn:E;
    [|vm_compute in E; discriminate].
  assert (HX : group_str "model" um = py "acme/gpt-z").
  { vm_compute in E. injection E as <-. reflexivity. }
  destruct (unknown_model_marks_red catalog fmt_utc (T0 + hours 10) 240 30
              (initial catalog) line_not_allowed um
              ltac:(vm_compute; reflexivity) ltac:(vm_compute; reflexivity)
              ltac:(vm_compute; reflexivity) ltac:(vm_compute; reflexivity)
              ltac:(right; left; vm_compute; reflexivity) E)
    as ((row & Hrow & Hr & Hd & _) & _).
  exists row. rewrite <- HX. auto.
Defined.











(** ** The model a line names *)

(** X22, the three answers of [_extract_provider_model] agree: when it
    returns a provider, the model id it returns is provider, slash, model;
    when it returns a model without a provider, the id is that model name
    and holds no slash; and it returns an id exactly when it returns a
    model. *)
Theorem extract_provider_model_consistent line p m mid :
  _extract_provider_model line = (p, m, mid) ->
  match p, m, mid with
  | Some p', Some m', Some mid' => mid' = _normalize_model_id p' m'
  | None, Some m', Some mid' => mid' = m' /\ contains [slash] mid' = false
  | None, None, None => True
  | _, _, _ => False
  end.
Proof.
  unfold _extract_provider_model.
  destruct (search PROVIDER_MODEL_RE line) as [pm|].
  { intros [= <- <- <-]. reflexivity. }
  destruct (search MODEL_QUOTED_RE line) as [mq|]; [|by intros [= <- <- <-]].
  destruct (contains [slash] (group_str "model" mq)) eqn:E.
  - destruct (split_once slash (group_str "model" mq)) as [p' mm] eqn:Es.
    intros [= <- <- <-].
    rewrite contains_slash in E. apply bool_decide_eq_true in E.
    by destruct (split_once_join _ _ _ E Es) as [-> _].
  - intros [= <- <- <-]. done.
Qed.

Lemma extract_provider_model_consistent_witness :
  py "acme/gpt-x" = _normalize_model_id (py "acme") (py "gpt-x").
Proof.
  apply (extract_provider_model_consistent (text line_quota)
           (Some (py "acme")) (Some (py "gpt-x")) (Some (py "acme/gpt-x"))).
  vm_compute. reflexivity.
Defined.
